(** * OCR Vision Lab: job lifecycle, result normalization and overlay geometry

    A shallow embedding of the front-end page component
    (the [OcrPage] route), of the job list kept by [AppLayout], of the
    [useOcrResult] polling hook and of the result types of [types/ocr.ts],
    together with the properties stated about them.

    Conventions of the embedding:
    - a JavaScript number is an exact rational ([Q]); [x === 0] is [Qeq_bool x 0]
      and the truthiness of a number is "different from zero";
    - an optional property of an object is an [option]; an object is always
      truthy, so [if (o.res)] on a property of object type is a match on [Some];
    - text that is split and trimmed is a list of UTF-16 code units;
      identifiers and URLs, which are only compared, are [string]s;
    - an [async] function is a function of the outcomes of the operations it
      awaits, returning the new state together with the effects it issued. *)

From Stdlib Require Import List ZArith QArith Bool String Ascii DecimalString Lia.
From stdpp Require Import base list.
Import ListNotations.
Local Open Scope Z_scope.

(** ** Result types ([types/ocr.ts]) *)

Module Types.

(** A string whose characters matter: its UTF-16 code units. *)
Definition jsstring := list N.

Definition js (s : string) : jsstring :=
  map N_of_ascii (list_ascii_of_string s).

(** [[x1, y1, x2, y2]] *)
Definition BBox : Type := Q * Q * Q * Q.

Record OcrBlock := {
  block_label : string;
  block_content : jsstring;
  block_bbox : BBox;
  block_id : Z;
  block_order : option Z;
  group_id : Z
}.

(** [OcrResultData] is the union of [OcrV5ResultData] and
    [OcrStructureResultData]; the payload carries no tag, so the value is the
    object with the properties either shape may have. *)
Record OcrResultData := {
  rec_texts : option (list jsstring);
  rec_boxes : option (list (list Q));
  rec_scores : option (list Q);
  width : option Q;
  height : option Q;
  parsing_res_list : option (list OcrBlock)
}.

(** ['rec_texts' in data && Array.isArray(data.rec_texts)] *)
Definition isOcrV5Result (data : OcrResultData) : bool :=
  match rec_texts data with Some _ => true | None => false end.

(** ['parsing_res_list' in data && Array.isArray(data.parsing_res_list)] *)
Definition isStructureResult (data : OcrResultData) : bool :=
  match parsing_res_list data with Some _ => true | None => false end.

(** Truthiness of a number, and of a possibly missing number. *)
Definition truthy_num (q : Q) : bool := negb (Qeq_bool q 0%Q).

Definition truthy_opt_num (o : option Q) : bool :=
  match o with Some q => truthy_num q | None => false end.

(** Truthiness of a possibly null string: null and [''] are falsy. *)
Definition truthy_opt_string (o : option string) : bool :=
  match o with Some s => negb (String.eqb s EmptyString) | None => false end.

(** [a === b] on [string | null]. *)
Definition opt_string_eqb (a b : option string) : bool :=
  match a, b with
  | Some x, Some y => String.eqb x y
  | None, None => true
  | _, _ => false
  end.

End Types.

(** ** Overlay rectangles of [renderResultStep] *)

Module Overlay.
Import Types.
Local Open Scope Q_scope.

(** The part of an [HTMLImageElement] the overlays read. *)
Record HTMLImageElement := {
  clientWidth : Q;
  clientHeight : Q;
  naturalWidth : Q;
  naturalHeight : Q
}.

(** The [style] of one [block-overlay] element. *)
Record OverlayStyle := {
  style_left : Q;
  style_top : Q;
  style_width : Q;
  style_height : Q
}.

(** What [renderResultStep] reads when it draws the overlays. [resultData] is
    not null there: the function returns the empty state before. *)
Record ResultView := {
  showBbox : bool;
  previewUrl : option string;
  loadedImageUrl : option string;
  resultImageRef : option HTMLImageElement;
  resultData : OcrResultData
}.

(** [const blocks = isStructureResult(resultData) ? resultData.parsing_res_list : []] *)
Definition blocks (v : ResultView) : list OcrBlock :=
  match parsing_res_list (resultData v) with Some l => l | None => [] end.

Definition isV5Format (v : ResultView) : bool := isOcrV5Result (resultData v).

(** [const v5Data = isV5Format ? resultData : null] *)
Definition v5Data (v : ResultView) : option OcrResultData :=
  if isV5Format v then Some (resultData v) else None.

(** The style of a rectangle. Numbers are exact rationals where the code
    computes in binary64: the products below are the exact values, so that
    what is proved of them as expressions, or of their signs, holds of the
    code, and a bound that depends on rounding is not claimed. *)
Definition mkStyle (b : BBox) (scaleX scaleY : Q) : OverlayStyle :=
  let '(x1, y1, x2, y2) := b in
  {| style_left := x1 * scaleX;
     style_top := y1 * scaleY;
     style_width := (x2 - x1) * scaleX;
     style_height := (y2 - y1) * scaleY |}.

(** The callback of [blocks.map] for the structure format: [None] is the
    [null] it returns when the dimensions are missing. *)
Definition structureOverlay (v : ResultView) (block : OcrBlock) : option OverlayStyle :=
  match resultImageRef v with
  | None => None
  | Some imageEl =>
      if negb (truthy_opt_num (width (resultData v)))
         || negb (truthy_opt_num (height (resultData v)))
      then None
      else
        match width (resultData v), height (resultData v) with
        | Some w, Some h =>
            let scaleX := clientWidth imageEl / w in
            let scaleY := clientHeight imageEl / h in
            Some (mkStyle (block_bbox block) scaleX scaleY)
        | _, _ => None
        end
  end.

(** The guard in front of both overlay lists:
    [previewUrl && ... showBbox && loadedImageUrl === previewUrl]. *)
Definition overlaysEnabled (v : ResultView) : bool :=
  truthy_opt_string (previewUrl v)
  && showBbox v
  && opt_string_eqb (loadedImageUrl v) (previewUrl v).

(** Block overlays for the structure format: one entry per block, in order. *)
Definition structureOverlays (v : ResultView) : list (option OverlayStyle) :=
  if overlaysEnabled v && negb (isV5Format v)
     && match resultImageRef v with Some _ => true | None => false end
  then map (structureOverlay v) (blocks v)
  else [].

Definition bboxIsZero (b : BBox) : bool :=
  let '(x1, y1, x2, y2) := b in
  Qeq_bool x1 0 && Qeq_bool y1 0 && Qeq_bool x2 0 && Qeq_bool y2 0.

Section WithV5Bbox.

(** [getV5Bbox] is imported from [types/ocr.ts]; the overlay code only uses
    the four numbers it returns for an index. *)
Variable getV5Bbox : OcrResultData -> nat -> BBox.

(** The callback of [v5Data.rec_texts.map] for the PP-OCRv5 format. *)
Definition v5Overlay (v : ResultView) (data : OcrResultData) (idx : nat)
  : option OverlayStyle :=
  let b := getV5Bbox data idx in
  if bboxIsZero b then None
  else
    match resultImageRef v with
    | None => None
    | Some imageEl =>
        if negb (truthy_num (naturalWidth imageEl))
           || negb (truthy_num (naturalHeight imageEl))
        then None
        else
          let scaleX := clientWidth imageEl / naturalWidth imageEl in
          let scaleY := clientHeight imageEl / naturalHeight imageEl in
          Some (mkStyle b scaleX scaleY)
    end.

(** Block overlays for the PP-OCRv5 format: one entry per recognised text. *)
Definition v5Overlays (v : ResultView) : list (option OverlayStyle) :=
  if overlaysEnabled v && isV5Format v
  then
    match v5Data v, resultImageRef v with
    | Some data, Some _ =>
        match rec_texts data with
        | Some texts => map (v5Overlay v data) (seq 0%nat (length texts))
        | None => []
        end
    | _, _ => []
    end
  else [].

End WithV5Bbox.

(** Modelled from the spec: [getV5Bbox] of [types/ocr.ts] is not among the
    sources. A flat-recognition payload carries parallel arrays of texts and
    boxes; an item with no detection available has the all-zero box. *)
Definition getV5Bbox_model (data : OcrResultData) (idx : nat) : BBox :=
  match rec_boxes data with
  | Some boxes =>
      match nth_error boxes idx with
      | Some [x1; y1; x2; y2] => (x1, y1, x2, y2)
      | _ => (0, 0, 0, 0)
      end
  | None => (0, 0, 0, 0)
  end.

(** React renders nothing for a [null] entry: the rectangles on screen. *)
Definition rendered (l : list (option OverlayStyle)) : list OverlayStyle :=
  omap id l.

(** A bbox that is exactly [(0,0,0,0)]. *)
Definition bboxAllZero (b : BBox) : Prop :=
  let '(x1, y1, x2, y2) := b in x1 == 0 /\ y1 == 0 /\ x2 == 0 /\ y2 == 0.

(** The rectangle the geometry mapper promises for a bbox. *)
Definition mappedRect (b : BBox) (scaleX scaleY : Q) (st : OverlayStyle) : Prop :=
  let '(x1, y1, x2, y2) := b in
  style_left st = x1 * scaleX /\ style_top st = y1 * scaleY /\
  style_width st = (x2 - x1) * scaleX /\ style_height st = (y2 - y1) * scaleY.

(** Sample data: an image shown at half its size, a flat-recognition payload
    with texts A and B where B has no box, and a structured payload whose
    only block has the all-zero box. *)
Definition halfSizeImage : HTMLImageElement :=
  {| clientWidth := 50; clientHeight := 40; naturalWidth := 100; naturalHeight := 80 |}.

Definition flatPayload : OcrResultData :=
  {| rec_texts := Some [js "A"; js "B"];
     rec_boxes := Some [[0; 0; 10; 10]; [0; 0; 0; 0]];
     rec_scores := Some [1; 1];
     width := None; height := None; parsing_res_list := None |}.

Definition zeroBlock : OcrBlock :=
  {| block_label := "text"%string; block_content := js "B"; block_bbox := (0, 0, 0, 0);
     block_id := 0%Z; block_order := None; group_id := 0%Z |}.

Definition boxedBlock : OcrBlock :=
  {| block_label := "text"%string; block_content := js "A"; block_bbox := (10, 20, 30, 60);
     block_id := 1%Z; block_order := None; group_id := 0%Z |}.

Definition structuredPayload (l : list OcrBlock) : OcrResultData :=
  {| rec_texts := None; rec_boxes := None; rec_scores := None;
     width := Some 100; height := Some 80; parsing_res_list := Some l |}.

Definition loadedView (data : OcrResultData) : ResultView :=
  {| showBbox := true; previewUrl := Some "blob:page"%string;
     loadedImageUrl := Some "blob:page"%string;
     resultImageRef := Some halfSizeImage; resultData := data |}.

End Overlay.

(** ** The job list of [AppLayout] *)

Module JobList.
Import Types.

Inductive OcrModel := pp_ocrv5 | pp_structurev3 | paddleocr_vl.

Inductive JobStatus := processing | completed | failed.

Definition JobStatus_eqb (a b : JobStatus) : bool :=
  match a, b with
  | processing, processing | completed, completed | failed, failed => true
  | _, _ => false
  end.

(** An element of [results]: [{ res?: OcrResultData } | OcrResultData].
    [entry_res] is its [res] property and [entry_self] the element read as
    page data, which is what [pageResult as OcrResultData] does. *)
Record ResultsEntry := {
  entry_res : option OcrResultData;
  entry_self : OcrResultData
}.

(** [job.result] as [getResultData] reads it:
    [{ res?: OcrResultData; results?: Array<...> }]. *)
Record OcrResult := {
  res : option OcrResultData;
  results : option (list ResultsEntry)
}.

(** The option set of a model: the language and the enabled switches. *)
Record ModelOptions := {
  lang : string;
  switches : list (string * bool)
}.

Record OcrJob := {
  id : string;
  filename : string;
  model : OcrModel;
  modelOptions : ModelOptions;
  status : JobStatus;
  createdAt : Z;
  s3Key : option string;
  imageAvailable : option bool;
  result : option OcrResult;
  processingTimeMs : option Z
}.

(** [Partial<OcrJob>], for the properties the page ever updates. The outer
    [option] is "the key is present"; [result] and [processingTimeMs] may be
    present with the value [undefined], which the spread copies too. *)
Record JobUpdates := {
  u_status : option JobStatus;
  u_result : option (option OcrResult);
  u_processingTimeMs : option (option Z);
  u_s3Key : option string;
  u_imageAvailable : option bool
}.

Definition noUpdates : JobUpdates :=
  {| u_status := None; u_result := None; u_processingTimeMs := None;
     u_s3Key := None; u_imageAvailable := None |}.

Definition override {A} (u : option A) (old : A) : A :=
  match u with Some x => x | None => old end.

(** [{ ...job, ...updates }] *)
Definition applyUpdates (job : OcrJob) (updates : JobUpdates) : OcrJob :=
  {| id := id job;
     filename := filename job;
     model := model job;
     modelOptions := modelOptions job;
     status := override (u_status updates) (status job);
     createdAt := createdAt job;
     s3Key := match u_s3Key updates with Some k => Some k | None => s3Key job end;
     imageAvailable :=
       match u_imageAvailable updates with Some a => Some a | None => imageAvailable job end;
     result := override (u_result updates) (result job);
     processingTimeMs := override (u_processingTimeMs updates) (processingTimeMs job) |}.

(** [{ ...job, id: newId }] *)
Definition withId (job : OcrJob) (newId : string) : OcrJob :=
  {| id := newId;
     filename := filename job;
     model := model job;
     modelOptions := modelOptions job;
     status := status job;
     createdAt := createdAt job;
     s3Key := s3Key job;
     imageAvailable := imageAvailable job;
     result := result job;
     processingTimeMs := processingTimeMs job |}.

(** [setJobsState((prev) => [job, ...prev])] *)
Definition addJob (job : OcrJob) (prev : list OcrJob) : list OcrJob :=
  job :: prev.

(** [prev.map((job) => (job.id === id ? { ...job, ...updates } : job))] *)
Definition updateJob (i : string) (updates : JobUpdates) (prev : list OcrJob)
  : list OcrJob :=
  map (fun job => if String.eqb (id job) i then applyUpdates job updates else job) prev.

(** [prev.map((job) => (job.id === oldId ? { ...job, id: newId } : job))] *)
Definition replaceJobId (oldId newId : string) (prev : list OcrJob) : list OcrJob :=
  map (fun job => if String.eqb (id job) oldId then withId job newId else job) prev.

(** One entry of the job-listing response. *)
Record ListedJob := {
  l_id : string;
  l_filename : string;
  l_s3Key : string;
  l_createdAt : Z;
  l_model : OcrModel;
  l_modelOptions : ModelOptions;
  l_status : JobStatus
}.

(** The conversion in [fetchJobs]: the listing carries no result. *)
Definition fetchedJob (job : ListedJob) : OcrJob :=
  {| id := l_id job;
     filename := l_filename job;
     model := l_model job;
     modelOptions := l_modelOptions job;
     status := l_status job;
     createdAt := l_createdAt job;
     s3Key := Some (l_s3Key job);
     imageAvailable := Some true;
     result := None;
     processingTimeMs := None |}.

(** [setJobs(fetchedJobs)]: the list is replaced wholesale. *)
Definition setJobs (listing : list ListedJob) (prev : list OcrJob) : list OcrJob :=
  map fetchedJob listing.

(** [jobs.find((j) => j.id === wanted)], where [wanted] may be null. *)
Definition findJob (jobs : list OcrJob) (wanted : option string) : option OcrJob :=
  match wanted with
  | Some i => List.find (fun j => String.eqb (id j) i) jobs
  | None => None
  end.

End JobList.

(** ** [getResultData]: the page result inside the response envelope *)

Module Envelope.
Import Types JobList.

(** The three ways [getResultData] looks for the job. *)
Definition resolveJob (jobs : list OcrJob) (currentJobId processingJobId : option string)
  : option OcrJob :=
  let job := findJob jobs currentJobId in
  let job :=
    match job with
    | None => if truthy_opt_string processingJobId then findJob jobs processingJobId else job
    | Some _ => job
    end in
  match job with
  | None => if truthy_opt_string currentJobId then findJob jobs currentJobId else job
  | Some _ => job
  end.

(** [arr[i]] for a number [i]: [undefined] outside the array. *)
Definition arrayAt {A} (arr : list A) (i : Z) : option A :=
  if (0 <=? i)%Z then nth_error arr (Z.to_nat i) else None.

(** The body of [getResultData] once the job's result is at hand. *)
Definition resultDataOf (r : OcrResult) (currentPdfPage : Z) : option OcrResultData :=
  match res r with
  | Some d => Some d
  | None =>
      let pageIndex := (currentPdfPage - 1)%Z in
      match results r with
      | Some (first :: rest) =>
          let arr := first :: rest in
          let pageResult :=
            match arrayAt arr pageIndex with
            | Some e => e
            | None => first
            end in
          match entry_res pageResult with
          | Some d => Some d
          | None => Some (entry_self pageResult)
          end
      | _ => None
      end
  end.

Definition getResultData (jobs : list OcrJob) (currentJobId processingJobId : option string)
  (currentPdfPage : Z) : option OcrResultData :=
  match resolveJob jobs currentJobId processingJobId with
  | None => None
  | Some job =>
      match result job with
      | None => None
      | Some r => resultDataOf r currentPdfPage
      end
  end.

(** An element of [results] unwrapped via its [res] key when present, used
    directly otherwise. *)
Definition unwrap (e : ResultsEntry) : OcrResultData :=
  match entry_res e with Some d => d | None => entry_self e end.

(** Sample data: a page result recognisable by its width, an object that has
    none of the known properties, and a completed job with a result. *)
Definition pageData (w : Q) : OcrResultData :=
  {| rec_texts := None; rec_boxes := None; rec_scores := None;
     width := Some w; height := Some w; parsing_res_list := Some [] |}.

Definition emptyObject : OcrResultData :=
  {| rec_texts := None; rec_boxes := None; rec_scores := None;
     width := None; height := None; parsing_res_list := None |}.

Definition wrapped (d : OcrResultData) : ResultsEntry :=
  {| entry_res := Some d; entry_self := emptyObject |}.

Definition direct (d : OcrResultData) : ResultsEntry :=
  {| entry_res := None; entry_self := d |}.

Definition completedJob (i : string) (r : option OcrResult) : OcrJob :=
  {| id := i; filename := "scan.pdf"%string; model := pp_structurev3;
     modelOptions := {| lang := EmptyString; switches := [] |};
     status := completed; createdAt := 0; s3Key := Some "uploads/scan.pdf"%string;
     imageAvailable := Some true; result := r; processingTimeMs := None |}.

Definition twoPages : OcrResult :=
  {| res := None; results := Some [wrapped (pageData 1); direct (pageData 2)] |}.

End Envelope.

(** ** [renderBlocksView]: lines of a group handed to its empty blocks *)

Module Blocks.
Import Types.
Local Open Scope nat_scope.

(** The code units [String.prototype.trim] removes: white space and line
    terminators. *)
Definition isWhiteSpace (c : N) : bool :=
  existsb (N.eqb c)
    [9; 10; 11; 12; 13; 32; 160; 5760; 8232; 8233; 8239; 8287; 12288; 65279]%N
  || ((8192 <=? c)%N && (c <=? 8202)%N).

Fixpoint trimStart (s : jsstring) : jsstring :=
  match s with
  | c :: s' => if isWhiteSpace c then trimStart s' else s
  | [] => []
  end.

Definition trim (s : jsstring) : jsstring :=
  rev (trimStart (rev (trimStart s))).

(** Truthiness of a string: [''] is the only falsy one. *)
Definition truthy_str (s : jsstring) : bool :=
  match s with [] => false | _ :: _ => true end.

Definition LF : N := 10%N.

(** [s.split('\n')] *)
Fixpoint split (sep : N) (s : jsstring) : list jsstring :=
  match s with
  | [] => [[]]
  | c :: s' =>
      if N.eqb c sep then [] :: split sep s'
      else
        match split sep s' with
        | l :: ls => (c :: l) :: ls
        | [] => [[c]]
        end
  end.

(** [block.block_content && block.block_content.trim() !== ''] *)
Definition hasContent (b : OcrBlock) : bool :=
  truthy_str (block_content b) && truthy_str (trim (block_content b)).

(** [!block.block_content || block.block_content.trim() === ''] *)
Definition isEmptyBlock (b : OcrBlock) : bool :=
  negb (truthy_str (block_content b)) || negb (truthy_str (trim (block_content b))).

(** [{ ...block, block_content: c }] *)
Definition withContent (b : OcrBlock) (c : jsstring) : OcrBlock :=
  {| block_label := block_label b;
     block_content := c;
     block_bbox := block_bbox b;
     block_id := block_id b;
     block_order := block_order b;
     group_id := group_id b |}.

(** A [Map<number, number[]>] in insertion order. [groupMapPush] is the body
    of the first [forEach]: create the entry if needed, then push the index. *)
Fixpoint groupMapPush (groupMap : list (Z * list nat)) (groupId : Z) (idx : nat)
  : list (Z * list nat) :=
  match groupMap with
  | [] => [(groupId, [idx])]
  | (g, indices) :: rest =>
      if Z.eqb g groupId then (g, indices ++ [idx]) :: rest
      else (g, indices) :: groupMapPush rest groupId idx
  end.

(** [blocks.forEach((block, idx) => ...)], [idx] counting from [idx0]. *)
Fixpoint buildGroupMap (blocks : list OcrBlock) (idx0 : nat) (groupMap : list (Z * list nat))
  : list (Z * list nat) :=
  match blocks with
  | [] => groupMap
  | block :: rest => buildGroupMap rest (S idx0) (groupMapPush groupMap (group_id block) idx0)
  end.

Definition noBlock : OcrBlock :=
  {| block_label := EmptyString; block_content := []; block_bbox := (0, 0, 0, 0)%Q;
     block_id := 0%Z; block_order := None; group_id := 0%Z |}.

(** [processedBlocks[idx]]. Every index the loops use comes from the
    enumeration of [blocks], so it is in range ([buildGroupMap_in_range]) and
    the default is never read. *)
Definition blockAt (processedBlocks : list OcrBlock) (idx : nat) : OcrBlock :=
  nth idx processedBlocks noBlock.

(** [lines.slice(1).forEach((line, i) => ...)], [i] counting from [i0]. *)
Fixpoint distributeLines (emptyIndices : list nat) (rest : list jsstring) (i0 : nat)
  (processedBlocks : list OcrBlock) : list OcrBlock :=
  match rest with
  | [] => processedBlocks
  | line :: rest' =>
      let processedBlocks' :=
        if i0 <? length emptyIndices then
          let target := nth i0 emptyIndices 0 in
          <[target := withContent (blockAt processedBlocks target) line]> processedBlocks
        else processedBlocks in
      distributeLines emptyIndices rest' (S i0) processedBlocks'
  end.

(** [content.split('\n').filter((l) => l.trim())] *)
Definition contentLines (content : jsstring) : list jsstring :=
  List.filter (fun l => truthy_str (trim l)) (split LF content).

(** The body of [groupMap.forEach((indices) => ...)]. *)
Definition processGroup (processedBlocks : list OcrBlock) (indices : list nat)
  : list OcrBlock :=
  if length indices <=? 1 then processedBlocks
  else
    match List.find (fun idx => hasContent (blockAt processedBlocks idx)) indices with
    | None => processedBlocks
    | Some blockWithContent =>
        let contentBlock := blockAt processedBlocks blockWithContent in
        let lines := contentLines (block_content contentBlock) in
        if 1 <? length lines then
          let emptyIndices :=
            List.filter
              (fun idx => negb (idx =? blockWithContent)
                          && isEmptyBlock (blockAt processedBlocks idx))
              indices in
          if 0 <? length emptyIndices then
            distributeLines emptyIndices (tl lines) 0
              (<[blockWithContent := withContent contentBlock (nth 0 lines [])]>
                 processedBlocks)
          else processedBlocks
        else processedBlocks
    end.

(** [processedBlocks] after the loop over the groups. *)
Definition redistribute (blocks : list OcrBlock) : list OcrBlock :=
  fold_left processGroup (map snd (buildGroupMap blocks 0 [])) blocks.

Definition visualBlockTypes : list string :=
  ["image"; "picture"; "figure"; "chart"; "seal"; "stamp"]%string.

(** [filteredBlocks]: blocks with content, and visual blocks even without. *)
Definition filteredBlocks (blocks : list OcrBlock) : list OcrBlock :=
  List.filter
    (fun block => hasContent block
                  || existsb (String.eqb (block_label block)) visualBlockTypes)
    (redistribute blocks).

(** The indices of the blocks of a group, in document order. *)
Definition groupIndices (blocks : list OcrBlock) (g : Z) : list nat :=
  List.filter (fun idx => Z.eqb (group_id (blockAt blocks idx)) g) (seq 0 (length blocks)).

(** The first block of the group that has content. *)
Definition firstPopulated (blocks : list OcrBlock) (g : Z) : option nat :=
  List.find (fun idx => hasContent (blockAt blocks idx)) (groupIndices blocks g).

(** The empty blocks of the group other than [p], in document order. *)
Definition emptySiblings (blocks : list OcrBlock) (g : Z) (p : nat) : list nat :=
  List.filter (fun idx => negb (idx =? p) && isEmptyBlock (blockAt blocks idx))
    (groupIndices blocks g).

(** A text block of the given group. *)
Definition textBlock (i : Z) (g : Z) (content : jsstring) : OcrBlock :=
  {| block_label := "text"%string; block_content := content;
     block_bbox := (0, 0, 10, 10)%Q; block_id := i; block_order := None;
     group_id := g |}.

Definition twoLineGroup : list OcrBlock :=
  [textBlock 0 1 (js "line1" ++ [LF] ++ js "line2"); textBlock 1 1 []].

Definition leadingEmptyGroup : list OcrBlock :=
  [textBlock 0 1 []; textBlock 1 1 (js "a" ++ [LF] ++ js "b"); textBlock 2 1 []].

End Blocks.

(** ** [renderPdfToImage]: one page of a PDF as an image *)

Module Pdf.

(** What pdf.js and the canvas answer for one document: whether a page can be
    fetched and rendered, whether a 2D context is available, and the image a
    rendered page encodes to. *)
Record PdfDocument := {
  numPages : Z;
  getPageOk : Z -> bool;
  contextAvailable : bool;
  renderOk : Z -> bool;
  pageDataUrl : Z -> string
}.

(** The calls made on the document. *)
Inductive PdfCall :=
| GetDocument
| GetPage (pageNum : Z)
| Render (pageNum : Z).

Record PdfImage := {
  dataUrl : option string;
  totalPages : Z
}.

(** [Math.max(1, Math.min(pageNumber, totalPages))] *)
Definition validPageNum (pageNumber totalPages : Z) : Z :=
  Z.max 1 (Z.min pageNumber totalPages).

(** [loaded] is [None] when [getDocument] rejects. Every exception ends in the
    [catch], which returns [{ dataUrl: null, totalPages: 0 }]. *)
Definition renderPdfToImage (loaded : option PdfDocument) (pageNumber : Z)
  : PdfImage * list PdfCall :=
  match loaded with
  | None => ({| dataUrl := None; totalPages := 0 |}, [GetDocument])
  | Some pdf =>
      let totalPages := numPages pdf in
      let validPageNum := validPageNum pageNumber totalPages in
      if negb (getPageOk pdf validPageNum) then
        ({| dataUrl := None; totalPages := 0 |}, [GetDocument; GetPage validPageNum])
      else if negb (contextAvailable pdf) then
        ({| dataUrl := None; totalPages := totalPages |},
         [GetDocument; GetPage validPageNum])
      else if negb (renderOk pdf validPageNum) then
        ({| dataUrl := None; totalPages := 0 |},
         [GetDocument; GetPage validPageNum; Render validPageNum])
      else
        ({| dataUrl := Some (pageDataUrl pdf validPageNum); totalPages := totalPages |},
         [GetDocument; GetPage validPageNum; Render validPageNum])
  end.

(** A three-page document that renders, and one whose rendering throws. *)
Definition goodPdf : PdfDocument :=
  {| numPages := 3; getPageOk := fun _ => true; contextAvailable := true;
     renderOk := fun _ => true;
     pageDataUrl := fun n => if (n =? 1)%Z then "data:page1"%string
                             else if (n =? 2)%Z then "data:page2"%string
                             else "data:page3"%string |}.

Definition brokenPdf : PdfDocument :=
  {| numPages := 3; getPageOk := fun _ => true; contextAvailable := true;
     renderOk := fun _ => false; pageDataUrl := fun _ => "data:page"%string |}.

End Pdf.

(** ** The page component: file selection, submission and polling *)

Module Page.
Import Types JobList.

Inductive Step := step_upload | step_options | step_result.

Record ImageData := {
  base64 : string;
  img_filename : string
}.

(** A callback registered with [setTimeout(() => pollJobStatus(jobId), delay)]
    that has neither fired nor been cleared. *)
Record Timer := {
  timer_id : nat;
  timer_job : string;
  timer_delay : Z
}.

(** What the user has selected and sees. *)
Record FileState := {
  step : Step;
  imageData : option ImageData;
  previewUrl : option string;
  currentPdfPage : Z;
  totalPdfPages : Z;
  pdfArrayBufferRef : bool
}.

(** The state of the component and of its context ([jobs], [currentJobId]),
    followed by what the browser holds for it: the pending timers and the
    status requests whose response has not arrived. *)
Record PageState := {
  apiUrl : option string;
  mounted : bool;
  files : FileState;
  jobs : list OcrJob;
  currentJobId : option string;
  selectedModel : OcrModel;
  modelOptions : ModelOptions;
  isProcessing : bool;
  processingJobId : option string;
  pollTimeoutRef : option nat;
  jobStartTimeRef : option Z;
  timers : list Timer;
  nextTimer : nat;
  inflight : list string
}.

(** What the component does to the outside. *)
Inductive Effect :=
| Alert (message : string)
| PostUpload (name : string)
| PutObject (url : string)
| PostOcr (key : string)
| GetStatus (jobId : string)
| SetTimeout (jobId : string) (delay : Z)
| ClearTimeout (timerId : nat)
| GetJobs
| ReadArrayBuffer
| ReadDataURL
| RenderPdfPage (pageNumber : Z).

(** The outcome of [await fetch(...)] followed by [response.json()]: the
    promise rejects, the response is not [ok], or the body is at hand. *)
Inductive Fetched (A : Type) :=
| Rejected
| NotOk
| OkJson (body : A).
Arguments Rejected {A}.
Arguments NotOk {A}.
Arguments OkJson {A} body.

Definition defaultOptions : ModelOptions := {| lang := EmptyString; switches := [] |}.

Definition initialFiles : FileState :=
  {| step := step_upload; imageData := None; previewUrl := None;
     currentPdfPage := 1; totalPdfPages := 1; pdfArrayBufferRef := false |}.

Definition initialState (api : option string) : PageState :=
  {| apiUrl := api; mounted := true; files := initialFiles; jobs := [];
     currentJobId := None; selectedModel := paddleocr_vl;
     modelOptions := defaultOptions; isProcessing := false; processingJobId := None;
     pollTimeoutRef := None; jobStartTimeRef := None; timers := []; nextTimer := 1%nat;
     inflight := [] |}.

(** Setters for the groups of state that change together. *)
Definition withFiles (s : PageState) (f : FileState) : PageState :=
  {| apiUrl := apiUrl s; mounted := mounted s; files := f; jobs := jobs s;
     currentJobId := currentJobId s; selectedModel := selectedModel s;
     modelOptions := modelOptions s; isProcessing := isProcessing s;
     processingJobId := processingJobId s; pollTimeoutRef := pollTimeoutRef s;
     jobStartTimeRef := jobStartTimeRef s; timers := timers s;
     nextTimer := nextTimer s; inflight := inflight s |}.

Definition withJobs (s : PageState) (js : list OcrJob) (cur : option string) : PageState :=
  {| apiUrl := apiUrl s; mounted := mounted s; files := files s; jobs := js;
     currentJobId := cur; selectedModel := selectedModel s;
     modelOptions := modelOptions s; isProcessing := isProcessing s;
     processingJobId := processingJobId s; pollTimeoutRef := pollTimeoutRef s;
     jobStartTimeRef := jobStartTimeRef s; timers := timers s;
     nextTimer := nextTimer s; inflight := inflight s |}.

Definition withProcessing (s : PageState) (busy : bool) (pid : option string)
  (start : option Z) : PageState :=
  {| apiUrl := apiUrl s; mounted := mounted s; files := files s; jobs := jobs s;
     currentJobId := currentJobId s; selectedModel := selectedModel s;
     modelOptions := modelOptions s; isProcessing := busy;
     processingJobId := pid; pollTimeoutRef := pollTimeoutRef s;
     jobStartTimeRef := start; timers := timers s;
     nextTimer := nextTimer s; inflight := inflight s |}.

Definition withBrowser (s : PageState) (ref : option nat) (ts : list Timer)
  (next : nat) (reqs : list string) : PageState :=
  {| apiUrl := apiUrl s; mounted := mounted s; files := files s; jobs := jobs s;
     currentJobId := currentJobId s; selectedModel := selectedModel s;
     modelOptions := modelOptions s; isProcessing := isProcessing s;
     processingJobId := processingJobId s; pollTimeoutRef := ref;
     jobStartTimeRef := jobStartTimeRef s; timers := ts;
     nextTimer := next; inflight := reqs |}.

Definition withMounted (s : PageState) (m : bool) : PageState :=
  {| apiUrl := apiUrl s; mounted := m; files := files s; jobs := jobs s;
     currentJobId := currentJobId s; selectedModel := selectedModel s;
     modelOptions := modelOptions s; isProcessing := isProcessing s;
     processingJobId := processingJobId s; pollTimeoutRef := pollTimeoutRef s;
     jobStartTimeRef := jobStartTimeRef s; timers := timers s;
     nextTimer := nextTimer s; inflight := inflight s |}.

Definition withStep (f : FileState) (st : Step) : FileState :=
  {| step := st; imageData := imageData f; previewUrl := previewUrl f;
     currentPdfPage := currentPdfPage f; totalPdfPages := totalPdfPages f;
     pdfArrayBufferRef := pdfArrayBufferRef f |}.

Definition withPdfBuffer (f : FileState) : FileState :=
  {| step := step f; imageData := imageData f; previewUrl := previewUrl f;
     currentPdfPage := currentPdfPage f; totalPdfPages := totalPdfPages f;
     pdfArrayBufferRef := true |}.

(** *** File selection *)

Record File := {
  size : Z;
  type : string;
  name : string
}.

(** [100 * 1024 * 1024] *)
Definition MAX_FILE_SIZE : Z := 100 * 1024 * 1024.

(** What reading the file gives: the bytes as base64 ([None] when
    [arrayBuffer()] rejects), the parsed PDF ([None] when it cannot be
    loaded), and the data URL of an image with its base64 part. *)
Record FileContent := {
  fileBase64 : option string;
  filePdf : option Pdf.PdfDocument;
  fileDataUrl : string;
  fileDataBase64 : string
}.

(** [(size / 1024 / 1024).toFixed(1)] for a file size: the two divisions by
    a power of two are exact, and [toFixed(1)] takes the integer [n] nearest
    to ten times the value, the larger one on a tie, and writes it with one
    digit after the point. *)
Definition megabytesToFixed1 (size : Z) : string :=
  let n := ((10 * size + 524288) / 1048576)%Z in
  (DecimalString.NilZero.string_of_int (Z.to_int (n / 10)) ++ "."
   ++ DecimalString.NilZero.string_of_int (Z.to_int (n mod 10)))%string.

(** [`File is too large (${...}MB). Maximum size is 100MB.`] *)
Definition tooLargeMessage (size : Z) : string :=
  ("File is too large (" ++ megabytesToFixed1 size ++ "MB). Maximum size is 100MB.")%string.

Definition handleFileSelect (file : File) (content : FileContent) (s : PageState)
  : PageState * list Effect :=
  if (size file >? MAX_FILE_SIZE)%Z then
    (s, [Alert (tooLargeMessage (size file))])
  else if String.eqb (type file) "application/pdf" then
    match fileBase64 content with
    | None => (s, [ReadArrayBuffer; Alert "Failed to process PDF file"])
    | Some b64 =>
        let rendered := fst (Pdf.renderPdfToImage (filePdf content) 1) in
        if truthy_opt_string (Pdf.dataUrl rendered) then
          (withFiles s
             {| step := step_options;
                imageData := Some {| base64 := b64; img_filename := name file |};
                previewUrl := Pdf.dataUrl rendered;
                currentPdfPage := 1;
                totalPdfPages := Pdf.totalPages rendered;
                pdfArrayBufferRef := true |},
           [ReadArrayBuffer; RenderPdfPage 1])
        else
          (withFiles s (withPdfBuffer (files s)),
           [ReadArrayBuffer; RenderPdfPage 1; Alert "Failed to render PDF preview"])
    end
  else
    (withFiles s
       {| step := step_options;
          imageData :=
            Some {| base64 := fileDataBase64 content; img_filename := name file |};
          previewUrl := Some (fileDataUrl content);
          currentPdfPage := currentPdfPage (files s);
          totalPdfPages := totalPdfPages (files s);
          pdfArrayBufferRef := pdfArrayBufferRef (files s) |},
     [ReadDataURL]).

(** *** Polling: [pollJobStatus] *)

(** [data.status] as the branches see it. *)
Inductive ReportedStatus := reported_completed | reported_failed | reported_other.

Record StatusData := {
  data_status : ReportedStatus;
  data_result : option OcrResult;
  data_error : option string
}.

(** [pollTimeoutRef.current = setTimeout(() => pollJobStatus(jobId), delay)] *)
Definition scheduleTimer (jobId : string) (delay : Z) (s : PageState)
  : PageState * list Effect :=
  (withBrowser s (Some (nextTimer s))
     (timers s ++ [{| timer_id := nextTimer s; timer_job := jobId; timer_delay := delay |}])
     (S (nextTimer s)) (inflight s),
   [SetTimeout jobId delay]).

(** [pollJobStatus(jobId)] up to its [await fetch]: nothing without an API
    URL, otherwise the status request is sent. *)
Definition pollJobStatus_call (jobId : string) (s : PageState) : PageState * list Effect :=
  if truthy_opt_string (apiUrl s) then
    (withBrowser s (pollTimeoutRef s) (timers s) (nextTimer s) (inflight s ++ [jobId]),
     [GetStatus jobId])
  else (s, []).

Fixpoint removeFirst (jobId : string) (reqs : list string) : list string :=
  match reqs with
  | [] => []
  | r :: rest => if String.eqb r jobId then rest else r :: removeFirst jobId rest
  end.

Definition completedUpdates (r : option OcrResult) (t : option Z) : JobUpdates :=
  {| u_status := Some completed; u_result := Some r; u_processingTimeMs := Some t;
     u_s3Key := None; u_imageAvailable := None |}.

Definition failedUpdates : JobUpdates :=
  {| u_status := Some failed; u_result := None; u_processingTimeMs := None;
     u_s3Key := None; u_imageAvailable := None |}.

(** [jobStartTimeRef.current ? Date.now() - jobStartTimeRef.current : undefined] *)
Definition elapsed (start : option Z) (now : Z) : option Z :=
  match start with
  | Some t => if (t =? 0)%Z then None else Some (now - t)%Z
  | None => None
  end.

(** [pollJobStatus(jobId)] from the arrival of the response on. *)
Definition pollJobStatus_resume (jobId : string) (response : Fetched StatusData) (now : Z)
  (s : PageState) : PageState * list Effect :=
  let s := withBrowser s (pollTimeoutRef s) (timers s) (nextTimer s)
             (removeFirst jobId (inflight s)) in
  match response with
  | OkJson data =>
      match data_status data with
      | reported_completed =>
          let processingTimeMs := elapsed (jobStartTimeRef s) now in
          let s := withJobs s
                     (updateJob jobId (completedUpdates (data_result data) processingTimeMs)
                        (jobs s))
                     (currentJobId s) in
          let s := withProcessing s false None None in
          (withFiles s (withStep (files s) step_result), [])
      | reported_failed =>
          let s := withJobs s (updateJob jobId failedUpdates (jobs s)) (currentJobId s) in
          (withProcessing s false None None,
           [Alert (match data_error data with
                   | Some e => if String.eqb e EmptyString then "Processing failed" else e
                   | None => "Processing failed"
                   end)])
      | reported_other => scheduleTimer jobId 3000 s
      end
  | _ => scheduleTimer jobId 5000 s
  end.

(** *** Submission: [handleSubmit] *)

Record SubmitEnv := {
  now : Z;
  uploadResponse : Fetched (string * string);
  s3UploadResponse : Fetched unit;
  ocrResponse : Fetched string
}.

(** [`job-${Date.now()}`] *)
Definition localJobId (now : Z) : string :=
  ("job-" ++ DecimalString.NilZero.string_of_int (Z.to_int now))%string.

(** The [catch] of [handleSubmit]. *)
Definition submitFailed (jobId : string) (s : PageState) (sent : list Effect)
  : PageState * list Effect :=
  let s := withJobs s (updateJob jobId failedUpdates (jobs s)) (currentJobId s) in
  (withProcessing s false (processingJobId s) (jobStartTimeRef s),
   sent ++ [Alert "Failed to submit OCR request. Please try again."]).

Definition s3KeyUpdates (key : string) : JobUpdates :=
  {| u_status := None; u_result := None; u_processingTimeMs := None;
     u_s3Key := Some key; u_imageAvailable := None |}.

Definition handleSubmit (env : SubmitEnv) (s : PageState) : PageState * list Effect :=
  match imageData (files s) with
  | None => (s, [])
  | Some image =>
      let s := withProcessing s true (processingJobId s) (Some (now env)) in
      let jobId := localJobId (now env) in
      if negb (truthy_opt_string (apiUrl s)) then submitFailed jobId s []
      else
        match uploadResponse env with
        | OkJson (upload_url, s3_key) =>
            match s3UploadResponse env with
            | OkJson _ =>
                let newJob :=
                  {| id := jobId; filename := img_filename image;
                     model := selectedModel s; JobList.modelOptions := modelOptions s;
                     status := processing; createdAt := now env; s3Key := Some s3_key;
                     imageAvailable := Some true; result := None;
                     processingTimeMs := None |} in
                let s := withJobs s (addJob newJob (jobs s)) (Some jobId) in
                let sent := [PostUpload (img_filename image); PutObject upload_url;
                             PostOcr s3_key] in
                match ocrResponse env with
                | OkJson backendJobId =>
                    let cur := match currentJobId s with
                               | Some c => if String.eqb c jobId then Some backendJobId
                                           else Some c
                               | None => None
                               end in
                    let s := withJobs s (replaceJobId jobId backendJobId (jobs s)) cur in
                    let s := withJobs s
                               (updateJob backendJobId (s3KeyUpdates s3_key) (jobs s))
                               (currentJobId s) in
                    let s := withProcessing s (isProcessing s) (Some backendJobId)
                               (jobStartTimeRef s) in
                    let '(s, polled) := pollJobStatus_call backendJobId s in
                    (s, sent ++ polled)
                | _ => submitFailed jobId s sent
                end
            | _ =>
                submitFailed jobId s [PostUpload (img_filename image); PutObject upload_url]
            end
        | _ => submitFailed jobId s [PostUpload (img_filename image)]
        end
  end.

(** *** The component as a machine driven by the user and the browser *)

Inductive Event :=
| SelectFile (file : File) (content : FileContent)
| Submit (env : SubmitEnv)
| PollResponse (jobId : string) (response : Fetched StatusData) (now : Z)
| TimerFires (timerId : nat)
| JobsFetched (response : Fetched (list ListedJob))
| Unmount.

Definition findTimer (timerId : nat) (ts : list Timer) : option Timer :=
  List.find (fun t => Nat.eqb (timer_id t) timerId) ts.

Definition dropTimer (timerId : nat) (ts : list Timer) : list Timer :=
  List.filter (fun t => negb (Nat.eqb (timer_id t) timerId)) ts.

(** The cleanup of the polling effect: [clearTimeout(pollTimeoutRef.current)]. *)
Definition unmount (s : PageState) : PageState * list Effect :=
  let s := withMounted s false in
  match pollTimeoutRef s with
  | Some timerId =>
      if Nat.eqb timerId 0 then (s, [])
      else (withBrowser s None (dropTimer timerId (timers s)) (nextTimer s) (inflight s),
            [ClearTimeout timerId])
  | None => (s, [])
  end.

(** [fetchJobs] once the listing has arrived. *)
Definition jobsFetched (response : Fetched (list ListedJob)) (s : PageState)
  : PageState * list Effect :=
  match response with
  | OkJson listing => (withJobs s (setJobs listing (jobs s)) (currentJobId s), [GetJobs])
  | _ => (s, [GetJobs])
  end.

(** One event. [None] when the event cannot happen in the state: the
    Process button is [disabled={isProcessing}] and is covered by the
    processing overlay, a response needs its request, a timer fires only while
    it is pending, and an unmounted component takes no user input.

    A submission is one event, which carries the answers of the three
    requests [handleSubmit] awaits: the states between these awaits, in which
    a listing can arrive or the component can be unmounted while the
    submission goes on, are not states of this machine. What is proved of
    [reachable] states is proved of the states between events; nothing here
    says that an unmounted page starts no poll. *)
Definition fire (e : Event) (s : PageState) : option (PageState * list Effect) :=
  match e with
  | SelectFile file content =>
      if mounted s && negb (isProcessing s) then Some (handleFileSelect file content s)
      else None
  | Submit env =>
      if mounted s && negb (isProcessing s) then Some (handleSubmit env s) else None
  | PollResponse jobId response now =>
      if existsb (String.eqb jobId) (inflight s)
      then Some (pollJobStatus_resume jobId response now s)
      else None
  | TimerFires timerId =>
      match findTimer timerId (timers s) with
      | Some t =>
          Some (pollJobStatus_call (timer_job t)
                  (withBrowser s (pollTimeoutRef s) (dropTimer timerId (timers s))
                     (nextTimer s) (inflight s)))
      | None => None
      end
  | JobsFetched response =>
      if mounted s then Some (jobsFetched response s) else None
  | Unmount => if mounted s then Some (unmount s) else None
  end.

Fixpoint run (events : list Event) (s : PageState) : option PageState :=
  match events with
  | [] => Some s
  | e :: rest =>
      match fire e s with
      | Some (s', _) => run rest s'
      | None => None
      end
  end.

(** The same run, with the effects issued along the way. *)
Fixpoint trace (events : list Event) (s : PageState) : option (PageState * list Effect) :=
  match events with
  | [] => Some (s, [])
  | e :: rest =>
      match fire e s with
      | Some (s', effects) =>
          match trace rest s' with
          | Some (s'', effects') => Some (s'', effects ++ effects')
          | None => None
          end
      | None => None
      end
  end.

(** The states the component can be in. *)
Definition reachable (s : PageState) : Prop :=
  exists api events, run events (initialState api) = Some s.

(** The pending timers that will poll the given job. *)
Definition timersFor (jobId : string) (s : PageState) : list Timer :=
  List.filter (fun t => String.eqb (timer_job t) jobId) (timers s).

(** A status request or a timer for the job. *)
Definition pollsJob (jobId : string) (e : Effect) : bool :=
  match e with
  | GetStatus j => String.eqb j jobId
  | SetTimeout j _ => String.eqb j jobId
  | _ => false
  end.

(** A submission that the server answers with the given job id. *)
Definition submitsJob (jobId : string) (e : Event) : bool :=
  match e with
  | Submit env =>
      match ocrResponse env with
      | OkJson backendJobId => String.eqb backendJobId jobId
      | _ => false
      end
  | _ => false
  end.

(** Sample data: a PNG that has been selected, a submission that goes
    through with the server's job id J, and one whose upload to the signed
    URL is refused. *)
Definition pngFile : File :=
  {| size := 2048; type := "image/png"; name := "scan.png" |}.

Definition hugeFile : File :=
  {| size := MAX_FILE_SIZE + 1; type := "image/png"; name := "huge.png" |}.

Definition pngContent : FileContent :=
  {| fileBase64 := None; filePdf := None;
     fileDataUrl := "data:image/png;base64,AAAA"; fileDataBase64 := "AAAA" |}.

Definition readyState : PageState :=
  fst (handleFileSelect pngFile pngContent (initialState (Some "https://api.example"%string))).

Definition submitOk : SubmitEnv :=
  {| now := 1000;
     uploadResponse := OkJson ("https://bucket.example/put"%string, "uploads/scan.png"%string);
     s3UploadResponse := OkJson tt;
     ocrResponse := OkJson "J"%string |}.

Definition uploadRefused : SubmitEnv :=
  {| now := 1000;
     uploadResponse := OkJson ("https://bucket.example/put"%string, "uploads/scan.png"%string);
     s3UploadResponse := NotOk;
     ocrResponse := OkJson "J"%string |}.

Definition stillProcessing : StatusData :=
  {| data_status := reported_other; data_result := None; data_error := None |}.

Definition reportsCompleted : StatusData :=
  {| data_status := reported_completed;
     data_result := Some {| res := None; results := Some [] |}; data_error := None |}.

(** After the submission: the first status request for J is in flight. *)
Definition pollingJ : PageState := fst (handleSubmit submitOk readyState).

(** After the submission and one "still processing" answer: a timer for J
    is pending. *)
Definition waitingForJ : PageState :=
  match run [Submit submitOk; PollResponse "J" (OkJson stillProcessing) 1500] readyState with
  | Some s => s
  | None => readyState
  end.

(** *** PDF page navigation: [handlePdfPageChange] *)


(** A PDF file and what reading it gives. *)
Definition pdfFile : File :=
  {| size := 4096; type := "application/pdf"; name := "report.pdf" |}.

Definition pdfContent (pdf : option Pdf.PdfDocument) : FileContent :=
  {| fileBase64 := Some "JVBERi0="%string; filePdf := pdf;
     fileDataUrl := EmptyString; fileDataBase64 := EmptyString |}.

Definition submitRejectedByApi : SubmitEnv :=
  {| now := 1000;
     uploadResponse := OkJson ("https://bucket.example/put"%string, "uploads/scan.png"%string);
     s3UploadResponse := OkJson tt;
     ocrResponse := NotOk |}.

End Page.

(** ** The [useOcrResult] hook: polling on an interval *)

Module PollHook.
Import Types.
Local Open Scope nat_scope.

Inductive HookStatus := idle | polling | hook_completed | hook_failed.

Inductive ReportedStatus := reported_completed | reported_failed | reported_other.

(** [OcrStatusResponse] *)
Record OcrStatusResponse := {
  resp_status : ReportedStatus;
  resp_error : option string
}.

(** The outcome of the status request: an exception (rejection or a response
    that is not [ok]) or the parsed body. *)
Inductive Polled :=
| PollError
| PollData (data : OcrStatusResponse).

(** An interval registered with [setInterval(pollStatus, pollingInterval)]
    and not yet cleared. *)
Record Interval := {
  interval_id : nat;
  interval_period : Z
}.

(** The state of the hook, then the intervals the browser still runs for it
    and the requests it has not answered. *)
Record HookState := {
  apiUrl : option string;
  status : HookStatus;
  result : option OcrStatusResponse;
  error : option string;
  intervalRef : option nat;
  retriesRef : nat;
  jobIdRef : option string;
  intervals : list Interval;
  nextInterval : nat;
  pending : list string
}.

Definition initialHook (api : option string) : HookState :=
  {| apiUrl := api; status := idle; result := None; error := None;
     intervalRef := None; retriesRef := 0; jobIdRef := None;
     intervals := []; nextInterval := 1; pending := [] |}.

Section WithOptions.

(** [const { pollingInterval = 3000, maxRetries = 60 } = options] *)
Variable pollingInterval : Z.
Variable maxRetries : nat.

Definition stopPolling (s : HookState) : HookState :=
  let cleared :=
    match intervalRef s with
    | Some i => if Nat.eqb i 0 then None else Some i
    | None => None
    end in
  {| apiUrl := apiUrl s; status := status s; result := result s; error := error s;
     intervalRef := match cleared with Some _ => None | None => intervalRef s end;
     retriesRef := 0;
     jobIdRef := None;
     intervals :=
       match cleared with
       | Some i => List.filter (fun t => negb (Nat.eqb (interval_id t) i)) (intervals s)
       | None => intervals s
       end;
     nextInterval := nextInterval s;
     pending := pending s |}.

Definition setOutcome (s : HookState) (st : HookStatus) (r : option OcrStatusResponse)
  (e : option string) : HookState :=
  {| apiUrl := apiUrl s; status := st; result := r; error := e;
     intervalRef := intervalRef s; retriesRef := retriesRef s; jobIdRef := jobIdRef s;
     intervals := intervals s; nextInterval := nextInterval s; pending := pending s |}.

Definition setRetries (s : HookState) (n : nat) : HookState :=
  {| apiUrl := apiUrl s; status := status s; result := result s; error := error s;
     intervalRef := intervalRef s; retriesRef := n; jobIdRef := jobIdRef s;
     intervals := intervals s; nextInterval := nextInterval s; pending := pending s |}.

Definition setPending (s : HookState) (p : list string) : HookState :=
  {| apiUrl := apiUrl s; status := status s; result := result s; error := error s;
     intervalRef := intervalRef s; retriesRef := retriesRef s; jobIdRef := jobIdRef s;
     intervals := intervals s; nextInterval := nextInterval s; pending := p |}.

(** [pollStatus] up to its [await fetch]. *)
Definition pollStatus_call (s : HookState) : HookState :=
  match jobIdRef s with
  | Some jobId =>
      if truthy_opt_string (Some jobId) && truthy_opt_string (apiUrl s)
      then setPending s (pending s ++ [jobId])
      else s
  | None => s
  end.

(** The retry count after a poll that did not end the job. *)
Definition countRetry (s : HookState) (message : string) : HookState :=
  let s := setRetries s (S (retriesRef s)) in
  if maxRetries <=? retriesRef s then
    stopPolling (setOutcome s hook_failed (result s) (Some message))
  else s.

(** [pollStatus] from the arrival of the response on. *)
Definition pollStatus_resume (response : Polled) (s : HookState) : HookState :=
  let s := setPending s (tl (pending s)) in
  match response with
  | PollData data =>
      match resp_status data with
      | reported_completed =>
          stopPolling (setOutcome s hook_completed (Some data) (error s))
      | reported_failed =>
          stopPolling
            (setOutcome s hook_failed (result s)
               (Some (match resp_error data with
                      | Some e => if String.eqb e EmptyString
                                  then "OCR processing failed"%string else e
                      | None => "OCR processing failed"%string
                      end)))
      | reported_other =>
          countRetry s "Polling timeout: OCR processing took too long"
      end
  | PollError => countRetry s "Failed to get OCR result after multiple attempts"
  end.

Definition startPolling (jobId : string) (s : HookState) : HookState :=
  let s := stopPolling s in
  let s :=
    {| apiUrl := apiUrl s; status := polling; result := None; error := None;
       intervalRef := intervalRef s; retriesRef := 0; jobIdRef := Some jobId;
       intervals := intervals s; nextInterval := nextInterval s; pending := pending s |} in
  let s := pollStatus_call s in
  {| apiUrl := apiUrl s; status := status s; result := result s; error := error s;
     intervalRef := Some (nextInterval s); retriesRef := retriesRef s;
     jobIdRef := jobIdRef s;
     intervals := intervals s ++ [{| interval_id := nextInterval s;
                                     interval_period := pollingInterval |}];
     nextInterval := S (nextInterval s); pending := pending s |}.

Inductive HookEvent :=
| StartPolling (jobId : string)
| StopPolling
| IntervalFires (intervalId : nat)
| Response (response : Polled)
| HookUnmount.

(** One event; [None] when it cannot happen: an interval fires only while
    it runs, and a response needs a request. *)
Definition hookFire (e : HookEvent) (s : HookState) : option HookState :=
  match e with
  | StartPolling jobId => Some (startPolling jobId s)
  | StopPolling => Some (stopPolling s)
  | IntervalFires i =>
      if existsb (fun t => Nat.eqb (interval_id t) i) (intervals s)
      then Some (pollStatus_call s) else None
  | Response response =>
      match pending s with
      | [] => None
      | _ :: _ => Some (pollStatus_resume response s)
      end
  | HookUnmount => Some (stopPolling s)
  end.

Fixpoint hookRun (events : list HookEvent) (s : HookState) : option HookState :=
  match events with
  | [] => Some s
  | e :: rest =>
      match hookFire e s with
      | Some s' => hookRun rest s'
      | None => None
      end
  end.

End WithOptions.

(** The hook polls the job on the interval, has counted [k] retries, and
    waits for the answer to its one pending request. *)
Definition inRound (pollingInterval : Z) (jobId : string) (intervalId k : nat)
  (h : HookState) : Prop :=
  status h = polling /\ retriesRef h = k
  /\ intervals h = [{| interval_id := intervalId; interval_period := pollingInterval |}]
  /\ intervalRef h = Some intervalId /\ jobIdRef h = Some jobId
  /\ pending h = [jobId] /\ error h = None
  /\ truthy_opt_string (apiUrl h) = true.

Definition stillProcessing : Polled :=
  PollData {| resp_status := reported_other; resp_error := None |}.

(** [n] rounds in which the pending request is answered "still processing"
    and the interval then fires again. *)
Fixpoint stillProcessingRounds (intervalId : nat) (n : nat) : list HookEvent :=
  match n with
  | 0 => []
  | S n' => Response stillProcessing :: IntervalFires intervalId
            :: stillProcessingRounds intervalId n'
  end.

End PollHook.

(** ** The job list as the page drives it *)

Module Lifecycle.
Import Types JobList.

(** The calls the page makes on the job list: [addJob(newJob)] in
    [handleSubmit]; [updateJob] with the completed or failed status, with the
    storage key, with the image flag, and with the result fetched for the job
    being viewed; [replaceJobId]; and [setJobs] with the server's listing. *)
Inductive ListOp :=
| OpAdd (jobId name : string) (m : OcrModel) (o : ModelOptions) (created : Z) (key : string)
| OpCompleted (jobId : string) (r : option OcrResult) (t : option Z)
| OpFailed (jobId : string)
| OpS3Key (jobId key : string)
| OpImageAvailable (jobId : string) (available : bool)
| OpLoadResult (currentJobId : option string) (r : OcrResult)
| OpReplaceId (oldId newId : string)
| OpResync (listing : list ListedJob).

(** [newJob] of [handleSubmit]. *)
Definition submittedJob (jobId name : string) (m : OcrModel) (o : ModelOptions)
  (created : Z) (key : string) : OcrJob :=
  {| id := jobId; filename := name; model := m; modelOptions := o;
     status := processing; createdAt := created; s3Key := Some key;
     imageAvailable := Some true; result := None; processingTimeMs := None |}.

Definition imageAvailableUpdates (available : bool) : JobUpdates :=
  {| u_status := None; u_result := None; u_processingTimeMs := None;
     u_s3Key := None; u_imageAvailable := Some available |}.

Definition resultUpdates (r : OcrResult) : JobUpdates :=
  {| u_status := None; u_result := Some (Some r); u_processingTimeMs := None;
     u_s3Key := None; u_imageAvailable := None |}.

(** The effect that loads the result of the job being viewed:
    [if (!currentJob.result && currentJob.status === 'completed')], then
    [updateJob(currentJob.id, { result })] once the result is fetched. *)
Definition loadResult (currentJobId : option string) (r : OcrResult) (jobs : list OcrJob)
  : list OcrJob :=
  match findJob jobs currentJobId with
  | Some currentJob =>
      match result currentJob with
      | None =>
          if JobStatus_eqb (status currentJob) completed
          then updateJob (id currentJob) (resultUpdates r) jobs
          else jobs
      | Some _ => jobs
      end
  | None => jobs
  end.

Definition applyOp (op : ListOp) (jobs : list OcrJob) : list OcrJob :=
  match op with
  | OpAdd jobId name m o created key =>
      addJob (submittedJob jobId name m o created key) jobs
  | OpCompleted jobId r t => updateJob jobId (Page.completedUpdates r t) jobs
  | OpFailed jobId => updateJob jobId Page.failedUpdates jobs
  | OpS3Key jobId key => updateJob jobId (Page.s3KeyUpdates key) jobs
  | OpImageAvailable jobId available => updateJob jobId (imageAvailableUpdates available) jobs
  | OpLoadResult currentJobId r => loadResult currentJobId r jobs
  | OpReplaceId oldId newId => replaceJobId oldId newId jobs
  | OpResync listing => setJobs listing jobs
  end.

Fixpoint distinct (ids : list string) : bool :=
  match ids with
  | [] => true
  | i :: rest => negb (existsb (String.eqb i) rest) && distinct rest
  end.

(** An id identifies one job, and a job is marked failed while it is
    processing: a new id (client-made or server-assigned) is not in the list,
    the listing has no id twice, and the failed status goes to a job that is
    still processing. *)
Definition opOk (op : ListOp) (jobs : list OcrJob) : bool :=
  match op with
  | OpAdd jobId _ _ _ _ _ => negb (existsb (String.eqb jobId) (map id jobs))
  | OpFailed jobId =>
      forallb (fun j => negb (String.eqb (id j) jobId)
                        || JobStatus_eqb (status j) processing) jobs
  | OpReplaceId _ newId => negb (existsb (String.eqb newId) (map id jobs))
  | OpResync listing => distinct (map l_id listing)
  | _ => true
  end.

(** The list after the operations, [None] if one of them is not [opOk]. *)
Fixpoint runOps (ops : list ListOp) (jobs : list OcrJob) : option (list OcrJob) :=
  match ops with
  | [] => Some jobs
  | op :: rest => if opOk op jobs then runOps rest (applyOp op jobs) else None
  end.





End Lifecycle.

(** ** The context state of [AppLayout]: the jobs and the current job *)

Module Layout.
Import Types JobList.

Record LayoutState := {
  jobs : list OcrJob;
  currentJobId : option string
}.

(** The call of the handler that deletes the stored files of a job. *)
Inductive LayoutEffect :=
| DeleteS3Files (key jobId : string).

(** [prev === id] on [string | null] against a string. *)
Definition isCurrent (cur : option string) (i : string) : bool :=
  match cur with Some c => String.eqb c i | None => false end.

Definition addJob (job : OcrJob) (st : LayoutState) : LayoutState :=
  {| jobs := JobList.addJob job (jobs st); currentJobId := Some (id job) |}.

Definition updateJob (i : string) (updates : JobUpdates) (st : LayoutState) : LayoutState :=
  {| jobs := JobList.updateJob i updates (jobs st); currentJobId := currentJobId st |}.

(** [replaceJobId]: the current job follows the renamed job. *)
Definition replaceJobId (oldId newId : string) (st : LayoutState) : LayoutState :=
  {| jobs := JobList.replaceJobId oldId newId (jobs st);
     currentJobId := if isCurrent (currentJobId st) oldId then Some newId
                     else currentJobId st |}.

(** [removeJob]: the stored files are deleted when the job is found and has
    a storage key; the job leaves the list; the current job is reset when it
    was the one removed. *)
Definition removeJob (i : string) (st : LayoutState) : LayoutState * list LayoutEffect :=
  let deleted :=
    match findJob (jobs st) (Some i) with
    | Some job =>
        if truthy_opt_string (s3Key job)
        then [DeleteS3Files (match s3Key job with Some k => k | None => EmptyString end)
                (id job)]
        else []
    | None => []
    end in
  ({| jobs := List.filter (fun job => negb (String.eqb (id job) i)) (jobs st);
      currentJobId := if isCurrent (currentJobId st) i then None else currentJobId st |},
   deleted).

(** The click on a job of the sidebar: [isAccessible && setCurrentJobId(job.id)],
    with [isAccessible = job.s3Key && job.imageAvailable !== false]. *)
Definition isAccessible (job : OcrJob) : bool :=
  truthy_opt_string (s3Key job)
  && match imageAvailable job with Some false => false | _ => true end.

Definition selectJob (job : OcrJob) (st : LayoutState) : LayoutState :=
  if isAccessible job
  then {| jobs := jobs st; currentJobId := Some (id job) |}
  else st.

End Layout.

(** ** Zoom of the result image *)

Module Viewport.
Local Open Scope Q_scope.

(** [Math.min] and [Math.max] on numbers. *)
Definition mathMin (a b : Q) : Q := if Qle_bool a b then a else b.
Definition mathMax (a b : Q) : Q := if Qle_bool a b then b else a.

(** [setZoomLevel((prev) => Math.min(prev + 0.25, 3))] *)
Definition handleZoomIn (prev : Q) : Q := mathMin (prev + (25 # 100)) 3.

(** [setZoomLevel((prev) => Math.max(prev - 0.25, 0.25))] *)
Definition handleZoomOut (prev : Q) : Q := mathMax (prev - (25 # 100)) (25 # 100).

(** [handleZoomFit]: zoom 1 and no pan. *)
Definition handleZoomFit : Q * (Q * Q) := (1, (0, 0)).

(** [handleWheel]: only with Ctrl or Meta held; a tenth per notch. *)
Definition handleWheel (ctrlKey metaKey : bool) (deltaY : Q) (prev : Q) : Q :=
  if ctrlKey || metaKey then
    let delta := if Qle_bool deltaY 0 then (1 # 10) else - (1 # 10) in
    mathMin (mathMax (prev + delta) (25 # 100)) 3
  else prev.

(** What changes the zoom level. [ZoomFit] is [handleZoomFit]; the effect that
    runs when another job is shown resets the level to 1 in the same way. *)
Inductive ZoomEvent :=
| ZoomIn
| ZoomOut
| ZoomFit
| Wheel (ctrlKey metaKey : bool) (deltaY : Q).

Definition zoomStep (e : ZoomEvent) (prev : Q) : Q :=
  match e with
  | ZoomIn => handleZoomIn prev
  | ZoomOut => handleZoomOut prev
  | ZoomFit => fst handleZoomFit
  | Wheel c m d => handleWheel c m d prev
  end.

(** The zoom level after the events, from the initial level 1. *)
Definition zoomAfter (events : list ZoomEvent) : Q := fold_left (fun z e => zoomStep e z) events 1.

End Viewport.

(** ** The crop of the selected block *)

Module Crop.
Import Types Overlay.
Local Open Scope Q_scope.

Record CropRegion := {
  cropX : Q;
  cropY : Q;
  cropW : Q;
  cropH : Q
}.

(** [a || b] on numbers. *)
Definition orElse (a b : Q) : Q := if truthy_num a then a else b.

(** The region cut out of the loaded image for the preview of the selected
    block. [img] is the image element when it is there and complete;
    [structWidth] and [structHeight] are the page dimensions of the result,
    0 when it has none; [None] is [setSelectedBlockImage(null)]. *)
Definition selectedBlockCrop (img : option HTMLImageElement) (structWidth structHeight : Q)
  (bbox : BBox) : option CropRegion :=
  match img with
  | None => None
  | Some img =>
      if Qeq_bool (naturalWidth img) 0 then None
      else
        let '(x1, y1, x2, y2) := bbox in
        let baseWidth := orElse structWidth (naturalWidth img) in
        let baseHeight := orElse structHeight (naturalHeight img) in
        let scaleX := naturalWidth img / baseWidth in
        let scaleY := naturalHeight img / baseHeight in
        let cropX := Viewport.mathMax 0 (x1 * scaleX) in
        let cropY := Viewport.mathMax 0 (y1 * scaleY) in
        let cropW := Viewport.mathMin ((x2 - x1) * scaleX) (naturalWidth img - cropX) in
        let cropH := Viewport.mathMin ((y2 - y1) * scaleY) (naturalHeight img - cropY) in
        if Qle_bool cropW 0 || Qle_bool cropH 0 then None
        else Some {| cropX := cropX; cropY := cropY; cropW := cropW; cropH := cropH |}
  end.

End Crop.

(** ** [generateMarkdown]: the Markdown text of the blocks *)

Module Markdown.
Import Types.

(** [s.replace(/^[\s\n]+|[\s\n]+$/g, '')]: the class [\s] holds the code
    units [String.prototype.trim] removes, so the leading and the trailing
    run go as in [trim]. *)
Definition stripEnds (s : jsstring) : jsstring := Blocks.trim s.

(** The callback of [blocks.map(...)]: the Markdown of one block, [''] for
    a block without text. A table keeps its content as it is. *)
Definition blockMarkdown (block : OcrBlock) : jsstring :=
  let content := stripEnds (block_content block) in
  if negb (Blocks.truthy_str content) then []
  else if String.eqb (block_label block) "doc_title" then js "# " ++ content
  else if String.eqb (block_label block) "paragraph_title" then js "## " ++ content
  else if String.eqb (block_label block) "header" then js "**" ++ content ++ js "**"
  else if String.eqb (block_label block) "table" then block_content block
  else content.

(** [arr.join(sep)] on strings. *)
Fixpoint join (sep : jsstring) (arr : list jsstring) : jsstring :=
  match arr with
  | [] => []
  | [x] => x
  | x :: rest => x ++ sep ++ join sep rest
  end.

Definition generateMarkdown (blocks : list OcrBlock) : jsstring :=
  join [Blocks.LF; Blocks.LF] (List.filter Blocks.truthy_str (map blockMarkdown blocks)).

(** A title, a blank block and a paragraph. *)
Definition sampleDocument : list OcrBlock :=
  [ {| block_label := "doc_title"%string; block_content := js " Report ";
       block_bbox := (0, 0, 10, 10)%Q; block_id := 0%Z; block_order := None;
       group_id := 0%Z |};
    Blocks.textBlock 1 1 (js "  ");
    Blocks.textBlock 2 2 (js "Body") ].

End Markdown.

(** * Properties *)

(** ** Overlay geometry *)

Module OverlayProps.
Import Types Overlay.
Local Open Scope Q_scope.

Lemma bboxIsZero_iff (b : BBox) : bboxIsZero b = true <-> bboxAllZero b.
Proof.
  destruct b as [[[x1 y1] x2] y2]. unfold bboxIsZero, bboxAllZero.
  rewrite !andb_true_iff, !Qeq_bool_iff. tauto.
Qed.

Lemma truthy_num_iff (q : Q) : truthy_num q = true <-> ~ q == 0.
Proof.
  unfold truthy_num. rewrite negb_true_iff. split.
  - intros H E. apply Qeq_bool_iff in E. congruence.
  - intros H. destruct (Qeq_bool q 0) eqn:E; [|reflexivity].
    apply Qeq_bool_iff in E. contradiction.
Qed.

Lemma nth_error_map_seq {A} (f : nat -> A) (n idx : nat) :
  nth_error (map f (seq 0 n)) idx = if (idx <? n)%nat then Some (f idx) else None.
Proof.
  rewrite nth_error_map. destruct (Nat.ltb_spec idx n) as [H|H].
  - rewrite nth_error_nth' with (d := 0%nat) by (rewrite length_seq; lia).
    rewrite seq_nth by lia. reflexivity.
  - assert (E : nth_error (seq 0 n) idx = None).
    { apply nth_error_None. rewrite length_seq. lia. }
    rewrite E. reflexivity.
Qed.

Lemma mkStyle_mapped (b : BBox) (sx sy : Q) : mappedRect b sx sy (mkStyle b sx sy).
Proof. destruct b as [[[x1 y1] x2] y2]. cbn. repeat split. Qed.

(** What the PP-OCRv5 overlay list holds at an index. *)
Lemma v5Overlays_nth getV5Bbox (v : ResultView) (idx : nat) (o : option OverlayStyle) :
  nth_error (v5Overlays getV5Bbox v) idx = Some o ->
  o = v5Overlay getV5Bbox v (resultData v) idx.
Proof.
  unfold v5Overlays, v5Data.
  destruct (overlaysEnabled v && isV5Format v) eqn:G; [|destruct idx; discriminate].
  apply andb_true_iff in G as [_ G]. rewrite G.
  destruct (resultImageRef v); [|destruct idx; discriminate].
  destruct (rec_texts (resultData v)) as [texts|]; [|destruct idx; discriminate].
  rewrite nth_error_map_seq.
  destruct (idx <? length texts)%nat; [|discriminate].
  intros [= <-]. reflexivity.
Qed.

(** C1 as stated fails for the structured shape: the only block of this
    payload has the box (0,0,0,0), and the overlay list draws a rectangle for
    it, of width and height zero at the origin. *)
Lemma structure_zero_bbox_drawn :
  let v := loadedView (structuredPayload [zeroBlock]) in
  nth_error (blocks v) 0 = Some zeroBlock /\
  bboxAllZero (block_bbox zeroBlock) /\
  exists st,
    nth_error (structureOverlays v) 0 = Some (Some st) /\
    rendered (structureOverlays v) = [st] /\
    style_width st == 0 /\ style_height st == 0.
Proof.
  cbn zeta. split; [reflexivity|]. split; [cbn; repeat split; reflexivity|].
  eexists. split; [reflexivity|]. split; [reflexivity|]. split; reflexivity.
Qed.

(** C1 (amended): in the flat-recognition shape, an item whose bbox is
    exactly (0,0,0,0) gets no overlay rectangle: the entry of the overlay
    list at its index, if any, is [null]. *)
Theorem v5_zero_bbox_excluded getV5Bbox (v : ResultView) (idx : nat) :
  bboxAllZero (getV5Bbox (resultData v) idx) ->
  forall st, nth_error (v5Overlays getV5Bbox v) idx <> Some (Some st).
Proof.
  intros Hz st Hn. apply v5Overlays_nth in Hn.
  unfold v5Overlay in Hn. apply bboxIsZero_iff in Hz. rewrite Hz in Hn. discriminate.
Qed.

Lemma v5_zero_bbox_excluded_witness :
  bboxAllZero (getV5Bbox_model flatPayload 1) /\
  nth_error (v5Overlays getV5Bbox_model (loadedView flatPayload)) 1 = Some None /\
  forall st,
    nth_error (v5Overlays getV5Bbox_model (loadedView flatPayload)) 1 <> Some (Some st).
Proof.
  assert (Hz : bboxAllZero (getV5Bbox_model flatPayload 1))
    by (cbn; repeat split; reflexivity).
  split; [exact Hz|]. split; [reflexivity|].
  exact (v5_zero_bbox_excluded getV5Bbox_model (loadedView flatPayload) 1 Hz).
Defined.

(** The payload of the spec's example draws exactly one rectangle, for A. *)
Example flat_example_one_rectangle :
  rendered (v5Overlays getV5Bbox_model (loadedView flatPayload))
  = [mkStyle (0, 0, 10, 10) (50 / 100) (40 / 80)].
Proof. reflexivity. Qed.

(** C8: with the overlays enabled for the loaded image, the rectangle of a
    block is [x1*scaleX, y1*scaleY, (x2-x1)*scaleX, (y2-y1)*scaleY]; the
    scales divide the displayed size by the payload's page size for a
    structured result and by the image's natural size for a flat one. *)
Theorem overlay_geometry getV5Bbox (v : ResultView) (imageEl : HTMLImageElement) :
  overlaysEnabled v = true ->
  resultImageRef v = Some imageEl ->
  (isV5Format v = false ->
   forall w h idx block,
     width (resultData v) = Some w -> height (resultData v) = Some h ->
     ~ w == 0 -> ~ h == 0 ->
     nth_error (blocks v) idx = Some block ->
     exists st,
       nth_error (structureOverlays v) idx = Some (Some st) /\
       mappedRect (block_bbox block)
         (clientWidth imageEl / w) (clientHeight imageEl / h) st)
  /\
  (isV5Format v = true ->
   forall texts idx,
     rec_texts (resultData v) = Some texts -> (idx < length texts)%nat ->
     ~ naturalWidth imageEl == 0 -> ~ naturalHeight imageEl == 0 ->
     ~ bboxAllZero (getV5Bbox (resultData v) idx) ->
     exists st,
       nth_error (v5Overlays getV5Bbox v) idx = Some (Some st) /\
       mappedRect (getV5Bbox (resultData v) idx)
         (clientWidth imageEl / naturalWidth imageEl)
         (clientHeight imageEl / naturalHeight imageEl) st).
Proof.
  intros Hen Href. split.
  - intros Hv5 w h idx block Hw Hh Hw0 Hh0 Hb.
    exists (mkStyle (block_bbox block) (clientWidth imageEl / w) (clientHeight imageEl / h)).
    split; [|apply mkStyle_mapped].
    unfold structureOverlays. rewrite Hen, Hv5, Href. cbn [negb andb].
    rewrite nth_error_map, Hb. cbn [option_map]. unfold structureOverlay.
    rewrite Href, Hw, Hh. cbn [truthy_opt_num].
    apply truthy_num_iff in Hw0, Hh0. rewrite Hw0, Hh0. reflexivity.
  - intros Hv5 texts idx Ht Hlt Hw0 Hh0 Hnz.
    exists (mkStyle (getV5Bbox (resultData v) idx)
              (clientWidth imageEl / naturalWidth imageEl)
              (clientHeight imageEl / naturalHeight imageEl)).
    split; [|apply mkStyle_mapped].
    unfold v5Overlays, v5Data. rewrite Hen, Hv5, Href, Ht. cbn [andb].
    rewrite nth_error_map_seq. apply Nat.ltb_lt in Hlt. rewrite Hlt.
    unfold v5Overlay. rewrite Href.
    destruct (bboxIsZero (getV5Bbox (resultData v) idx)) eqn:Hz.
    + apply bboxIsZero_iff in Hz. contradiction.
    + apply truthy_num_iff in Hw0, Hh0. rewrite Hw0, Hh0. reflexivity.
Qed.

Lemma overlay_geometry_witness :
  (exists st,
     nth_error (structureOverlays (loadedView (structuredPayload [boxedBlock]))) 0
     = Some (Some st) /\
     mappedRect (10, 20, 30, 60) (50 / 100) (40 / 80) st)
  /\
  (exists st,
     nth_error (v5Overlays getV5Bbox_model (loadedView flatPayload)) 0 = Some (Some st) /\
     mappedRect (0, 0, 10, 10) (50 / 100) (40 / 80) st).
Proof.
  split.
  - destruct (overlay_geometry getV5Bbox_model (loadedView (structuredPayload [boxedBlock]))
                halfSizeImage eq_refl eq_refl) as [Hs _].
    apply (Hs eq_refl 100 80 0%nat boxedBlock eq_refl eq_refl);
      [discriminate | discriminate | reflexivity].
  - destruct (overlay_geometry getV5Bbox_model (loadedView flatPayload)
                halfSizeImage eq_refl eq_refl) as [_ Hf].
    apply (Hf eq_refl [js "A"; js "B"] 0%nat eq_refl);
      [cbn; lia | discriminate | discriminate |].
    cbn. intros [_ [_ [H _]]]. discriminate.
Defined.

End OverlayProps.

(** ** The response envelope *)

Module EnvelopeProps.
Import Types JobList Envelope.

Lemma arrayAt_in_range {A} (arr : list A) (p : Z) :
  1 <= p <= Z.of_nat (length arr) ->
  exists e, nth_error arr (Z.to_nat (p - 1)) = Some e /\ arrayAt arr (p - 1) = Some e.
Proof.
  intros H. unfold arrayAt.
  destruct (nth_error arr (Z.to_nat (p - 1))) as [e|] eqn:E.
  - exists e. split; [reflexivity|].
    destruct (Z.leb_spec 0 (p - 1)); [reflexivity | lia].
  - apply nth_error_None in E. lia.
Qed.

Lemma arrayAt_out_of_range {A} (arr : list A) (p : Z) :
  p < 1 \/ Z.of_nat (length arr) < p -> arrayAt arr (p - 1) = None.
Proof.
  intros H. unfold arrayAt. destruct (Z.leb_spec 0 (p - 1)); [|reflexivity].
  apply nth_error_None. lia.
Qed.

(** C2: for the job the page resolves, a top-level [res] is the page result;
    otherwise a non-empty [results] gives the element of the current page, or
    the first element when that index is out of range, unwrapped via [res]
    when present; with neither shape there is no result. *)
Theorem getResultData_envelope (jobs : list OcrJob) (currentJobId processingJobId : option string)
  (currentPdfPage : Z) (job : OcrJob) (r : OcrResult) :
  resolveJob jobs currentJobId processingJobId = Some job ->
  result job = Some r ->
  let found := getResultData jobs currentJobId processingJobId currentPdfPage in
  (forall d, res r = Some d -> found = Some d)
  /\
  (res r = None ->
   forall first rest, results r = Some (first :: rest) ->
     (1 <= currentPdfPage <= Z.of_nat (length (first :: rest)) ->
      exists e, nth_error (first :: rest) (Z.to_nat (currentPdfPage - 1)) = Some e /\
                found = Some (unwrap e))
     /\
     (currentPdfPage < 1 \/ Z.of_nat (length (first :: rest)) < currentPdfPage ->
      found = Some (unwrap first)))
  /\
  (res r = None -> results r = None \/ results r = Some [] -> found = None).
Proof.
  intros Hjob Hres found. subst found. unfold getResultData.
  rewrite Hjob, Hres. unfold resultDataOf. repeat split.
  - intros d Hd. rewrite Hd. reflexivity.
  - intros Hrange. rewrite H, H0.
    destruct (arrayAt_in_range (first :: rest) currentPdfPage Hrange) as [e [He Ha]].
    exists e. split; [exact He|]. rewrite Ha. unfold unwrap.
    destruct (entry_res e); reflexivity.
  - intros Hout. rewrite H, H0.
    rewrite (arrayAt_out_of_range (first :: rest) currentPdfPage Hout).
    unfold unwrap. destruct (entry_res first); reflexivity.
  - intros Hn [Hr|Hr]; rewrite Hn, Hr; reflexivity.
Qed.

Lemma getResultData_envelope_witness :
  getResultData [completedJob "j1" (Some twoPages)] (Some "j1"%string) None 2
  = Some (pageData 2)
  /\ getResultData [completedJob "j1" (Some twoPages)] (Some "j1"%string) None 5
     = Some (pageData 1).
Proof.
  destruct (getResultData_envelope [completedJob "j1" (Some twoPages)]
              (Some "j1"%string) None 2 (completedJob "j1" (Some twoPages)) twoPages
              eq_refl eq_refl) as [_ [H2 _]].
  destruct (getResultData_envelope [completedJob "j1" (Some twoPages)]
              (Some "j1"%string) None 5 (completedJob "j1" (Some twoPages)) twoPages
              eq_refl eq_refl) as [_ [H5 _]].
  split.
  - destruct (H2 eq_refl _ _ eq_refl) as [Hin _].
    destruct Hin as [e [He Hf]]; [cbn; lia|].
    cbn in He. injection He as <-. exact Hf.
  - destruct (H5 eq_refl _ _ eq_refl) as [_ Hout].
    apply Hout. right. cbn. lia.
Defined.

End EnvelopeProps.

(** ** Redistribution of the lines of a group *)

Module BlocksProps.
Import Types Blocks.
Local Open Scope nat_scope.

(** *** Reading and writing [processedBlocks] *)

Lemma blockAt_insert_eq (l : list OcrBlock) (i : nat) (x : OcrBlock) :
  i < length l -> blockAt (<[i:=x]> l) i = x.
Proof.
  intros H. unfold blockAt. rewrite nth_lookup, list_lookup_insert_eq by exact H.
  reflexivity.
Qed.

Lemma blockAt_insert_ne (l : list OcrBlock) (i j : nat) (x : OcrBlock) :
  i <> j -> blockAt (<[i:=x]> l) j = blockAt l j.
Proof.
  intros H. unfold blockAt. rewrite !nth_lookup, list_lookup_insert_ne by exact H.
  reflexivity.
Qed.

Lemma nth_In_lt (l : list nat) (i : nat) : i < length l -> In (nth i l 0) l.
Proof. intros H. apply nth_In. exact H. Qed.

Lemma NoDup_nth_ne (l : list nat) (i j : nat) :
  List.NoDup l -> i < length l -> j < length l -> i <> j -> nth i l 0 <> nth j l 0.
Proof.
  intros Hnd Hi Hj Hne E. apply Hne.
  apply (proj1 (List.NoDup_nth l 0) Hnd i j Hi Hj E).
Qed.

(** *** The inner loop *)

Lemma distributeLines_length (empties : list nat) (rest : list jsstring) (i0 : nat)
  (pb : list OcrBlock) :
  length (distributeLines empties rest i0 pb) = length pb.
Proof.
  revert i0 pb. induction rest as [|line rest IH]; intros i0 pb;
    cbn [distributeLines]; [reflexivity|].
  rewrite IH. destruct (i0 <? length empties); [apply length_insert | reflexivity].
Qed.

Lemma distributeLines_other (empties : list nat) (rest : list jsstring) (i0 : nat)
  (pb : list OcrBlock) (idx : nat) :
  ~ In idx empties ->
  blockAt (distributeLines empties rest i0 pb) idx = blockAt pb idx.
Proof.
  intros Hnot. revert i0 pb. induction rest as [|line rest IH]; intros i0 pb;
    cbn [distributeLines]; [reflexivity|].
  rewrite IH. destruct (Nat.ltb_spec i0 (length empties)) as [Hlt|Hge]; [|reflexivity].
  apply blockAt_insert_ne. intros E. apply Hnot. rewrite <- E. apply nth_In_lt, Hlt.
Qed.

Lemma distributeLines_at (empties : list nat) (rest : list jsstring) (i0 : nat)
  (pb : list OcrBlock) (j : nat) :
  List.NoDup empties ->
  (forall idx, In idx empties -> idx < length pb) ->
  j < length empties ->
  blockAt (distributeLines empties rest i0 pb) (nth j empties 0)
  = if (i0 <=? j) && (j - i0 <? length rest)
    then withContent (blockAt pb (nth j empties 0)) (nth (j - i0) rest [])
    else blockAt pb (nth j empties 0).
Proof.
  intros Hnd Hrange Hj. revert i0 pb Hrange.
  induction rest as [|line rest IH]; intros i0 pb Hrange.
  - cbn [distributeLines length].
    replace (j - i0 <? 0) with false by (symmetry; apply Nat.ltb_ge; lia).
    rewrite andb_false_r. reflexivity.
  - cbn [distributeLines].
    destruct (Nat.ltb_spec i0 (length empties)) as [Hlt|Hge].
    + rewrite IH by (intros idx Hin; rewrite length_insert; auto).
      destruct (Nat.eq_dec j i0) as [->|Hne].
      * replace (S i0 <=? i0) with false by (symmetry; apply Nat.leb_gt; lia).
        rewrite Nat.leb_refl, Nat.sub_diag. cbn [andb length nth].
        replace (0 <? S (length rest)) with true by (symmetry; apply Nat.ltb_lt; lia).
        apply blockAt_insert_eq. apply Hrange, nth_In_lt, Hlt.
      * rewrite blockAt_insert_ne by (apply NoDup_nth_ne; auto).
        destruct (Nat.leb_spec (S i0) j) as [H1|H1].
        -- replace (i0 <=? j) with true by (symmetry; apply Nat.leb_le; lia).
           cbn [andb length].
           replace (j - i0) with (S (j - S i0)) by lia. cbn [nth].
           destruct (Nat.ltb_spec (j - S i0) (length rest));
             destruct (Nat.ltb_spec (S (j - S i0)) (S (length rest)));
             try lia; reflexivity.
        -- replace (i0 <=? j) with false by (symmetry; apply Nat.leb_gt; lia).
           reflexivity.
    + rewrite IH by exact Hrange.
      replace (S i0 <=? j) with false by (symmetry; apply Nat.leb_gt; lia).
      replace (i0 <=? j) with false by (symmetry; apply Nat.leb_gt; lia).
      reflexivity.
Qed.

(** *** One group *)

Lemma processGroup_length (pb : list OcrBlock) (indices : list nat) :
  length (processGroup pb indices) = length pb.
Proof.
  unfold processGroup.
  destruct (length indices <=? 1); [reflexivity|].
  destruct (List.find _ indices) as [p|]; [|reflexivity].
  destruct (1 <? _); [|reflexivity].
  destruct (0 <? _); [|reflexivity].
  rewrite distributeLines_length. apply length_insert.
Qed.

Lemma processGroup_other (pb : list OcrBlock) (indices : list nat) (idx : nat) :
  ~ In idx indices -> blockAt (processGroup pb indices) idx = blockAt pb idx.
Proof.
  intros Hnot. unfold processGroup.
  destruct (length indices <=? 1); [reflexivity|].
  destruct (List.find _ indices) as [p|] eqn:Hfind; [|reflexivity].
  destruct (1 <? _); [|reflexivity].
  destruct (0 <? _); [|reflexivity].
  rewrite distributeLines_other.
  - apply blockAt_insert_ne. intros ->. apply Hnot.
    apply List.find_some in Hfind. tauto.
  - intros Hin. apply Hnot. apply List.filter_In in Hin. tauto.
Qed.

Lemma find_ext_in {A} (f g : A -> bool) (l : list A) :
  (forall x, In x l -> f x = g x) -> List.find f l = List.find g l.
Proof.
  induction l as [|a l IH]; intros H; cbn; [reflexivity|].
  rewrite <- (H a) by (left; reflexivity).
  destruct (f a); [reflexivity|]. apply IH. intros x Hx. apply H. right. exact Hx.
Qed.

(** What [processGroup] leaves in the populated block and in the empty
    blocks of the group it is run on. *)
Lemma processGroup_spec (pb : list OcrBlock) (indices : list nat) (p : nat) :
  List.NoDup indices ->
  (forall idx, In idx indices -> idx < length pb) ->
  2 <= length indices ->
  List.find (fun idx => hasContent (blockAt pb idx)) indices = Some p ->
  let lines := contentLines (block_content (blockAt pb p)) in
  let empties :=
    List.filter (fun idx => negb (idx =? p) && isEmptyBlock (blockAt pb idx)) indices in
  2 <= length lines ->
  1 <= length empties ->
  let out := processGroup pb indices in
  blockAt out p = withContent (blockAt pb p) (nth 0 lines [])
  /\
  forall i, i < length empties ->
    blockAt out (nth i empties 0)
    = if S i <? length lines
      then withContent (blockAt pb (nth i empties 0)) (nth (S i) lines [])
      else blockAt pb (nth i empties 0).
Proof.
  intros Hnd Hrange Hlen Hfind lines empties Hlines Hempties out.
  assert (Hp : In p indices) by (apply List.find_some in Hfind; tauto).
  assert (Hsub : forall idx, In idx empties -> In idx indices /\ idx <> p).
  { intros idx Hin. apply List.filter_In in Hin as [Hin Hb]. split; [exact Hin|].
    apply andb_true_iff in Hb as [Hb _]. apply negb_true_iff, Nat.eqb_neq in Hb.
    exact Hb. }
  assert (Hnde : List.NoDup empties) by (apply List.NoDup_filter; exact Hnd).
  assert (Hout : out = distributeLines empties (tl lines) 0
                         (<[p := withContent (blockAt pb p) (nth 0 lines [])]> pb)).
  { subst out. unfold processGroup. rewrite Hfind.
    replace (length indices <=? 1) with false by (symmetry; apply Nat.leb_gt; lia).
    fold lines. fold empties.
    replace (1 <? length lines) with true by (symmetry; apply Nat.ltb_lt; lia).
    replace (0 <? length empties) with true by (symmetry; apply Nat.ltb_lt; lia).
    reflexivity. }
  rewrite Hout. split.
  - rewrite distributeLines_other by (intros Hin; apply Hsub in Hin; tauto).
    apply blockAt_insert_eq. apply Hrange, Hp.
  - intros i Hi.
    rewrite distributeLines_at; [|exact Hnde| |exact Hi].
    + cbn [Nat.leb andb]. rewrite Nat.sub_0_r.
      assert (Hne : p <> nth i empties 0).
      { intros E. destruct (Hsub (nth i empties 0)) as [_ H]; [apply nth_In_lt, Hi|].
        congruence. }
      rewrite blockAt_insert_ne by exact Hne.
      destruct lines as [|l0 ls]; [cbn in Hlines; lia|]. cbn [tl length nth].
      destruct (Nat.ltb_spec i (length ls)); destruct (Nat.ltb_spec (S i) (S (length ls)));
        try lia; reflexivity.
    + intros idx Hin. rewrite length_insert. apply Hrange, Hsub, Hin.
Qed.

(** *** The loop over the groups *)

Lemma fold_processGroup_length (groups : list (list nat)) (pb : list OcrBlock) :
  length (fold_left processGroup groups pb) = length pb.
Proof.
  revert pb. induction groups as [|g groups IH]; intros pb; cbn [fold_left];
    [reflexivity|].
  rewrite IH. apply processGroup_length.
Qed.

Lemma fold_processGroup_other (groups : list (list nat)) (pb : list OcrBlock) (idx : nat) :
  (forall g, In g groups -> ~ In idx g) ->
  blockAt (fold_left processGroup groups pb) idx = blockAt pb idx.
Proof.
  revert pb. induction groups as [|g groups IH]; intros pb H; cbn [fold_left];
    [reflexivity|].
  rewrite IH by (intros g' Hg'; apply H; right; exact Hg').
  apply processGroup_other. apply H. left. reflexivity.
Qed.

(** *** The group map *)

Lemma blockAt_app_l (pre : list OcrBlock) (b : OcrBlock) (idx : nat) :
  idx < length pre -> blockAt (pre ++ [b]) idx = blockAt pre idx.
Proof. intros H. unfold blockAt. apply app_nth1. exact H. Qed.

Lemma groupIndices_snoc (pre : list OcrBlock) (b : OcrBlock) (g : Z) :
  groupIndices (pre ++ [b]) g
  = groupIndices pre g ++ (if Z.eqb (group_id b) g then [length pre] else []).
Proof.
  unfold groupIndices. rewrite length_app. cbn [length].
  rewrite Nat.add_1_r, seq_S, List.filter_app. cbn [List.filter Nat.add].
  f_equal.
  - apply List.filter_ext_in. intros idx Hin. apply in_seq in Hin.
    rewrite blockAt_app_l by lia. reflexivity.
  - unfold blockAt. rewrite nth_middle. reflexivity.
Qed.

Lemma groupIndices_lt (blocks : list OcrBlock) (g : Z) (idx : nat) :
  In idx (groupIndices blocks g) ->
  idx < length blocks /\ group_id (blockAt blocks idx) = g.
Proof.
  unfold groupIndices. intros H. apply List.filter_In in H as [H1 H2].
  apply in_seq in H1. apply Z.eqb_eq in H2. split; [lia | exact H2].
Qed.

Lemma groupIndices_NoDup (blocks : list OcrBlock) (g : Z) :
  List.NoDup (groupIndices blocks g).
Proof. apply List.NoDup_filter, seq_NoDup. Qed.

Lemma groupMapPush_keys (gm : list (Z * list nat)) (g : Z) (idx : nat) :
  (In g (map fst gm) -> map fst (groupMapPush gm g idx) = map fst gm) /\
  (~ In g (map fst gm) -> map fst (groupMapPush gm g idx) = map fst gm ++ [g]).
Proof.
  induction gm as [|[g' is'] gm [IH1 IH2]]; cbn [groupMapPush map fst].
  - split; [intros []|reflexivity].
  - destruct (Z.eqb_spec g' g) as [->|Hne]; cbn [map fst].
    + split; [reflexivity|]. intros H. exfalso. apply H. left. reflexivity.
    + split.
      * intros [E|Hin]; [congruence|]. rewrite IH1 by exact Hin. reflexivity.
      * intros Hn. rewrite IH2 by (intros Hin; apply Hn; right; exact Hin). reflexivity.
Qed.

Lemma groupMapPush_In (gm : list (Z * list nat)) (g : Z) (idx : nat) (g' : Z)
  (is' : list nat) :
  List.NoDup (map fst gm) ->
  In (g', is') (groupMapPush gm g idx) ->
  (g' <> g /\ In (g', is') gm)
  \/ (g' = g /\ exists is0, In (g, is0) gm /\ is' = is0 ++ [idx])
  \/ (g' = g /\ ~ In g (map fst gm) /\ is' = [idx]).
Proof.
  induction gm as [|[g0 is0] gm IH]; cbn [groupMapPush map fst]; intros Hnd Hin.
  - destruct Hin as [[= <- <-]|[]]. right. right. repeat split. intros [].
  - apply List.NoDup_cons_iff in Hnd as [Hfresh Hnd].
    destruct (Z.eqb_spec g0 g) as [->|Hne].
    + destruct Hin as [[= <- <-]|Hin].
      * right. left. split; [reflexivity|]. exists is0. split; [left|]; reflexivity.
      * left. split; [|right; exact Hin].
        intros ->. apply Hfresh. apply in_map_iff. exists (g, is'). split; [reflexivity|exact Hin].
    + destruct Hin as [[= <- <-]|Hin].
      * left. split; [exact Hne | left; reflexivity].
      * destruct (IH Hnd Hin) as [[H1 H2]|[[H1 [is1 [H2 H3]]]|[H1 [H2 H3]]]].
        -- left. split; [exact H1 | right; exact H2].
        -- right. left. split; [exact H1|]. exists is1. split; [right; exact H2 | exact H3].
        -- right. right. repeat split; [exact H1| |exact H3].
           intros [E|Hk]; [congruence | contradiction].
Qed.

(** The group map built from a prefix of the blocks: distinct keys, each
    with the indices of its group, and a key for every group met. *)
Definition GroupMapOf (pre : list OcrBlock) (gm : list (Z * list nat)) : Prop :=
  List.NoDup (map fst gm)
  /\ (forall g indices, In (g, indices) gm -> indices = groupIndices pre g)
  /\ (forall g, ~ In g (map fst gm) -> groupIndices pre g = []).

Lemma GroupMapOf_push (pre : list OcrBlock) (b : OcrBlock) (gm : list (Z * list nat)) :
  GroupMapOf pre gm ->
  GroupMapOf (pre ++ [b]) (groupMapPush gm (group_id b) (length pre)).
Proof.
  intros [Hnd [Hin Hout]].
  destruct (groupMapPush_keys gm (group_id b) (length pre)) as [K1 K2].
  destruct (in_dec Z.eq_dec (group_id b) (map fst gm)) as [Hk|Hk].
  - split; [rewrite K1 by exact Hk; exact Hnd|]. split.
    + intros g indices H. rewrite groupIndices_snoc.
      destruct (groupMapPush_In _ _ _ _ _ Hnd H) as [[H1 H2]|[[H1 [is1 [H2 H3]]]|[H1 [H2 H3]]]].
      * destruct (Z.eqb_spec (group_id b) g); [congruence|].
        rewrite app_nil_r. apply Hin, H2.
      * subst g. rewrite Z.eqb_refl, H3. f_equal. apply Hin, H2.
      * contradiction.
    + intros g Hg. rewrite K1 in Hg by exact Hk. rewrite groupIndices_snoc, Hout by exact Hg.
      destruct (Z.eqb_spec (group_id b) g) as [E|]; [|reflexivity].
      subst g. contradiction.
  - split.
    { rewrite K2 by exact Hk. apply List.NoDup_app; [exact Hnd| |].
      - repeat constructor. intros [].
      - intros x Hx [E|[]]. subst x. contradiction. }
    split.
    + intros g indices H. rewrite groupIndices_snoc.
      destruct (groupMapPush_In _ _ _ _ _ Hnd H) as [[H1 H2]|[[H1 [is1 [H2 H3]]]|[H1 [H2 H3]]]].
      * destruct (Z.eqb_spec (group_id b) g); [congruence|].
        rewrite app_nil_r. apply Hin, H2.
      * exfalso. apply Hk. apply in_map_iff. exists (group_id b, is1). split; [reflexivity|exact H2].
      * subst g. rewrite Z.eqb_refl, H3, Hout by exact Hk. reflexivity.
    + intros g Hg. rewrite K2 in Hg by exact Hk.
      rewrite groupIndices_snoc, Hout by (intros H; apply Hg, in_or_app; left; exact H).
      destruct (Z.eqb_spec (group_id b) g) as [E|]; [|reflexivity].
      exfalso. apply Hg, in_or_app. right. left. exact E.
Qed.

Lemma GroupMapOf_build (bs pre : list OcrBlock) (gm : list (Z * list nat)) :
  GroupMapOf pre gm ->
  GroupMapOf (pre ++ bs) (buildGroupMap bs (length pre) gm).
Proof.
  revert pre gm. induction bs as [|b bs IH]; intros pre gm H; cbn [buildGroupMap].
  - rewrite app_nil_r. exact H.
  - replace (pre ++ b :: bs) with ((pre ++ [b]) ++ bs) by (rewrite <- app_assoc; reflexivity).
    replace (S (length pre)) with (length (pre ++ [b]))
      by (rewrite length_app; cbn; lia).
    apply IH, GroupMapOf_push, H.
Qed.

Lemma buildGroupMap_spec (blocks : list OcrBlock) :
  GroupMapOf blocks (buildGroupMap blocks 0 []).
Proof.
  apply (GroupMapOf_build blocks [] []).
  split; [constructor|]. split; [intros g indices []|]. intros g _. reflexivity.
Qed.

(** Every index the loops read or write is in range. *)
Lemma buildGroupMap_in_range (blocks : list OcrBlock) (g : Z) (indices : list nat) (idx : nat) :
  In (g, indices) (buildGroupMap blocks 0 []) -> In idx indices -> idx < length blocks.
Proof.
  intros Hin Hidx. destruct (buildGroupMap_spec blocks) as [_ [H _]].
  rewrite (H g indices Hin) in Hidx. apply groupIndices_lt in Hidx. tauto.
Qed.

(** The other groups of the map never touch the indices of a group. *)
Lemma other_groups_disjoint (blocks : list OcrBlock) (gm1 gm2 : list (Z * list nat))
  (g : Z) (indices : list nat) :
  buildGroupMap blocks 0 [] = gm1 ++ (g, indices) :: gm2 ->
  forall idx, In idx indices ->
    forall l, In l (map snd gm1) \/ In l (map snd gm2) -> ~ In idx l.
Proof.
  intros Hgm idx Hidx l Hl Hin.
  destruct (buildGroupMap_spec blocks) as [Hnd [Hspec _]]. rewrite Hgm in Hnd, Hspec.
  assert (Hg : indices = groupIndices blocks g).
  { apply Hspec. apply in_or_app. right. left. reflexivity. }
  rewrite map_app in Hnd. cbn [map fst] in Hnd. apply List.NoDup_remove_2 in Hnd.
  assert (Hl' : exists g', In (g', l) (gm1 ++ gm2)).
  { destruct Hl as [Hl|Hl]; apply in_map_iff in Hl as [[g' l'] [E Hl]]; cbn in E; subst l';
      exists g'; apply in_or_app; [left|right]; exact Hl. }
  destruct Hl' as [g' Hg'].
  assert (Hne : g' <> g).
  { intros ->. apply Hnd. rewrite <- map_app. apply in_map_iff.
    exists (g, l). split; [reflexivity | exact Hg']. }
  assert (Hl2 : l = groupIndices blocks g').
  { apply Hspec. apply in_app_or in Hg' as [H|H]; apply in_or_app; [left|right; right]; exact H. }
  subst indices l. apply groupIndices_lt in Hidx, Hin. destruct Hidx, Hin. congruence.
Qed.

(** What the loop does to a group of two or more blocks whose first
    populated block has two or more non-blank lines: the first of these lines
    stays on that block and the following ones go, in order, one each to the
    blocks of [emptyIndices], which the code fills with every empty block of
    the group other than the populated one, in document order; empty blocks
    for which no line is left are unchanged. *)
Lemma redistribute_group (blocks : list OcrBlock) (g : Z) (p : nat) :
  2 <= length (groupIndices blocks g) ->
  firstPopulated blocks g = Some p ->
  let lines := contentLines (block_content (blockAt blocks p)) in
  let empties := emptySiblings blocks g p in
  2 <= length lines ->
  1 <= length empties ->
  let out := redistribute blocks in
  length out = length blocks
  /\ blockAt out p = withContent (blockAt blocks p) (nth 0 lines [])
  /\ forall i, i < length empties ->
       blockAt out (nth i empties 0)
       = if S i <? length lines
         then withContent (blockAt blocks (nth i empties 0)) (nth (S i) lines [])
         else blockAt blocks (nth i empties 0).
Proof.
  intros Hlen Hfirst lines empties Hlines Hempties out.
  destruct (buildGroupMap_spec blocks) as [Hnd [Hspec Hmiss]].
  assert (Hkey : In g (map fst (buildGroupMap blocks 0 []))).
  { destruct (in_dec Z.eq_dec g (map fst (buildGroupMap blocks 0 []))) as [H|H];
      [exact H|]. rewrite (Hmiss g H) in Hlen. cbn in Hlen. lia. }
  apply in_map_iff in Hkey as [[g' indices] [E Hin]]. cbn in E. subst g'.
  pose proof (Hspec g indices Hin) as Hind.
  destruct (in_split _ _ Hin) as [gm1 [gm2 Hgm]].
  pose proof (other_groups_disjoint blocks gm1 gm2 g indices Hgm) as Hdisj.
  set (pbk := fold_left processGroup (map snd gm1) blocks).
  assert (Hout : out = fold_left processGroup (map snd gm2) (processGroup pbk indices)).
  { subst out pbk. unfold redistribute. rewrite Hgm, map_app, fold_left_app. reflexivity. }
  assert (Hagree : forall idx, In idx indices -> blockAt pbk idx = blockAt blocks idx).
  { intros idx Hidx. apply fold_processGroup_other.
    intros l Hl. apply (Hdisj idx Hidx l). left. exact Hl. }
  assert (Hlenk : length pbk = length blocks) by apply fold_processGroup_length.
  assert (Hp : In p indices).
  { unfold firstPopulated in Hfirst. rewrite <- Hind in Hfirst.
    apply List.find_some in Hfirst. tauto. }
  assert (Hfind : List.find (fun idx => hasContent (blockAt pbk idx)) indices = Some p).
  { unfold firstPopulated in Hfirst. rewrite <- Hind in Hfirst. rewrite <- Hfirst.
    apply find_ext_in. intros idx Hidx. rewrite Hagree by exact Hidx. reflexivity. }
  assert (Hemp : List.filter (fun idx => negb (idx =? p) && isEmptyBlock (blockAt pbk idx))
                   indices = empties).
  { subst empties. unfold emptySiblings. rewrite <- Hind.
    apply List.filter_ext_in. intros idx Hidx. rewrite Hagree by exact Hidx. reflexivity. }
  assert (Hsub : forall idx, In idx empties -> In idx indices).
  { intros idx H. subst empties. unfold emptySiblings in H. rewrite <- Hind in H.
    apply List.filter_In in H. tauto. }
  destruct (processGroup_spec pbk indices p) as [Sp Se].
  - rewrite Hind. apply groupIndices_NoDup.
  - intros idx Hidx. rewrite Hlenk. rewrite Hind in Hidx.
    apply groupIndices_lt in Hidx. tauto.
  - rewrite Hind. exact Hlen.
  - exact Hfind.
  - rewrite Hagree by exact Hp. exact Hlines.
  - rewrite Hemp. exact Hempties.
  - rewrite Hemp in Se. rewrite (Hagree p Hp) in Sp, Se. fold lines in Sp, Se.
    rewrite Hout. split; [|split].
    + rewrite fold_processGroup_length, processGroup_length. exact Hlenk.
    + rewrite fold_processGroup_other
        by (intros l Hl; apply (Hdisj p Hp l); right; exact Hl).
      exact Sp.
    + intros i Hi.
      assert (Hni : In (nth i empties 0) indices) by (apply Hsub, nth_In_lt, Hi).
      rewrite fold_processGroup_other
        by (intros l Hl; apply (Hdisj _ Hni l); right; exact Hl).
      rewrite (Se i Hi), (Hagree _ Hni). reflexivity.
Qed.

Lemma redistribute_group_witness :
  map block_content (redistribute twoLineGroup) = [js "line1"; js "line2"].
Proof.
  destruct (redistribute_group twoLineGroup 1%Z 0) as [Hlen [Hp He]];
    [vm_compute; lia | reflexivity | vm_compute; lia | vm_compute; lia |].
  specialize (He 0 ltac:(vm_compute; lia)).
  remember (redistribute twoLineGroup) as out eqn:Eout.
  destruct out as [|b0 [|b1 [|b2 out]]]; cbn in Hlen; try lia.
  cbn in Hp, He. subst b0 b1. reflexivity.
Defined.

(** C3: the remaining lines are to go to the empty blocks that follow the
    populated one, as the comment above the loop says ("there are empty blocks
    following"). The code evaluated on a group of three blocks with the
    contents [''], ['a\nb'], ['']: the first populated block is the second,
    the block after it is empty, and yet the line ['b'] goes to the block
    before it, because [emptyIndices] only leaves out the populated block
    itself; the block after it stays empty and the text reads ['b'], ['a']. *)
Lemma line_goes_to_preceding_empty_block :
  groupIndices leadingEmptyGroup 1%Z = [0; 1; 2]
  /\ firstPopulated leadingEmptyGroup 1%Z = Some 1
  /\ contentLines (block_content (blockAt leadingEmptyGroup 1)) = [js "a"; js "b"]
  /\ isEmptyBlock (blockAt leadingEmptyGroup 2) = true
  /\ map block_content (redistribute leadingEmptyGroup) = [js "b"; js "a"; []]
  /\ block_content (blockAt (redistribute leadingEmptyGroup) 2) <> js "b".
Proof. repeat split; try reflexivity. cbn. discriminate. Qed.

End BlocksProps.

(** ** The PDF rasterizer *)

Module PdfProps.
Import Pdf.

Lemma validPageNum_range (n total : Z) :
  1 <= total ->
  1 <= validPageNum n total <= total
  /\ (1 <= n <= total -> validPageNum n total = n)
  /\ (n < 1 -> validPageNum n total = 1)
  /\ (total < n -> validPageNum n total = total).
Proof. unfold validPageNum. lia. Qed.

(** C10 as stated fails when rendering throws: the document has three
    pages, and the page count returned is 0. *)
Lemma render_failure_reports_zero_pages :
  numPages brokenPdf = 3
  /\ fst (renderPdfToImage (Some brokenPdf) 2) = {| dataUrl := None; totalPages := 0 |}
  /\ totalPages (fst (renderPdfToImage (Some brokenPdf) 2)) <> numPages brokenPdf.
Proof. repeat split. cbn. discriminate. Qed.

(** C10 (amended): for a loaded document with at least one page and any
    requested page [n], the only page fetched and rendered is
    [max(1, min(n, totalPages))], so a request out of range is served from the
    nearest valid page; the returned page count is the document's whenever no
    exception is caught (the page was rendered, or no 2D context was
    available), and 0 when fetching or rendering the page throws. *)
Theorem render_page_clamped (pdf : PdfDocument) (n : Z) :
  1 <= numPages pdf ->
  let k := validPageNum n (numPages pdf) in
  let img := fst (renderPdfToImage (Some pdf) n) in
  let calls := snd (renderPdfToImage (Some pdf) n) in
  (1 <= k <= numPages pdf
   /\ (1 <= n <= numPages pdf -> k = n)
   /\ (n < 1 -> k = 1)
   /\ (numPages pdf < n -> k = numPages pdf))
  /\ In (GetPage k) calls
  /\ (forall q, In (GetPage q) calls \/ In (Render q) calls -> q = k)
  /\ (getPageOk pdf k = true -> contextAvailable pdf = true -> renderOk pdf k = true ->
      In (Render k) calls
      /\ img = {| dataUrl := Some (pageDataUrl pdf k); totalPages := numPages pdf |})
  /\ (getPageOk pdf k = true -> contextAvailable pdf = false ->
      img = {| dataUrl := None; totalPages := numPages pdf |})
  /\ (getPageOk pdf k = false \/ (contextAvailable pdf = true /\ renderOk pdf k = false) ->
      img = {| dataUrl := None; totalPages := 0 |}).
Proof.
  intros Hn k img calls. split; [apply validPageNum_range, Hn|].
  subst img calls. unfold renderPdfToImage. fold k.
  destruct (getPageOk pdf k) eqn:Hg, (contextAvailable pdf) eqn:Hc, (renderOk pdf k) eqn:Hr;
    cbn [negb fst snd];
    (split; [cbn; tauto|]);
    (split; [intros q [H|H]; cbn in H; intuition congruence|]);
    repeat split; try discriminate; try (cbn; tauto);
    intros; intuition discriminate.
Qed.

Lemma render_page_clamped_witness :
  fst (renderPdfToImage (Some goodPdf) 7)
  = {| dataUrl := Some "data:page3"%string; totalPages := 3 |}.
Proof.
  destruct (render_page_clamped goodPdf 7) as [_ [_ [_ [H _]]]]; [cbn; lia|].
  apply H; reflexivity.
Defined.

End PdfProps.

(** ** File selection and submission *)

Module PageProps.
Import Types JobList Page.

(** C9: a file larger than 100 MB is rejected before anything is done with
    it: the state is unchanged, so no preview is produced and no job is
    created, and the only effect is the alert, so the file is not read, no
    upload URL is requested and no bytes are uploaded. *)
Theorem oversize_file_rejected (file : File) (content : FileContent) (s : PageState) :
  size file > 100 * 1024 * 1024 ->
  let s' := fst (handleFileSelect file content s) in
  let effects := snd (handleFileSelect file content s) in
  s' = s
  /\ previewUrl (files s') = previewUrl (files s)
  /\ imageData (files s') = imageData (files s)
  /\ jobs s' = jobs s
  /\ effects = [Alert (tooLargeMessage (size file))]
  /\ (imageData (files s) = None -> forall env, handleSubmit env s' = (s', [])).
Proof.
  intros Hsize. unfold handleFileSelect.
  replace (size file >? MAX_FILE_SIZE) with true
    by (symmetry; apply Z.gtb_lt; unfold MAX_FILE_SIZE; lia).
  cbn [fst snd]. repeat split.
  intros Hnone env. unfold handleSubmit. rewrite Hnone. reflexivity.
Qed.

Lemma oversize_file_rejected_witness :
  handleFileSelect hugeFile pngContent (initialState None)
  = (initialState None, [Alert "File is too large (100.0MB). Maximum size is 100MB."]).
Proof.
  destruct (oversize_file_rejected hugeFile pngContent (initialState None))
    as [Hs [_ [_ [_ [He _]]]]]; [unfold hugeFile, MAX_FILE_SIZE; cbn [size]; lia|].
  rewrite (surjective_pairing (handleFileSelect hugeFile pngContent (initialState None))).
  rewrite Hs, He. vm_compute. reflexivity.
Defined.

(** A file of exactly 100 MB is accepted. *)
Example file_at_limit_accepted :
  snd (handleFileSelect {| size := MAX_FILE_SIZE; type := "image/png"; name := "big.png" |}
         pngContent (initialState None))
  = [ReadDataURL].
Proof. reflexivity. Qed.

Lemma updateJob_length (i : string) (u : JobUpdates) (js : list OcrJob) :
  length (updateJob i u js) = length js.
Proof. unfold updateJob. apply length_map. Qed.

Lemma updateJob_ids (i : string) (u : JobUpdates) (js : list OcrJob) :
  map id (updateJob i u js) = map id js.
Proof.
  unfold updateJob. rewrite map_map. apply map_ext. intros j.
  destruct (String.eqb (id j) i); reflexivity.
Qed.

Lemma updateJob_failed_results (i : string) (js : list OcrJob) :
  map result (updateJob i failedUpdates js) = map result js.
Proof.
  unfold updateJob. rewrite map_map. apply map_ext. intros j.
  destruct (String.eqb (id j) i); reflexivity.
Qed.

Lemma updateJob_failed_processing (i : string) (js : list OcrJob) (j : OcrJob) :
  In j (updateJob i failedUpdates js) -> status j = processing -> In j js.
Proof.
  unfold updateJob. intros Hin Hst. apply in_map_iff in Hin as [j0 [E Hin]].
  destruct (String.eqb (id j0) i).
  - subst j. cbn in Hst. discriminate.
  - subst j. exact Hin.
Qed.

(** C5 as stated fails: after the refused upload there is no job at all, so
    none has been moved to failed. *)
Lemma refused_upload_leaves_no_failed_job :
  imageData (files readyState) <> None
  /\ jobs readyState = []
  /\ jobs (fst (handleSubmit uploadRefused readyState)) = []
  /\ ~ exists j, In j (jobs (fst (handleSubmit uploadRefused readyState)))
                 /\ status j = failed.
Proof.
  split; [discriminate|]. split; [reflexivity|]. split; [reflexivity|].
  intros [j [[] _]].
Qed.

(** C5 (amended): when the PUT to the signed URL fails, no job is created:
    the job list keeps its length, its ids and its results, no job is in
    processing that was not before, the OCR request is not sent and no
    poll is started; the processing flag is cleared and an alert is shown. *)
Theorem upload_failure_creates_no_job (env : SubmitEnv) (s : PageState) (image : ImageData)
  (upload_url s3_key : string) :
  imageData (files s) = Some image ->
  truthy_opt_string (apiUrl s) = true ->
  uploadResponse env = OkJson (upload_url, s3_key) ->
  s3UploadResponse env = Rejected \/ s3UploadResponse env = NotOk ->
  let s' := fst (handleSubmit env s) in
  let effects := snd (handleSubmit env s) in
  jobs s' = updateJob (localJobId (now env)) failedUpdates (jobs s)
  /\ length (jobs s') = length (jobs s)
  /\ map id (jobs s') = map id (jobs s)
  /\ map result (jobs s') = map result (jobs s)
  /\ (forall j, In j (jobs s') -> status j = processing -> In j (jobs s))
  /\ effects = [PostUpload (img_filename image); PutObject upload_url;
                Alert "Failed to submit OCR request. Please try again."]
  /\ (forall key, ~ In (PostOcr key) effects)
  /\ (forall jobId, ~ In (GetStatus jobId) effects)
  /\ isProcessing s' = false
  /\ timers s' = timers s /\ inflight s' = inflight s.
Proof.
  intros Himg Hapi Hup Hput.
  assert (E : handleSubmit env s
              = submitFailed (localJobId (now env))
                  (withProcessing s true (processingJobId s) (Some (now env)))
                  [PostUpload (img_filename image); PutObject upload_url]).
  { unfold handleSubmit. rewrite Himg. cbn [apiUrl withProcessing]. rewrite Hapi, Hup.
    cbn [negb]. destruct Hput as [-> | ->]; reflexivity. }
  rewrite E. unfold submitFailed. cbn.
  split; [reflexivity|]. split; [apply updateJob_length|].
  split; [apply updateJob_ids|]. split; [apply updateJob_failed_results|].
  split; [apply updateJob_failed_processing|]. split; [reflexivity|].
  split; [intros key [H|[H|[H|[]]]]; discriminate|].
  split; [intros j [H|[H|[H|[]]]]; discriminate|].
  repeat split.
Qed.

Lemma upload_failure_creates_no_job_witness :
  jobs (fst (handleSubmit uploadRefused readyState)) = []
  /\ snd (handleSubmit uploadRefused readyState)
     = [PostUpload "scan.png"; PutObject "https://bucket.example/put";
        Alert "Failed to submit OCR request. Please try again."].
Proof.
  destruct (upload_failure_creates_no_job uploadRefused readyState
              {| base64 := "AAAA"; img_filename := "scan.png" |}
              "https://bucket.example/put" "uploads/scan.png"
              eq_refl eq_refl eq_refl (or_intror eq_refl))
    as [Hj [_ [_ [_ [_ [He _]]]]]].
  split; [rewrite Hj; reflexivity | exact He].
Defined.

End PageProps.

(** ** Polling *)

Module PollingProps.
Import Types JobList Page.
Local Open Scope nat_scope.

Ltac break_match :=
  repeat match goal with
         | |- context [match ?x with _ => _ end] => destruct x eqn:?
         end.

Lemma handleFileSelect_browser (file : File) (content : FileContent) (s : PageState) :
  let s' := fst (handleFileSelect file content s) in
  timers s' = timers s /\ inflight s' = inflight s /\ isProcessing s' = isProcessing s.
Proof.
  unfold handleFileSelect. break_match; cbn; repeat split.
Qed.

(** What a submission does to the timers, the requests and the flag. *)
Lemma handleSubmit_browser (env : SubmitEnv) (s : PageState) :
  let s' := fst (handleSubmit env s) in
  timers s' = timers s
  /\ ((inflight s' = inflight s /\ (isProcessing s' = false \/ s' = s))
      \/ (exists j, ocrResponse env = OkJson j /\ inflight s' = inflight s ++ [j]
                    /\ isProcessing s' = true)).
Proof.
  unfold handleSubmit, submitFailed, pollJobStatus_call.
  destruct (imageData (files s)) as [image|]; [|cbn; auto].
  cbn [apiUrl withProcessing withJobs].
  destruct (truthy_opt_string (apiUrl s)) eqn:Hapi; cbn [negb]; [|cbn; auto].
  destruct (uploadResponse env) as [| |[upload_url s3_key]]; [cbn; auto | cbn; auto |].
  destruct (s3UploadResponse env); [cbn; auto | cbn; auto |].
  destruct (ocrResponse env) as [| |j]; [cbn; auto | cbn; auto |].
  cbn. split; [reflexivity|]. right. exists j. auto.
Qed.


Lemma handleSubmit_effects (env : SubmitEnv) (s : PageState) (jobId : string) :
  submitsJob jobId (Submit env) = false ->
  existsb (pollsJob jobId) (snd (handleSubmit env s)) = false.
Proof.
  unfold submitsJob, handleSubmit, submitFailed, pollJobStatus_call.
  destruct (imageData (files s)) as [image|]; [|reflexivity].
  cbn [apiUrl withProcessing withJobs].
  destruct (truthy_opt_string (apiUrl s)) eqn:Hapi; cbn [negb]; [|reflexivity].
  destruct (uploadResponse env) as [| |[upload_url s3_key]]; [reflexivity | reflexivity |].
  destruct (s3UploadResponse env); [reflexivity | reflexivity |].
  destruct (ocrResponse env) as [| |j]; [reflexivity | reflexivity |].
  intros Hj. cbn. rewrite Hj. reflexivity.
Qed.

(** At most one poll is under way, as a pending timer or as a request in
    flight, and none unless the page is processing. *)
Definition PageInv (s : PageState) : Prop :=
  length (timers s) + length (inflight s) <= 1
  /\ (isProcessing s = false -> timers s = [] /\ inflight s = []).

Lemma PageInv_initial (api : option string) : PageInv (initialState api).
Proof. split; cbn; [lia | auto]. Qed.

Lemma scheduleTimer_browser (jobId : string) (delay : Z) (s : PageState) :
  let s' := fst (scheduleTimer jobId delay s) in
  timers s' = timers s ++ [{| timer_id := nextTimer s; timer_job := jobId;
                              timer_delay := delay |}]
  /\ inflight s' = inflight s /\ isProcessing s' = isProcessing s
  /\ snd (scheduleTimer jobId delay s) = [SetTimeout jobId delay].
Proof. cbn. auto. Qed.

Lemma pollJobStatus_call_browser (jobId : string) (s : PageState) :
  let s' := fst (pollJobStatus_call jobId s) in
  timers s' = timers s /\ isProcessing s' = isProcessing s
  /\ (inflight s' = inflight s \/ inflight s' = inflight s ++ [jobId]).
Proof. unfold pollJobStatus_call. destruct (truthy_opt_string (apiUrl s)); cbn; auto. Qed.

Lemma some_pair {A B} (p : A * B) (a : A) (b : B) :
  Some p = Some (a, b) -> a = fst p /\ b = snd p.
Proof. intros [= ->]. auto. Qed.

Lemma fire_PageInv (e : Event) (s s' : PageState) (effects : list Effect) :
  PageInv s -> fire e s = Some (s', effects) -> PageInv s'.
Proof.
  intros [Hone Hidle] Hfire. destruct e as [file content|env|jobId response now|tid|resp|];
    cbn [fire] in Hfire.
  - destruct (mounted s && negb (isProcessing s)); [|discriminate].
    apply some_pair in Hfire as [-> _].
    pose proof (handleFileSelect_browser file content s) as [Ht [Hi Hp]]. cbn zeta in *.
    unfold PageInv. rewrite Ht, Hi, Hp. auto.
  - destruct (mounted s && negb (isProcessing s)) eqn:G; [|discriminate].
    apply andb_true_iff in G as [_ G]. apply negb_true_iff in G.
    destruct (Hidle G) as [T0 I0].
    apply some_pair in Hfire as [-> _].
    pose proof (handleSubmit_browser env s) as [Ht Hcase]. cbn zeta in *.
    unfold PageInv. rewrite Ht, T0.
    destruct Hcase as [[Hi _]|[j [_ [Hi Hp]]]]; rewrite Hi, I0.
    + split; [cbn; lia | auto].
    + split; [cbn; lia | rewrite Hp; discriminate].
  - destruct (existsb (String.eqb jobId) (inflight s)) eqn:G; [|discriminate].
    destruct (inflight s) as [|r [|r' rest]] eqn:Hin; [discriminate| |cbn in Hone; lia].
    destruct (timers s) as [|t ts] eqn:Hts; [|cbn in Hone; lia].
    cbn in G. rewrite orb_false_r in G. apply String.eqb_eq in G. subst r.
    assert (Hproc : isProcessing s = true).
    { destruct (isProcessing s); [reflexivity|]. destruct (Hidle eq_refl). discriminate. }
    apply some_pair in Hfire as [-> _]. unfold pollJobStatus_resume. rewrite Hin, Hts.
    cbn [removeFirst]. rewrite String.eqb_refl.
    destruct response as [| |data]; [| |destruct (data_status data)];
      unfold PageInv; cbn; (split; [lia|]);
      first [ solve [auto] | rewrite Hproc; discriminate ].
  - destruct (findTimer tid (timers s)) as [t|] eqn:Hfind; [|discriminate].
    apply some_pair in Hfire as [-> _].
    destruct (timers s) as [|t' [|t'' ts]] eqn:Hts; [discriminate| |cbn in Hone; lia].
    destruct (inflight s) as [|r rest] eqn:Hin; [|cbn in Hone; lia].
    unfold findTimer in Hfind. cbn in Hfind.
    destruct (Nat.eqb (timer_id t') tid) eqn:E; [|discriminate].
    assert (Hproc : isProcessing s = true).
    { destruct (isProcessing s); [reflexivity|]. destruct (Hidle eq_refl). discriminate. }
    unfold pollJobStatus_call. cbn [apiUrl withBrowser].
    destruct (truthy_opt_string (apiUrl s)); unfold PageInv; cbn; rewrite E; cbn;
      rewrite ?Hin, ?Hproc; (split; [cbn; lia | discriminate]).
  - destruct (mounted s); [|discriminate]. apply some_pair in Hfire as [-> _].
    unfold jobsFetched, PageInv. destruct resp; cbn; split; auto.
  - destruct (mounted s); [|discriminate]. apply some_pair in Hfire as [-> _].
    unfold unmount. cbn [pollTimeoutRef withMounted].
    unfold PageInv.
    destruct (pollTimeoutRef s) as [tid|]; [destruct (Nat.eqb tid 0)|]; cbn;
      try (split; solve [auto]); split.
    + pose proof (List.filter_length_le (fun t => negb (Nat.eqb (timer_id t) tid)) (timers s)).
      unfold dropTimer. lia.
    + intros Hp. destruct (Hidle Hp) as [-> ->]. auto.
Qed.

Lemma run_PageInv (events : list Event) (s s' : PageState) :
  PageInv s -> run events s = Some s' -> PageInv s'.
Proof.
  revert s. induction events as [|e events IH]; intros s Hinv Hrun; cbn in Hrun.
  - injection Hrun as <-. exact Hinv.
  - destruct (fire e s) as [[s1 effects]|] eqn:Hfire; [|discriminate].
    apply (IH s1); [eapply fire_PageInv; eauto | exact Hrun].
Qed.

Lemma reachable_PageInv (s : PageState) : reachable s -> PageInv s.
Proof.
  intros [api [events Hrun]]. eapply run_PageInv; [apply PageInv_initial | exact Hrun].
Qed.


(** *** A job that is no longer polled stays so *)

Definition NotPolled (jobId : string) (s : PageState) : Prop :=
  timersFor jobId s = [] /\ existsb (String.eqb jobId) (inflight s) = false.

Lemma handleFileSelect_effects (file : File) (content : FileContent) (s : PageState)
  (jobId : string) :
  existsb (pollsJob jobId) (snd (handleFileSelect file content s)) = false.
Proof. unfold handleFileSelect. break_match; reflexivity. Qed.

Lemma existsb_removeFirst (jobId j : string) (l : list string) :
  existsb (String.eqb jobId) l = false ->
  existsb (String.eqb jobId) (removeFirst j l) = false.
Proof.
  induction l as [|r l IH]; cbn; [reflexivity|]. intros H.
  apply orb_false_iff in H as [H1 H2].
  destruct (String.eqb r j); [exact H2|]. cbn. rewrite H1, IH by exact H2. reflexivity.
Qed.

Lemma filter_filter_nil {A} (P Q : A -> bool) (l : list A) :
  List.filter P l = [] -> List.filter P (List.filter Q l) = [].
Proof.
  induction l as [|a l IH]; cbn; [reflexivity|].
  destruct (P a) eqn:Pa; [discriminate|]. intros H.
  destruct (Q a); cbn; rewrite ?Pa; apply IH, H.
Qed.

Lemma filter_nil_In {A} (P : A -> bool) (l : list A) (a : A) :
  List.filter P l = [] -> In a l -> P a = false.
Proof.
  intros H Hin. destruct (P a) eqn:Pa; [|reflexivity].
  assert (In a (List.filter P l)) by (apply List.filter_In; auto).
  rewrite H in H0. destruct H0.
Qed.

Lemma existsb_snoc (jobId j : string) (l : list string) :
  existsb (String.eqb jobId) l = false -> String.eqb j jobId = false ->
  existsb (String.eqb jobId) (l ++ [j]) = false.
Proof.
  intros H1 H2. rewrite existsb_app, H1. cbn. rewrite String.eqb_sym, H2. reflexivity.
Qed.

Lemma timersFor_snoc (jobId j : string) (i : nat) (d : Z) (ts : list Timer) :
  List.filter (fun t => String.eqb (timer_job t) jobId) ts = [] ->
  String.eqb j jobId = false ->
  List.filter (fun t => String.eqb (timer_job t) jobId)
    (ts ++ [{| timer_id := i; timer_job := j; timer_delay := d |}]) = [].
Proof. intros H1 H2. rewrite List.filter_app, H1. cbn. rewrite H2. reflexivity. Qed.

Lemma fire_NotPolled (jobId : string) (e : Event) (s s' : PageState) (effects : list Effect) :
  NotPolled jobId s -> submitsJob jobId e = false -> fire e s = Some (s', effects) ->
  NotPolled jobId s' /\ existsb (pollsJob jobId) effects = false.
Proof.
  unfold NotPolled, timersFor. intros [Ht Hi] Hsub Hfire.
  destruct e as [file content|env|j response now|tid|resp|]; cbn [fire] in Hfire.
  - destruct (mounted s && negb (isProcessing s)); [|discriminate].
    apply some_pair in Hfire as [-> ->].
    pose proof (handleFileSelect_browser file content s) as [Ht' [Hi' _]]. cbn zeta in *.
    rewrite Ht', Hi'. auto using handleFileSelect_effects.
  - destruct (mounted s && negb (isProcessing s)); [|discriminate].
    apply some_pair in Hfire as [-> ->].
    pose proof (handleSubmit_browser env s) as [Ht' Hcase]. cbn zeta in *.
    rewrite Ht'. split; [|apply handleSubmit_effects, Hsub].
    split; [exact Ht|].
    destruct Hcase as [[Hi' _]|[b [Hb [Hi' _]]]]; rewrite Hi'; [exact Hi|].
    apply existsb_snoc; [exact Hi|]. cbn in Hsub. rewrite Hb in Hsub. exact Hsub.
  - destruct (existsb (String.eqb j) (inflight s)) eqn:G; [|discriminate].
    assert (Hne : String.eqb j jobId = false).
    { destruct (String.eqb_spec j jobId) as [->|]; [congruence | reflexivity]. }
    apply some_pair in Hfire as [-> ->]. unfold pollJobStatus_resume.
    pose proof (existsb_removeFirst jobId j (inflight s) Hi) as Hrem.
    destruct response as [| |data]; [| |destruct (data_status data)]; cbn;
      rewrite ?Hne; auto using timersFor_snoc.
  - destruct (findTimer tid (timers s)) as [t|] eqn:Hfind; [|discriminate].
    apply some_pair in Hfire as [-> ->].
    assert (Hne : String.eqb (timer_job t) jobId = false).
    { apply (filter_nil_In _ _ t Ht). apply List.find_some in Hfind. tauto. }
    unfold pollJobStatus_call. cbn [apiUrl withBrowser].
    destruct (truthy_opt_string (apiUrl s)); cbn; rewrite ?Hne;
      (split; [split|reflexivity]);
      auto using existsb_snoc; apply filter_filter_nil, Ht.
  - destruct (mounted s); [|discriminate]. apply some_pair in Hfire as [-> ->].
    unfold jobsFetched. destruct resp; cbn; auto.
  - destruct (mounted s); [|discriminate]. apply some_pair in Hfire as [-> ->].
    unfold unmount. cbn [pollTimeoutRef withMounted].
    destruct (pollTimeoutRef s) as [tid|]; [destruct (Nat.eqb tid 0)|]; cbn; auto.
    split; [split|reflexivity]; [apply filter_filter_nil, Ht | exact Hi].
Qed.

Lemma trace_NotPolled (jobId : string) (events : list Event) (s s' : PageState)
  (effects : list Effect) :
  NotPolled jobId s ->
  forallb (fun e => negb (submitsJob jobId e)) events = true ->
  trace events s = Some (s', effects) ->
  NotPolled jobId s' /\ existsb (pollsJob jobId) effects = false.
Proof.
  revert s effects. induction events as [|e events IH]; intros s effects Hnp Hsub Htr;
    cbn in Htr.
  - injection Htr as <- <-. auto.
  - cbn in Hsub. apply andb_true_iff in Hsub as [He Hsub]. apply negb_true_iff in He.
    destruct (fire e s) as [[s1 eff1]|] eqn:Hfire; [|discriminate].
    destruct (trace events s1) as [[s2 eff2]|] eqn:Htr1; [|discriminate].
    injection Htr as <- <-.
    destruct (fire_NotPolled jobId e s s1 eff1 Hnp He Hfire) as [Hnp1 Hef1].
    destruct (IH s1 eff2 Hnp1 Hsub Htr1) as [Hnp2 Hef2].
    split; [exact Hnp2|]. rewrite existsb_app, Hef1, Hef2. reflexivity.
Qed.

(** A state in which the status request of a job is in flight. *)
Lemma polling_state (jobId : string) (s : PageState) :
  reachable s -> existsb (String.eqb jobId) (inflight s) = true ->
  timers s = [] /\ inflight s = [jobId].
Proof.
  intros Hr Hin. destruct (reachable_PageInv s Hr) as [Hone _].
  destruct (inflight s) as [|r [|r' rest]]; [discriminate| |cbn in Hone; lia].
  destruct (timers s); [|cbn in Hone; lia].
  cbn in Hin. rewrite orb_false_r in Hin. apply String.eqb_eq in Hin. subst r. auto.
Qed.

(** C7: when the answer to a status request of a job arrives, a status other
    than completed or failed schedules exactly one next poll, 3000 ms later;
    a rejected request or a response that is not ok schedules exactly one,
    5000 ms later; completed or failed schedules none, leaves neither a timer
    nor a request behind, and from then on no timer and no status request for
    the job is ever issued again, as long as the server does not hand out the
    same job id to a later submission. *)
Theorem poll_loop_scheduling (jobId : string) (now : Z) (s : PageState) :
  reachable s ->
  existsb (String.eqb jobId) (inflight s) = true ->
  (forall data, data_status data = reported_other ->
     let r := pollJobStatus_resume jobId (OkJson data) now s in
     timers (fst r) = [{| timer_id := nextTimer s; timer_job := jobId; timer_delay := 3000 |}]
     /\ inflight (fst r) = []
     /\ snd r = [SetTimeout jobId 3000])
  /\
  (forall response, response = Rejected \/ response = NotOk ->
     let r := pollJobStatus_resume jobId response now s in
     timers (fst r) = [{| timer_id := nextTimer s; timer_job := jobId; timer_delay := 5000 |}]
     /\ inflight (fst r) = []
     /\ snd r = [SetTimeout jobId 5000])
  /\
  (forall data,
     data_status data = reported_completed \/ data_status data = reported_failed ->
     let r := pollJobStatus_resume jobId (OkJson data) now s in
     timers (fst r) = [] /\ inflight (fst r) = []
     /\ (forall j d, ~ In (SetTimeout j d) (snd r))
     /\ forall events s' effects,
          forallb (fun e => negb (submitsJob jobId e)) events = true ->
          trace events (fst r) = Some (s', effects) ->
          timersFor jobId s' = []
          /\ ~ In jobId (inflight s')
          /\ forall e, In e effects -> pollsJob jobId e = false).
Proof.
  intros Hr Hin. destruct (polling_state jobId s Hr Hin) as [Ht Hi].
  split; [|split].
  - intros data Hd r. subst r. unfold pollJobStatus_resume. rewrite Hd. cbn.
    rewrite Ht, Hi. cbn. rewrite String.eqb_refl. auto.
  - intros response [-> | ->] r; subst r; unfold pollJobStatus_resume; cbn;
      rewrite Ht, Hi; cbn; rewrite String.eqb_refl; auto.
  - intros data Hd r.
    assert (Hfst : timers (fst r) = [] /\ inflight (fst r) = []).
    { subst r. unfold pollJobStatus_resume.
      destruct Hd as [-> | ->]; cbn; rewrite Ht, Hi; cbn; rewrite String.eqb_refl; auto. }
    destruct Hfst as [Ht1 Hi1]. split; [exact Ht1|]. split; [exact Hi1|]. split.
    + intros j d. subst r. unfold pollJobStatus_resume.
      destruct Hd as [-> | ->]; cbn; [tauto|]. intros [H|[]]. discriminate.
    + intros events s' effects Hev Htr.
      assert (Hnp : NotPolled jobId (fst r)).
      { unfold NotPolled, timersFor. rewrite Ht1, Hi1. auto. }
      destruct (trace_NotPolled jobId events (fst r) s' effects Hnp Hev Htr) as [[H1 H2] H3].
      split; [exact H1|]. split.
      * intros Hj. assert (existsb (String.eqb jobId) (inflight s') = true).
        { apply existsb_exists. exists jobId. split; [exact Hj | apply String.eqb_refl]. }
        congruence.
      * intros e He. destruct (pollsJob jobId e) eqn:E; [|reflexivity].
        assert (existsb (pollsJob jobId) effects = true)
          by (apply existsb_exists; exists e; auto).
        congruence.
Qed.

End PollingProps.

(** ** Scheduling of polls *)

Module SchedulingProps.
Import Types JobList Page PollingProps.
Local Open Scope nat_scope.

Lemma pollingJ_reachable : reachable pollingJ.
Proof.
  exists (Some "https://api.example"%string),
    [SelectFile pngFile pngContent; Submit submitOk]. vm_compute. reflexivity.
Qed.

Lemma waitingForJ_reachable : reachable waitingForJ.
Proof.
  exists (Some "https://api.example"%string),
    [SelectFile pngFile pngContent; Submit submitOk;
     PollResponse "J" (OkJson stillProcessing) 1500].
  vm_compute. reflexivity.
Qed.

Lemma poll_loop_scheduling_witness :
  timers (fst (pollJobStatus_resume "J" (OkJson stillProcessing) 1500 pollingJ))
  = [{| timer_id := 1; timer_job := "J"; timer_delay := 3000 |}]
  /\ timers (fst (pollJobStatus_resume "J" NotOk 1500 pollingJ))
     = [{| timer_id := 1; timer_job := "J"; timer_delay := 5000 |}]
  /\ timers (fst (pollJobStatus_resume "J" (OkJson reportsCompleted) 1500 pollingJ)) = [].
Proof.
  assert (Hin : existsb (String.eqb "J") (inflight pollingJ) = true)
    by (vm_compute; reflexivity).
  destruct (poll_loop_scheduling "J" 1500 pollingJ pollingJ_reachable Hin) as [H1 [H2 H3]].
  split; [|split].
  - destruct (H1 stillProcessing eq_refl) as [H _]. rewrite H. vm_compute. reflexivity.
  - destruct (H2 NotOk (or_intror eq_refl)) as [H _]. rewrite H. vm_compute. reflexivity.
  - destruct (H3 reportsCompleted (or_introl eq_refl)) as [H _]. exact H.
Defined.

End SchedulingProps.

(** ** The polling hook *)

Module HookProps.
Import Types PollHook.
Local Open Scope nat_scope.

(** The browser runs exactly the interval the hook holds in [intervalRef]. *)
Definition HookInv (h : HookState) : Prop :=
  map interval_id (intervals h)
  = match intervalRef h with Some i => [i] | None => [] end
  /\ (forall i, intervalRef h = Some i -> i <> 0)
  /\ nextInterval h <> 0.

Lemma HookInv_initial (api : option string) : HookInv (initialHook api).
Proof. repeat split; cbn; try discriminate. Qed.

Lemma stopPolling_clears (h : HookState) :
  HookInv h ->
  intervals (stopPolling h) = [] /\ intervalRef (stopPolling h) = None
  /\ nextInterval (stopPolling h) = nextInterval h.
Proof.
  intros [Hint [Hnz _]]. unfold stopPolling.
  destruct (intervalRef h) as [i|] eqn:Href; cbn.
  - specialize (Hnz i eq_refl). apply Nat.eqb_neq in Hnz. rewrite Hnz. cbn.
    destruct (intervals h) as [|t [|t' ts]]; try discriminate.
    injection Hint as Hid. cbn. rewrite Hid, Nat.eqb_refl. auto.
  - destruct (intervals h); [auto | discriminate].
Qed.

Lemma stopPolling_HookInv (h : HookState) : HookInv h -> HookInv (stopPolling h).
Proof.
  intros Hinv. destruct (stopPolling_clears h Hinv) as [H1 [H2 H3]].
  destruct Hinv as [_ [_ Hn]]. unfold HookInv. rewrite H1, H2, H3.
  repeat split; [discriminate | exact Hn].
Qed.

Lemma pollStatus_call_keeps (h : HookState) :
  intervals (pollStatus_call h) = intervals h
  /\ intervalRef (pollStatus_call h) = intervalRef h
  /\ nextInterval (pollStatus_call h) = nextInterval h.
Proof.
  unfold pollStatus_call. destruct (jobIdRef h); [|auto].
  destruct (_ && _); cbn; auto.
Qed.

Section WithOptions.
Variable pollingInterval : Z.
Variable maxRetries : nat.

Lemma startPolling_intervals (jobId : string) (h : HookState) :
  HookInv h ->
  intervals (startPolling pollingInterval jobId h)
  = [{| interval_id := nextInterval h; interval_period := pollingInterval |}]
  /\ intervalRef (startPolling pollingInterval jobId h) = Some (nextInterval h)
  /\ nextInterval (startPolling pollingInterval jobId h) = S (nextInterval h).
Proof.
  intros Hinv. destruct (stopPolling_clears h Hinv) as [H1 [H2 H3]].
  unfold startPolling. cbn [intervals intervalRef nextInterval].
  match goal with
  | |- context [pollStatus_call ?x] =>
      destruct (pollStatus_call_keeps x) as [K1 [K2 K3]]; rewrite K1, K3
  end.
  cbn [intervals nextInterval]. rewrite H1, H3. auto.
Qed.

Lemma countRetry_HookInv (h : HookState) (message : string) :
  HookInv h -> HookInv (countRetry maxRetries h message).
Proof.
  intros Hinv. unfold countRetry. cbn [retriesRef setRetries].
  destruct (maxRetries <=? S (retriesRef h)).
  - apply stopPolling_HookInv. exact Hinv.
  - exact Hinv.
Qed.

Lemma hookFire_HookInv (e : HookEvent) (h h' : HookState) :
  HookInv h -> hookFire pollingInterval maxRetries e h = Some h' -> HookInv h'.
Proof.
  intros Hinv Hfire. destruct e as [jobId| |i|response|]; cbn [hookFire] in Hfire.
  - injection Hfire as <-.
    destruct (startPolling_intervals jobId h Hinv) as [H1 [H2 H3]].
    unfold HookInv. rewrite H1, H2, H3. cbn. destruct Hinv as [_ [_ Hn]].
    repeat split; [intros i [= <-]; exact Hn | discriminate].
  - injection Hfire as <-. apply stopPolling_HookInv, Hinv.
  - destruct (existsb _ _); [|discriminate]. injection Hfire as <-.
    destruct (pollStatus_call_keeps h) as [K1 [K2 K3]].
    unfold HookInv. rewrite K1, K2, K3. exact Hinv.
  - destruct (pending h) eqn:Hp; [discriminate|]. injection Hfire as <-.
    unfold pollStatus_resume.
    destruct response as [|data]; [|destruct (resp_status data)];
      first [apply countRetry_HookInv | apply stopPolling_HookInv]; exact Hinv.
  - injection Hfire as <-. apply stopPolling_HookInv, Hinv.
Qed.

Lemma hookRun_HookInv (events : list HookEvent) (h h' : HookState) :
  HookInv h -> hookRun pollingInterval maxRetries events h = Some h' -> HookInv h'.
Proof.
  revert h. induction events as [|e events IH]; intros h Hinv Hrun; cbn in Hrun.
  - injection Hrun as <-. exact Hinv.
  - destruct (hookFire pollingInterval maxRetries e h) as [h1|] eqn:Hfire; [|discriminate].
    apply (IH h1); [eapply hookFire_HookInv; eauto | exact Hrun].
Qed.

End WithOptions.

End HookProps.

(** ** One poll timer at a time *)

Module TimerProps.
Import Types Page.
Local Open Scope nat_scope.

(** The hook after two calls of [startPolling] for the same job. *)
Lemma restarted_hook_has_one_interval :
  PollHook.hookRun 3000 60 [PollHook.StartPolling "J"; PollHook.StartPolling "J"]
    (PollHook.initialHook (Some "https://api.example"%string))
  = Some (PollHook.startPolling 3000 "J"
            (PollHook.startPolling 3000 "J"
               (PollHook.initialHook (Some "https://api.example"%string)))).
Proof. reflexivity. Qed.

(** C4: in every state the page can reach, at most one poll timer is
    pending, hence at most one per job id. A poll cycle is started by a
    submission only, and a submission can happen only while no timer is
    pending and no status request is in flight, so that starting a cycle never
    puts a second timer beside a pending one. In the [useOcrResult] hook, at
    most one interval runs in every reachable state, and [startPolling] first
    clears the running one: after it, the interval it has just started is the
    only one. *)
Theorem one_poll_at_a_time :
  (forall s, reachable s ->
     length (timers s) <= 1
     /\ (forall jobId, length (timersFor jobId s) <= 1)
     /\ (forall env r, fire (Submit env) s = Some r -> timers s = [] /\ inflight s = []))
  /\
  (forall pollingInterval maxRetries api events h,
     PollHook.hookRun pollingInterval maxRetries events (PollHook.initialHook api) = Some h ->
     length (PollHook.intervals h) <= 1
     /\ forall jobId,
          PollHook.intervals (PollHook.startPolling pollingInterval jobId h)
          = [{| PollHook.interval_id := PollHook.nextInterval h;
                PollHook.interval_period := pollingInterval |}]).
Proof.
  split.
  - intros s Hr. destruct (PollingProps.reachable_PageInv s Hr) as [Hone Hidle].
    split; [lia|]. split.
    + intros jobId. unfold timersFor.
      pose proof (List.filter_length_le (fun t => String.eqb (timer_job t) jobId) (timers s)).
      lia.
    + intros env r Hfire. cbn [fire] in Hfire.
      destruct (mounted s && negb (isProcessing s)) eqn:G; [|discriminate].
      apply andb_true_iff in G as [_ G]. apply negb_true_iff in G. auto.
  - intros pollingInterval maxRetries api events h Hrun.
    assert (Hinv : HookProps.HookInv h).
    { eapply HookProps.hookRun_HookInv; [apply HookProps.HookInv_initial | exact Hrun]. }
    split.
    + destruct Hinv as [Hint _].
      rewrite <- (length_map PollHook.interval_id), Hint.
      destruct (PollHook.intervalRef h); cbn; lia.
    + intros jobId.
      destruct (HookProps.startPolling_intervals pollingInterval jobId h Hinv) as [H _].
      exact H.
Qed.

Lemma one_poll_at_a_time_witness :
  length (timersFor "J" waitingForJ) <= 1
  /\ length (PollHook.intervals
               (PollHook.startPolling 3000 "J"
                  (PollHook.startPolling 3000 "J"
                     (PollHook.initialHook (Some "https://api.example"%string))))) <= 1.
Proof.
  destruct one_poll_at_a_time as [Hpage Hhook]. split.
  - destruct (Hpage waitingForJ SchedulingProps.waitingForJ_reachable) as [_ [H _]].
    apply H.
  - destruct (Hhook 3000%Z 60 (Some "https://api.example"%string)
                [PollHook.StartPolling "J"; PollHook.StartPolling "J"] _
                restarted_hook_has_one_interval) as [H _].
    exact H.
Defined.

End TimerProps.

(** ** The job list *)

Module LifecycleProps.
Import Types JobList Lifecycle.




Lemma updateJob_In (i : string) (u : JobUpdates) (jobs : list OcrJob) (j' : OcrJob) :
  In j' (updateJob i u jobs) ->
  (In j' jobs /\ String.eqb (id j') i = false)
  \/ exists j, In j jobs /\ id j = i /\ j' = applyUpdates j u.
Proof.
  unfold updateJob. intros H. apply in_map_iff in H as [j [E Hin]].
  destruct (String.eqb (id j) i) eqn:Hid.
  - right. exists j. apply String.eqb_eq in Hid. auto.
  - left. subst j'. auto.
Qed.

Lemma updateJob_map_id (i : string) (u : JobUpdates) (jobs : list OcrJob) :
  map id (updateJob i u jobs) = map id jobs.
Proof.
  unfold updateJob. rewrite map_map. apply map_ext. intros j.
  destruct (String.eqb (id j) i); reflexivity.
Qed.









End LifecycleProps.

(** ** More on the overlays *)

Module OverlayExtra.
Import Types Overlay.
Local Open Scope Q_scope.

(** X1: no overlay is drawn before the image shown has finished loading:
    when the overlay toggle is off, when there is no preview URL, when the
    loaded URL is not the preview URL, or when the image element is missing,
    both overlay lists are empty. *)
Theorem no_overlay_unless_loaded getV5Bbox (v : ResultView) :
  showBbox v = false
  \/ truthy_opt_string (previewUrl v) = false
  \/ opt_string_eqb (loadedImageUrl v) (previewUrl v) = false
  \/ resultImageRef v = None ->
  structureOverlays v = [] /\ v5Overlays getV5Bbox v = [].
Proof.
  unfold structureOverlays, v5Overlays, overlaysEnabled.
  intros [H|[H|[H|H]]]; rewrite H.
  - rewrite !andb_false_r. split; reflexivity.
  - split; reflexivity.
  - rewrite !andb_false_r. split; reflexivity.
  - split.
    + rewrite andb_false_r. reflexivity.
    + destruct (_ && isV5Format v); [|reflexivity]. destruct (v5Data v); reflexivity.
Qed.

Lemma no_overlay_unless_loaded_witness :
  structureOverlays
    {| showBbox := true; previewUrl := Some "blob:new"%string;
       loadedImageUrl := Some "blob:old"%string;
       resultImageRef := Some halfSizeImage;
       resultData := structuredPayload [boxedBlock] |} = [].
Proof.
  apply (no_overlay_unless_loaded getV5Bbox_model
           {| showBbox := true; previewUrl := Some "blob:new"%string;
              loadedImageUrl := Some "blob:old"%string;
              resultImageRef := Some halfSizeImage;
              resultData := structuredPayload [boxedBlock] |}).
  right. right. left. reflexivity.
Defined.

(** X2: a structured result whose page width or height is missing or zero
    draws no rectangle, and nothing is divided by zero: every entry of the
    overlay list is null. *)
Theorem no_rectangle_without_page_size (v : ResultView) :
  truthy_opt_num (width (resultData v)) = false
  \/ truthy_opt_num (height (resultData v)) = false ->
  rendered (structureOverlays v) = []
  /\ forall idx o, nth_error (structureOverlays v) idx = Some o -> o = None.
Proof.
  intros Hdim.
  assert (Hnone : forall block, structureOverlay v block = None).
  { intros block. unfold structureOverlay. destruct (resultImageRef v); [|reflexivity].
    destruct Hdim as [H|H]; rewrite H; cbn [negb orb]; rewrite ?orb_true_r; reflexivity. }
  assert (Hall : forall o, In o (structureOverlays v) -> o = None).
  { unfold structureOverlays. destruct (_ && _); [|intros o []].
    intros o Hin. apply in_map_iff in Hin as [block [<- _]]. apply Hnone. }
  split.
  - unfold rendered. induction (structureOverlays v) as [|o l IH]; [reflexivity|].
    cbn. rewrite (Hall o) by (left; reflexivity). cbn. apply IH.
    intros o' Ho'. apply Hall. right. exact Ho'.
  - intros idx o Hn. apply Hall. eapply nth_error_In. exact Hn.
Qed.

Lemma no_rectangle_without_page_size_witness :
  rendered
    (structureOverlays
       (loadedView {| rec_texts := None; rec_boxes := None; rec_scores := None;
                      width := Some 0; height := Some 80;
                      parsing_res_list := Some [boxedBlock] |})) = [].
Proof.
  apply no_rectangle_without_page_size. left. reflexivity.
Defined.

(** The entry of the structure overlay list for a block, once the overlays
    are enabled and the page has a size. *)
Lemma structureOverlays_nth_style (v : ResultView) (imageEl : HTMLImageElement) (w h : Q)
  (idx : nat) (block : OcrBlock) :
  overlaysEnabled v = true -> isV5Format v = false -> resultImageRef v = Some imageEl ->
  width (resultData v) = Some w -> height (resultData v) = Some h ->
  ~ w == 0 -> ~ h == 0 ->
  nth_error (blocks v) idx = Some block ->
  nth_error (structureOverlays v) idx
  = Some (Some (mkStyle (block_bbox block) (clientWidth imageEl / w)
                  (clientHeight imageEl / h))).
Proof.
  intros Hen Hv5 Href Hw Hh Hw0 Hh0 Hb.
  unfold structureOverlays. rewrite Hen, Hv5, Href. cbn [negb andb].
  rewrite nth_error_map, Hb. cbn [option_map]. unfold structureOverlay.
  rewrite Href, Hw, Hh. cbn [truthy_opt_num].
  apply OverlayProps.truthy_num_iff in Hw0, Hh0. rewrite Hw0, Hh0. reflexivity.
Qed.

Lemma scale_nonneg (c w : Q) : 0 <= c -> 0 < w -> 0 <= c / w.
Proof.
  intros Hc Hw. unfold Qdiv. apply Qmult_le_0_compat; [exact Hc|].
  apply Qinv_le_0_compat, Qlt_le_weak, Hw.
Qed.

(** X3: on a page at least one unit wide and high, a block whose box has a
    non-negative origin and is not inverted is drawn with a non-negative
    position and a non-negative size: the rectangle is never given a negative
    width or height. *)
Theorem structure_overlay_not_negative (v : ResultView) (imageEl : HTMLImageElement)
  (w h : Q) (idx : nat) (block : OcrBlock) (x1 y1 x2 y2 : Q) :
  overlaysEnabled v = true ->
  isV5Format v = false ->
  resultImageRef v = Some imageEl ->
  width (resultData v) = Some w -> height (resultData v) = Some h ->
  1 <= w -> 1 <= h ->
  0 <= clientWidth imageEl -> 0 <= clientHeight imageEl ->
  nth_error (blocks v) idx = Some block ->
  block_bbox block = (x1, y1, x2, y2) ->
  0 <= x1 -> x1 <= x2 -> 0 <= y1 -> y1 <= y2 ->
  exists st,
    nth_error (structureOverlays v) idx = Some (Some st)
    /\ 0 <= style_left st /\ 0 <= style_top st
    /\ 0 <= style_width st /\ 0 <= style_height st.
Proof.
  intros Hen Hv5 Href Hw Hh Hw1 Hh1 Hcw Hch Hb Hbox Hx1 Hx12 Hy1 Hy12.
  assert (Hw0 : 0 < w) by (eapply Qlt_le_trans; [|exact Hw1]; reflexivity).
  assert (Hh0 : 0 < h) by (eapply Qlt_le_trans; [|exact Hh1]; reflexivity).
  exists (mkStyle (x1, y1, x2, y2) (clientWidth imageEl / w) (clientHeight imageEl / h)).
  split.
  { rewrite <- Hbox. apply structureOverlays_nth_style; try assumption.
    - intros E. rewrite E in Hw0. inversion Hw0.
    - intros E. rewrite E in Hh0. inversion Hh0. }
  cbn [mkStyle style_left style_top style_width style_height].
  pose proof (scale_nonneg _ _ Hcw Hw0) as Sx.
  pose proof (scale_nonneg _ _ Hch Hh0) as Sy.
  repeat split.
  - apply Qmult_le_0_compat; assumption.
  - apply Qmult_le_0_compat; assumption.
  - apply Qmult_le_0_compat; [|assumption]. unfold Qminus. rewrite <- Qle_minus_iff. exact Hx12.
  - apply Qmult_le_0_compat; [|assumption]. unfold Qminus. rewrite <- Qle_minus_iff. exact Hy12.
Qed.

Lemma structure_overlay_not_negative_witness :
  exists st,
    nth_error (structureOverlays (loadedView (structuredPayload [boxedBlock]))) 0
    = Some (Some st)
    /\ 0 <= style_left st /\ 0 <= style_top st
    /\ 0 <= style_width st /\ 0 <= style_height st.
Proof.
  apply (structure_overlay_not_negative (loadedView (structuredPayload [boxedBlock]))
           halfSizeImage 100 80 0%nat boxedBlock 10 20 30 60);
    try reflexivity; try discriminate.
Defined.

End OverlayExtra.

(** ** The crop of the selected block *)

Module CropProps.
Import Types Overlay Viewport Crop.
Local Open Scope Q_scope.

Lemma mathMax_lower (a b : Q) : a <= mathMax a b.
Proof.
  unfold mathMax. destruct (Qle_bool a b) eqn:E.
  - apply Qle_bool_iff, E.
  - apply Qle_refl.
Qed.

Lemma mathMin_upper (a b : Q) : mathMin a b <= b.
Proof.
  unfold mathMin. destruct (Qle_bool a b) eqn:E.
  - apply Qle_bool_iff, E.
  - apply Qle_refl.
Qed.

Lemma mathMin_left (a b : Q) : mathMin a b <= a.
Proof.
  unfold mathMin. destruct (Qle_bool a b) eqn:E.
  - apply Qle_refl.
  - apply Qlt_le_weak, Qnot_le_lt. intros H. apply Qle_bool_iff in H. congruence.
Qed.

Lemma Qle_bool_false_lt (a b : Q) : Qle_bool a b = false -> b < a.
Proof. intros E. apply Qnot_le_lt. intros H. apply Qle_bool_iff in H. congruence. Qed.

(** X4: for a loaded image (positive natural width and height), the region
    cut out for the preview of the selected block lies inside the image and
    is not empty: whenever a crop is produced, its origin is non-negative, its
    size is positive, and it ends no further than the natural width and
    height of the image. *)
Theorem crop_inside_image (img : HTMLImageElement) (structWidth structHeight : Q)
  (bbox : BBox) (r : CropRegion) :
  0 < naturalWidth img -> 0 < naturalHeight img ->
  selectedBlockCrop (Some img) structWidth structHeight bbox = Some r ->
  0 <= cropX r /\ 0 < cropW r /\ cropX r + cropW r <= naturalWidth img
  /\ 0 <= cropY r /\ 0 < cropH r /\ cropY r + cropH r <= naturalHeight img.
Proof.
  intros _ _. unfold selectedBlockCrop. destruct bbox as [[[x1 y1] x2] y2].
  destruct (Qeq_bool (naturalWidth img) 0); [discriminate|].
  cbn zeta.
  set (sx := naturalWidth img / orElse structWidth (naturalWidth img)).
  set (sy := naturalHeight img / orElse structHeight (naturalHeight img)).
  set (cx := mathMax 0 (x1 * sx)). set (cy := mathMax 0 (y1 * sy)).
  set (cw := mathMin ((x2 - x1) * sx) (naturalWidth img - cx)).
  set (ch := mathMin ((y2 - y1) * sy) (naturalHeight img - cy)).
  destruct (Qle_bool cw 0) eqn:Ew; [discriminate|].
  destruct (Qle_bool ch 0) eqn:Eh; [discriminate|].
  intros [= <-]. cbn [cropX cropY cropW cropH].
  apply Qle_bool_false_lt in Ew, Eh.
  pose proof (mathMin_upper ((x2 - x1) * sx) (naturalWidth img - cx)) as Hw.
  pose proof (mathMin_upper ((y2 - y1) * sy) (naturalHeight img - cy)) as Hh.
  fold cw in Hw. fold ch in Hh.
  repeat split; try assumption; try apply mathMax_lower.
  - apply (Qplus_le_r _ _ (- cx)). ring_simplify. 
    setoid_replace (-1 * cx + naturalWidth img) with (naturalWidth img - cx)
      using relation Qeq by ring. exact Hw.
  - apply (Qplus_le_r _ _ (- cy)). ring_simplify.
    setoid_replace (-1 * cy + naturalHeight img) with (naturalHeight img - cy)
      using relation Qeq by ring. exact Hh.
Qed.

Lemma crop_inside_image_witness :
  exists r,
    selectedBlockCrop (Some halfSizeImage) 200 160 (150, 100, 400, 120) = Some r
    /\ cropX r + cropW r <= 100 /\ cropY r + cropH r <= 80.
Proof.
  eexists. split; [reflexivity|].
  destruct (crop_inside_image halfSizeImage 200 160 (150, 100, 400, 120) _
              eq_refl eq_refl eq_refl)
    as [_ [_ [Hx [_ [_ Hy]]]]].
  split; [exact Hx | exact Hy].
Defined.

(** X5: a block whose box has no width or no height, or is inverted, gets no
    preview image, for any loaded image and any non-negative page size. *)
Theorem degenerate_box_has_no_crop (img : option HTMLImageElement)
  (structWidth structHeight x1 y1 x2 y2 : Q) :
  0 <= structWidth -> 0 <= structHeight ->
  (forall i, img = Some i -> 0 <= naturalWidth i /\ 0 < naturalHeight i) ->
  x2 <= x1 \/ y2 <= y1 ->
  selectedBlockCrop img structWidth structHeight (x1, y1, x2, y2) = None.
Proof.
  intros Hsw Hsh Himg Hdeg. unfold selectedBlockCrop.
  destruct img as [i|]; [|reflexivity].
  destruct (Himg i eq_refl) as [Hnw Hnh]. apply Qlt_le_weak in Hnh.
  destruct (Qeq_bool (naturalWidth i) 0); [reflexivity|].
  cbn zeta.
  assert (Hscale : forall n s, 0 <= n -> 0 <= s -> 0 <= n / orElse s n).
  { intros n s Hn Hs. unfold Qdiv. apply Qmult_le_0_compat; [exact Hn|].
    apply Qinv_le_0_compat. unfold orElse. destruct (truthy_num s); assumption. }
  assert (Hneg : forall a b s, b <= a -> 0 <= s -> (b - a) * s <= 0).
  { intros a b s Hab Hs.
    setoid_replace 0 with (0 * s) using relation Qeq by ring.
    apply Qmult_le_compat_r; [|exact Hs].
    apply (Qplus_le_r _ _ a). ring_simplify. exact Hab. }
  match goal with
  | |- (if ?c then _ else _) = None => assert (Hc : c = true); [|rewrite Hc; reflexivity]
  end.
  apply orb_true_iff. destruct Hdeg as [Hx|Hy]; [left|right]; apply Qle_bool_iff.
  - eapply Qle_trans; [apply mathMin_left|]. apply Hneg; [exact Hx | apply Hscale; assumption].
  - eapply Qle_trans; [apply mathMin_left|]. apply Hneg; [exact Hy | apply Hscale; assumption].
Qed.

Lemma degenerate_box_has_no_crop_witness :
  selectedBlockCrop (Some halfSizeImage) 100 80 (0, 0, 0, 0) = None.
Proof.
  apply degenerate_box_has_no_crop; try discriminate.
  - intros i [= <-]. split; [discriminate | reflexivity].
  - left. discriminate.
Defined.

End CropProps.

(** ** Zoom *)

Module ViewportProps.
Import Viewport.
Local Open Scope Q_scope.

Definition inZoomRange (z : Q) : Prop := (25 # 100) <= z /\ z <= 3.

Lemma mathMin_cases (a b : Q) : (mathMin a b = a /\ a <= b) \/ (mathMin a b = b /\ b < a).
Proof.
  unfold mathMin. destruct (Qle_bool a b) eqn:E.
  - left. split; [reflexivity | apply Qle_bool_iff, E].
  - right. split; [reflexivity|]. apply Qnot_le_lt. intros H.
    apply Qle_bool_iff in H. congruence.
Qed.

Lemma mathMax_cases (a b : Q) : (mathMax a b = b /\ a <= b) \/ (mathMax a b = a /\ b < a).
Proof.
  unfold mathMax. destruct (Qle_bool a b) eqn:E.
  - left. split; [reflexivity | apply Qle_bool_iff, E].
  - right. split; [reflexivity|]. apply Qnot_le_lt. intros H.
    apply Qle_bool_iff in H. congruence.
Qed.

Lemma clamp_in_range (x : Q) : inZoomRange (mathMin (mathMax x (25 # 100)) 3).
Proof.
  unfold inZoomRange.
  destruct (mathMax_cases x (25 # 100)) as [[-> H1]|[-> H1]];
    match goal with |- context [mathMin ?a 3] =>
      destruct (mathMin_cases a 3) as [[-> H2]|[-> H2]] end;
    split; try assumption; try discriminate; try (apply Qlt_le_weak; assumption);
    try apply Qle_refl.
Qed.

Lemma zoomStep_in_range (e : ZoomEvent) (z : Q) : inZoomRange z -> inZoomRange (zoomStep e z).
Proof.
  intros [Hlo Hhi]. destruct e as [| | |c m d]; cbn [zoomStep].
  - unfold handleZoomIn, inZoomRange.
    destruct (mathMin_cases (z + (25 # 100)) 3) as [[-> H]|[-> H]].
    + split; [|exact H].
      setoid_replace (25 # 100) with ((25 # 100) + 0) using relation Qeq at 1 by ring.
      rewrite (Qplus_comm z). apply Qplus_le_compat; [apply Qle_refl|].
      eapply Qle_trans; [|exact Hlo]. discriminate.
    + split; [discriminate | apply Qle_refl].
  - unfold handleZoomOut, inZoomRange.
    destruct (mathMax_cases (z - (25 # 100)) (25 # 100)) as [[-> H]|[-> H]].
    + split; [apply Qle_refl | discriminate].
    + split; [apply Qlt_le_weak, H|].
      eapply Qle_trans; [|exact Hhi].
      setoid_replace z with (z - 0) using relation Qeq at 2 by ring.
      unfold Qminus. apply Qplus_le_compat; [apply Qle_refl | discriminate].
  - cbn. split; discriminate.
  - unfold handleWheel. destruct (c || m); [apply clamp_in_range | split; assumption].
Qed.

(** X6: the zoom level never leaves the range from 0.25 to 3, whatever the
    sequence of zoom buttons, fit resets and wheel notches. *)
Theorem zoom_stays_in_range (events : list ZoomEvent) :
  (25 # 100) <= zoomAfter events /\ zoomAfter events <= 3.
Proof.
  unfold zoomAfter.
  assert (H : forall z, inZoomRange z -> inZoomRange (fold_left (fun z e => zoomStep e z) events z)).
  { induction events as [|e events IH]; intros z Hz; cbn [fold_left]; [exact Hz|].
    apply IH, zoomStep_in_range, Hz. }
  apply H. split; discriminate.
Qed.

End ViewportProps.

(** ** Redistribution: what it leaves alone *)

Module RedistributionProps.
Import Types Blocks.
Local Open Scope nat_scope.

(** Two blocks that differ at most in their text. *)
Definition sameLayout (b b' : OcrBlock) : Prop :=
  block_label b' = block_label b /\ block_bbox b' = block_bbox b
  /\ block_id b' = block_id b /\ block_order b' = block_order b
  /\ group_id b' = group_id b.

Lemma sameLayout_refl (b : OcrBlock) : sameLayout b b.
Proof. repeat split. Qed.

Lemma sameLayout_trans (a b c : OcrBlock) : sameLayout a b -> sameLayout b c -> sameLayout a c.
Proof.
  unfold sameLayout. intros [A1 [A2 [A3 [A4 A5]]]] [B1 [B2 [B3 [B4 B5]]]].
  repeat split; congruence.
Qed.

Lemma blockAt_insert_ge (l : list OcrBlock) (i j : nat) (x : OcrBlock) :
  length l <= i -> blockAt (<[i:=x]> l) j = blockAt l j.
Proof. intros H. rewrite list_insert_ge by exact H. reflexivity. Qed.

Lemma insert_sameLayout (pb : list OcrBlock) (target : nat) (c : jsstring) (idx : nat) :
  sameLayout (blockAt pb idx)
    (blockAt (<[target := withContent (blockAt pb target) c]> pb) idx).
Proof.
  destruct (Nat.eq_dec target idx) as [->|Hne].
  - destruct (Nat.lt_ge_cases idx (length pb)) as [Hlt|Hge].
    + rewrite BlocksProps.blockAt_insert_eq by exact Hlt. repeat split.
    + rewrite blockAt_insert_ge by exact Hge. apply sameLayout_refl.
  - rewrite BlocksProps.blockAt_insert_ne by exact Hne. apply sameLayout_refl.
Qed.

Lemma distributeLines_sameLayout (empties : list nat) (rest : list jsstring) (i0 : nat)
  (pb : list OcrBlock) (idx : nat) :
  sameLayout (blockAt pb idx) (blockAt (distributeLines empties rest i0 pb) idx).
Proof.
  revert i0 pb. induction rest as [|line rest IH]; intros i0 pb; cbn [distributeLines].
  - apply sameLayout_refl.
  - destruct (i0 <? length empties).
    + eapply sameLayout_trans; [apply insert_sameLayout | apply IH].
    + apply IH.
Qed.

Lemma processGroup_sameLayout (pb : list OcrBlock) (indices : list nat) (idx : nat) :
  sameLayout (blockAt pb idx) (blockAt (processGroup pb indices) idx).
Proof.
  unfold processGroup.
  destruct (length indices <=? 1); [apply sameLayout_refl|].
  destruct (List.find _ indices) as [p|]; [|apply sameLayout_refl].
  destruct (1 <? length _); [|apply sameLayout_refl].
  destruct (0 <? length _); [|apply sameLayout_refl].
  eapply sameLayout_trans; [apply insert_sameLayout | apply distributeLines_sameLayout].
Qed.

Lemma fold_processGroup_sameLayout (groups : list (list nat)) (pb : list OcrBlock)
  (idx : nat) :
  sameLayout (blockAt pb idx) (blockAt (fold_left processGroup groups pb) idx).
Proof.
  revert pb. induction groups as [|g groups IH]; intros pb; cbn [fold_left].
  - apply sameLayout_refl.
  - eapply sameLayout_trans; [apply processGroup_sameLayout | apply IH].
Qed.

(** The cases in which [processGroup] returns its argument. *)
Lemma processGroup_id (pb : list OcrBlock) (indices : list nat) :
  length indices <= 1
  \/ List.find (fun idx => hasContent (blockAt pb idx)) indices = None
  \/ (exists p,
        List.find (fun idx => hasContent (blockAt pb idx)) indices = Some p
        /\ (length (contentLines (block_content (blockAt pb p))) <= 1
            \/ List.filter (fun idx => negb (idx =? p) && isEmptyBlock (blockAt pb idx))
                 indices = [])) ->
  processGroup pb indices = pb.
Proof.
  unfold processGroup. intros [H|[H|[p [H [H'|H']]]]].
  - replace (length indices <=? 1) with true by (symmetry; apply Nat.leb_le; exact H).
    reflexivity.
  - rewrite H. destruct (length indices <=? 1); reflexivity.
  - rewrite H. destruct (length indices <=? 1); [reflexivity|].
    replace (1 <? length _) with false by (symmetry; apply Nat.ltb_ge; exact H').
    reflexivity.
  - rewrite H, H'. destruct (length indices <=? 1); [reflexivity|].
    destruct (1 <? length _); reflexivity.
Qed.

(** A block of the group that has text of its own and is not the one whose
    lines are handed out keeps its text. *)
Lemma processGroup_populated (pb : list OcrBlock) (indices : list nat) (p idx : nat) :
  List.find (fun idx => hasContent (blockAt pb idx)) indices = Some p ->
  idx <> p -> isEmptyBlock (blockAt pb idx) = false ->
  blockAt (processGroup pb indices) idx = blockAt pb idx.
Proof.
  intros Hfind Hne Hfull. unfold processGroup. rewrite Hfind.
  destruct (length indices <=? 1); [reflexivity|].
  destruct (1 <? length _); [|reflexivity].
  destruct (0 <? length _); [|reflexivity].
  rewrite BlocksProps.distributeLines_other.
  - apply BlocksProps.blockAt_insert_ne. congruence.
  - intros Hin. apply List.filter_In in Hin as [_ Hb].
    apply andb_true_iff in Hb as [_ Hb]. congruence.
Qed.

(** X7: redistributing the lines moves text only: the list keeps its
    length, and every block keeps its label, box, id, order and group; only
    [block_content] may differ. *)
Theorem redistribute_changes_text_only (blocks : list OcrBlock) (idx : nat) :
  let out := redistribute blocks in
  length out = length blocks
  /\ block_label (blockAt out idx) = block_label (blockAt blocks idx)
  /\ block_bbox (blockAt out idx) = block_bbox (blockAt blocks idx)
  /\ block_id (blockAt out idx) = block_id (blockAt blocks idx)
  /\ block_order (blockAt out idx) = block_order (blockAt blocks idx)
  /\ group_id (blockAt out idx) = group_id (blockAt blocks idx).
Proof.
  cbn zeta. split; [apply BlocksProps.fold_processGroup_length|].
  apply (fold_processGroup_sameLayout (map snd (buildGroupMap blocks 0 [])) blocks idx).
Qed.

(** X8: the blocks the redistribution leaves as they are. A block keeps
    its text when its group has a single block, or no block with text, or
    when the first block with text has fewer than two non-blank lines or the
    group has no empty block besides it; and in a group whose lines are
    handed out, every block other than the first populated one that has text
    of its own keeps it. *)
Theorem redistribute_leaves_alone (blocks : list OcrBlock) (g : Z) (idx : nat) :
  In idx (groupIndices blocks g) ->
  length (groupIndices blocks g) <= 1
  \/ firstPopulated blocks g = None
  \/ (exists p,
        firstPopulated blocks g = Some p
        /\ (length (contentLines (block_content (blockAt blocks p))) <= 1
            \/ emptySiblings blocks g p = []
            \/ (idx <> p /\ isEmptyBlock (blockAt blocks idx) = false))) ->
  blockAt (redistribute blocks) idx = blockAt blocks idx.
Proof.
  intros Hidx Hcase.
  destruct (BlocksProps.buildGroupMap_spec blocks) as [Hnd [Hspec Hmiss]].
  assert (Hkey : In g (map fst (buildGroupMap blocks 0 []))).
  { destruct (in_dec Z.eq_dec g (map fst (buildGroupMap blocks 0 []))) as [H|H];
      [exact H|]. rewrite (Hmiss g H) in Hidx. destruct Hidx. }
  apply in_map_iff in Hkey as [[g' indices] [E Hin]]. cbn in E. subst g'.
  pose proof (Hspec g indices Hin) as Hind.
  destruct (in_split _ _ Hin) as [gm1 [gm2 Hgm]].
  pose proof (BlocksProps.other_groups_disjoint blocks gm1 gm2 g indices Hgm) as Hdisj.
  set (pbk := fold_left processGroup (map snd gm1) blocks).
  assert (Hout : redistribute blocks
                 = fold_left processGroup (map snd gm2) (processGroup pbk indices)).
  { subst pbk. unfold redistribute. rewrite Hgm, map_app, fold_left_app. reflexivity. }
  assert (Hagree : forall i, In i indices -> blockAt pbk i = blockAt blocks i).
  { intros i Hi. apply BlocksProps.fold_processGroup_other.
    intros l Hl. apply (Hdisj i Hi l). left. exact Hl. }
  rewrite <- Hind in Hidx.
  assert (Hfind : List.find (fun i => hasContent (blockAt pbk i)) indices
                  = firstPopulated blocks g).
  { unfold firstPopulated. rewrite <- Hind. apply BlocksProps.find_ext_in.
    intros i Hi. rewrite Hagree by exact Hi. reflexivity. }
  assert (Hemp : forall p,
             List.filter (fun i => negb (i =? p) && isEmptyBlock (blockAt pbk i)) indices
             = emptySiblings blocks g p).
  { intros p. unfold emptySiblings. rewrite <- Hind. apply List.filter_ext_in.
    intros i Hi. rewrite Hagree by exact Hi. reflexivity. }
  rewrite Hout, BlocksProps.fold_processGroup_other
    by (intros l Hl; apply (Hdisj idx Hidx l); right; exact Hl).
  rewrite <- (Hagree idx Hidx).
  destruct Hcase as [H|[H|[p [Hp [H|[H|[Hne Hfull]]]]]]].
  - rewrite processGroup_id; [reflexivity|]. left. rewrite Hind. exact H.
  - rewrite processGroup_id; [reflexivity|]. right. left. rewrite Hfind. exact H.
  - rewrite processGroup_id; [reflexivity|]. right. right. exists p.
    split; [rewrite Hfind; exact Hp|]. left. rewrite Hagree; [exact H|].
    unfold firstPopulated in Hp. rewrite <- Hind in Hp.
    apply List.find_some in Hp. tauto.
  - rewrite processGroup_id; [reflexivity|]. right. right. exists p.
    split; [rewrite Hfind; exact Hp|]. right. rewrite Hemp. exact H.
  - apply processGroup_populated with (p := p); [rewrite Hfind; exact Hp | exact Hne|].
    rewrite Hagree by exact Hidx. exact Hfull.
Qed.

Lemma redistribute_leaves_alone_witness :
  blockAt (redistribute [textBlock 0 1 (js "one line"); textBlock 1 1 []]) 1
  = textBlock 1 1 [].
Proof.
  apply (redistribute_leaves_alone
           [textBlock 0 1 (js "one line"); textBlock 1 1 []] 1%Z 1).
  - vm_compute. right. left. reflexivity.
  - right. right. exists 0. split; [vm_compute; reflexivity|]. left. vm_compute. lia.
Defined.

End RedistributionProps.

(** ** The Markdown text *)

Module MarkdownProps.
Import Types Blocks Markdown.

Lemma truthy_app_l (a b : jsstring) : truthy_str a = true -> truthy_str (a ++ b) = true.
Proof. destruct a; [discriminate | reflexivity]. Qed.

(** A block contributes a paragraph exactly when it has text. *)
Lemma blockMarkdown_truthy (block : OcrBlock) :
  truthy_str (blockMarkdown block) = hasContent block.
Proof.
  unfold blockMarkdown, hasContent, stripEnds.
  destruct (block_content block) as [|c s] eqn:E.
  - reflexivity.
  - cbn [truthy_str andb].
    destruct (truthy_str (trim (c :: s))) eqn:T; cbn [negb]; [|reflexivity].
    repeat (destruct (String.eqb _ _); [reflexivity|]).
    exact T.
Qed.

Lemma paragraphs_of_populated (blocks : list OcrBlock) :
  List.filter truthy_str (map blockMarkdown blocks)
  = map blockMarkdown (List.filter hasContent blocks).
Proof.
  induction blocks as [|b blocks IH]; [reflexivity|].
  cbn [map List.filter]. rewrite blockMarkdown_truthy.
  destruct (hasContent b); cbn [map]; rewrite IH; reflexivity.
Qed.

Lemma join_nil_iff (sep : jsstring) (arr : list jsstring) :
  (forall x, In x arr -> truthy_str x = true) ->
  (join sep arr = [] <-> arr = []).
Proof.
  intros Hall. split; [|intros ->; reflexivity].
  destruct arr as [|x rest]; [reflexivity|]. intros H.
  assert (Hx : truthy_str x = true) by (apply Hall; left; reflexivity).
  destruct x as [|c x]; [discriminate|].
  destruct rest; discriminate.
Qed.

Lemma trimStart_head (s : jsstring) (c : N) (r : jsstring) :
  trimStart s = c :: r -> isWhiteSpace c = false.
Proof.
  induction s as [|a s IH]; cbn [trimStart]; [discriminate|].
  destruct (isWhiteSpace a) eqn:E; [exact IH|].
  intros H. injection H as <- _. exact E.
Qed.

Lemma trimStart_suffix (s : jsstring) : exists ws, s = ws ++ trimStart s.
Proof.
  induction s as [|a s [ws IH]]; [exists []; reflexivity|].
  cbn [trimStart]. destruct (isWhiteSpace a).
  - exists (a :: ws). cbn. f_equal. exact IH.
  - exists []. reflexivity.
Qed.

(** The trimmed text begins and ends with a character that is not white
    space. *)
Lemma trim_ends (s : jsstring) (c : N) (r : jsstring) :
  (trim s = c :: r -> isWhiteSpace c = false)
  /\ (rev (trim s) = c :: r -> isWhiteSpace c = false).
Proof.
  unfold trim. split.
  - intros H. destruct (trimStart_suffix (rev (trimStart s))) as [ws Hws].
    assert (E : trimStart s = rev (trimStart (rev (trimStart s))) ++ rev ws).
    { rewrite <- rev_app_distr, <- Hws, rev_involutive. reflexivity. }
    rewrite H in E. cbn in E. apply trimStart_head in E. exact E.
  - rewrite rev_involutive. apply trimStart_head.
Qed.

Definition textAtBothEnds (p : jsstring) : Prop :=
  (exists c r, p = c :: r /\ isWhiteSpace c = false)
  /\ (exists c r, rev p = c :: r /\ isWhiteSpace c = false).

Lemma trim_textAtBothEnds (s : jsstring) :
  truthy_str (trim s) = true -> textAtBothEnds (trim s).
Proof.
  intros H. split.
  - destruct (trim s) as [|c r] eqn:E; [discriminate|].
    exists c, r. split; [reflexivity|]. apply (proj1 (trim_ends s c r)). exact E.
  - destruct (rev (trim s)) as [|c r] eqn:E.
    + apply (f_equal (@rev N)) in E. rewrite rev_involutive in E. rewrite E in H. discriminate.
    + exists c, r. split; [reflexivity|]. apply (proj2 (trim_ends s c r)). exact E.
Qed.

Lemma wrapped_textAtBothEnds (pre post content : jsstring) (a b : N) (pre' post' : jsstring) :
  pre = a :: pre' -> isWhiteSpace a = false ->
  (post = [] \/ (rev post = b :: post' /\ isWhiteSpace b = false)) ->
  textAtBothEnds content -> textAtBothEnds (pre ++ content ++ post).
Proof.
  intros -> Ha Hpost [_ [c [r [Hrev Hc]]]]. split.
  - exists a, (pre' ++ content ++ post). split; [reflexivity | exact Ha].
  - rewrite !rev_app_distr. destruct Hpost as [->|[Hp Hb]].
    + cbn [rev app]. rewrite Hrev. exists c, (r ++ rev (a :: pre')).
      split; [reflexivity | exact Hc].
    + rewrite Hp. exists b, (post' ++ rev content ++ rev (a :: pre')).
      split; [rewrite <- app_assoc; reflexivity | exact Hb].
Qed.

Lemma blockMarkdown_ends (b : OcrBlock) :
  hasContent b = true -> String.eqb (block_label b) "table" = false ->
  textAtBothEnds (blockMarkdown b).
Proof.
  intros Hc Ht. unfold hasContent in Hc. apply andb_true_iff in Hc as [_ Hc].
  pose proof (trim_textAtBothEnds _ Hc) as He.
  unfold blockMarkdown, stripEnds. rewrite Hc. cbn [negb].
  destruct (String.eqb (block_label b) "doc_title").
  { rewrite <- (app_nil_r (trim _)).
    eapply wrapped_textAtBothEnds with (b := 0%N) (post' := []);
      [reflexivity | reflexivity | left; reflexivity | exact He]. }
  destruct (String.eqb (block_label b) "paragraph_title").
  { rewrite <- (app_nil_r (trim _)).
    eapply wrapped_textAtBothEnds with (b := 0%N) (post' := []);
      [reflexivity | reflexivity | left; reflexivity | exact He]. }
  destruct (String.eqb (block_label b) "header").
  { eapply wrapped_textAtBothEnds; [reflexivity | reflexivity | right | exact He].
    split; reflexivity. }
  rewrite Ht. exact He.
Qed.

(** X9: blocks without text leave no trace in the Markdown: the text is
    that of the blocks with content alone, the join with a blank line of one
    non-empty paragraph for each of them. The paragraph of a block that is not
    a table begins and ends with a character that is not white space; a table
    keeps its content untrimmed, so that line breaks at its ends reach the
    text. *)
Theorem markdown_skips_blank_blocks (blocks : list OcrBlock) :
  generateMarkdown blocks = generateMarkdown (List.filter hasContent blocks)
  /\ generateMarkdown blocks
     = join [LF; LF] (map blockMarkdown (List.filter hasContent blocks))
  /\ (forall b, In b (List.filter hasContent blocks) -> blockMarkdown b <> [])
  /\ (forall b,
        In b (List.filter hasContent blocks) ->
        String.eqb (block_label b) "table" = false ->
        (exists c r, blockMarkdown b = c :: r /\ isWhiteSpace c = false)
        /\ (exists c r, rev (blockMarkdown b) = c :: r /\ isWhiteSpace c = false)).
Proof.
  assert (E : generateMarkdown blocks
              = join [LF; LF] (map blockMarkdown (List.filter hasContent blocks))).
  { unfold generateMarkdown. rewrite paragraphs_of_populated. reflexivity. }
  split; [|split; [|split]].
  - rewrite E. unfold generateMarkdown. rewrite paragraphs_of_populated.
    f_equal. f_equal. symmetry. apply List.forallb_filter_id.
    apply forallb_forall. intros b Hb. apply List.filter_In in Hb. tauto.
  - exact E.
  - intros b Hb Hnil. apply List.filter_In in Hb as [_ Hb].
    rewrite <- blockMarkdown_truthy, Hnil in Hb. discriminate.
  - intros b Hb Ht. apply List.filter_In in Hb as [_ Hb].
    apply blockMarkdown_ends; assumption.
Qed.

(** A table after a paragraph: the line breaks its content begins with
    follow the separator. *)
Example table_keeps_its_line_breaks :
  generateMarkdown
    [textBlock 0 0 (js "a");
     {| block_label := "table"%string; block_content := [LF; LF] ++ js "T";
        block_bbox := (0, 0, 10, 10)%Q; block_id := 1%Z; block_order := None;
        group_id := 1%Z |}]
  = js "a" ++ [LF; LF] ++ [LF; LF] ++ js "T".
Proof. reflexivity. Qed.

(** X10: the Markdown is the empty string exactly when no block has text. *)
Theorem markdown_empty_iff (blocks : list OcrBlock) :
  generateMarkdown blocks = [] <-> forall b, In b blocks -> hasContent b = false.
Proof.
  unfold generateMarkdown. rewrite join_nil_iff.
  - rewrite paragraphs_of_populated. split.
    + intros H b Hb. destruct (hasContent b) eqn:E; [|reflexivity].
      assert (Hin : In b (List.filter hasContent blocks))
        by (apply List.filter_In; split; assumption).
      apply (in_map blockMarkdown) in Hin. rewrite H in Hin. destruct Hin.
    + intros H. induction blocks as [|b blocks IH]; [reflexivity|].
      cbn [List.filter]. rewrite (H b) by (left; reflexivity).
      apply IH. intros b' Hb'. apply H. right. exact Hb'.
  - intros x Hx. apply List.filter_In in Hx. tauto.
Qed.

End MarkdownProps.

(** ** Which job [getResultData] reads *)

Module ResolveProps.
Import Types JobList Envelope.

Lemma findJob_Some (jobs : list OcrJob) (wanted : option string) (job : OcrJob) :
  findJob jobs wanted = Some job -> In job jobs /\ wanted = Some (id job).
Proof.
  destruct wanted as [w|]; [|discriminate]. cbn [findJob]. intros H.
  apply List.find_some in H as [Hin E]. apply String.eqb_eq in E. subst w. tauto.
Qed.

(** X11: the job whose result is shown is the current job when the list
    has it, and otherwise the job being processed when there is one; the
    third lookup, by the current id again, never finds a job the first one
    missed. The job read is in the list under one of the two ids, and
    without such a job there is no result, whatever the page number. *)
Theorem shown_job_is_current_else_processing (jobs : list OcrJob)
  (currentJobId processingJobId : option string) (currentPdfPage : Z) :
  resolveJob jobs currentJobId processingJobId
  = match findJob jobs currentJobId with
    | Some job => Some job
    | None => if truthy_opt_string processingJobId then findJob jobs processingJobId
              else None
    end
  /\ (forall job,
        resolveJob jobs currentJobId processingJobId = Some job ->
        In job jobs
        /\ (currentJobId = Some (id job) \/ processingJobId = Some (id job)))
  /\ (findJob jobs currentJobId = None -> findJob jobs processingJobId = None ->
      getResultData jobs currentJobId processingJobId currentPdfPage = None).
Proof.
  assert (E : resolveJob jobs currentJobId processingJobId
              = match findJob jobs currentJobId with
                | Some job => Some job
                | None => if truthy_opt_string processingJobId
                          then findJob jobs processingJobId else None
                end).
  { unfold resolveJob. destruct (findJob jobs currentJobId) as [job|] eqn:Hc; [reflexivity|].
    destruct (truthy_opt_string processingJobId).
    - destruct (findJob jobs processingJobId); [reflexivity|].
      destruct (truthy_opt_string currentJobId); reflexivity.
    - destruct (truthy_opt_string currentJobId); reflexivity. }
  split; [exact E|]. split.
  - intros job. rewrite E.
    destruct (findJob jobs currentJobId) as [job0|] eqn:Hc.
    + intros H. injection H as <-. apply findJob_Some in Hc. tauto.
    + destruct (truthy_opt_string processingJobId); [|discriminate].
      intros H. apply findJob_Some in H. tauto.
  - intros Hc Hp. unfold getResultData. rewrite E, Hc, Hp.
    destruct (truthy_opt_string processingJobId); reflexivity.
Qed.

End ResolveProps.

(** ** The operations of the job list *)

Module JobListProps.
Import Types JobList.

Lemma findJob_cons (j : OcrJob) (jobs : list OcrJob) (k : string) :
  findJob (j :: jobs) (Some k)
  = if String.eqb (id j) k then Some j else findJob jobs (Some k).
Proof. reflexivity. Qed.

Lemma findJob_None_iff (jobs : list OcrJob) (k : string) :
  findJob jobs (Some k) = None <-> ~ In k (map id jobs).
Proof.
  induction jobs as [|j jobs IH]; [cbn; tauto|].
  rewrite findJob_cons. cbn [map In].
  destruct (String.eqb_spec (id j) k) as [E|Hne].
  - split; [discriminate|]. intros H. exfalso. apply H. left. exact E.
  - rewrite IH. tauto.
Qed.

Lemma findJob_updateJob (i : string) (u : JobUpdates) (jobs : list OcrJob) (k : string) :
  findJob (updateJob i u jobs) (Some k)
  = if String.eqb k i
    then option_map (fun job => applyUpdates job u) (findJob jobs (Some i))
    else findJob jobs (Some k).
Proof.
  induction jobs as [|j jobs IH].
  { unfold updateJob, findJob. cbn [map List.find option_map].
    destruct (k =? i)%string; reflexivity. }
  unfold updateJob in *. cbn [map]. rewrite !findJob_cons.
  destruct (String.eqb_spec (id j) i) as [Ei|Hi].
  - cbn [applyUpdates id]. destruct (String.eqb_spec k i) as [Ek|Hk].
    + rewrite ?Ek, ?Ei, ?String.eqb_refl. reflexivity.
    + destruct (String.eqb_spec (id j) k) as [Ejk|_]; [congruence|].
      rewrite IH. destruct (String.eqb_spec k i); [contradiction | reflexivity].
  - destruct (String.eqb_spec k i) as [Ek|Hk].
    + rewrite Ek in *. destruct (String.eqb_spec (id j) i); [contradiction|].
      rewrite IH. reflexivity.
    + destruct (String.eqb (id j) k); [reflexivity|].
      rewrite IH. destruct (String.eqb_spec k i); [contradiction | reflexivity].
Qed.

(** X12: looking a job up after [updateJob]: the job found under the updated
    id is the one found before with the updates applied, and the lookup of
    every other id is unchanged; the list keeps its length and its ids. *)
Theorem lookup_after_update (i : string) (u : JobUpdates) (jobs : list OcrJob) (k : string) :
  findJob (updateJob i u jobs) (Some k)
  = (if String.eqb k i
     then option_map (fun job => applyUpdates job u) (findJob jobs (Some i))
     else findJob jobs (Some k))
  /\ length (updateJob i u jobs) = length jobs
  /\ map id (updateJob i u jobs) = map id jobs.
Proof.
  split; [apply findJob_updateJob|split].
  - unfold updateJob. apply length_map.
  - unfold updateJob. rewrite map_map. apply map_ext. intros j.
    destruct (String.eqb (id j) i); reflexivity.
Qed.

(** X13: an id that is not in the list: [updateJob] and [replaceJobId] leave
    the list as it is, and [removeJob] removes nothing, deletes no stored
    file and keeps the current job unless it had that id. *)
Theorem unknown_id_is_ignored (i : string) (st : Layout.LayoutState) :
  ~ In i (map id (Layout.jobs st)) ->
  (forall u, updateJob i u (Layout.jobs st) = Layout.jobs st)
  /\ (forall newId, replaceJobId i newId (Layout.jobs st) = Layout.jobs st)
  /\ Layout.jobs (fst (Layout.removeJob i st)) = Layout.jobs st
  /\ snd (Layout.removeJob i st) = [].
Proof.
  intros Hnot.
  assert (Hall : forall j, In j (Layout.jobs st) -> String.eqb (id j) i = false).
  { intros j Hin. destruct (String.eqb_spec (id j) i) as [E|]; [|reflexivity].
    exfalso. apply Hnot. rewrite <- E. apply in_map, Hin. }
  split; [|split; [|split]].
  - intros u. unfold updateJob. rewrite <- (map_id (Layout.jobs st)) at 2.
    apply map_ext_in. intros j Hin. rewrite (Hall j Hin). reflexivity.
  - intros newId. unfold replaceJobId. rewrite <- (map_id (Layout.jobs st)) at 2.
    apply map_ext_in. intros j Hin. rewrite (Hall j Hin). reflexivity.
  - cbn. induction (Layout.jobs st) as [|j jobs IH]; [reflexivity|].
    cbn. rewrite (Hall j) by (left; reflexivity). cbn. f_equal.
    apply IH.
    + intros H. apply Hnot. right. exact H.
    + intros j' Hj'. apply Hall. right. exact Hj'.
  - unfold Layout.removeJob. cbn [snd].
    apply findJob_None_iff in Hnot. rewrite Hnot. reflexivity.
Qed.

Lemma unknown_id_is_ignored_witness :
  Layout.jobs
    (fst (Layout.removeJob "nope"
            {| Layout.jobs := [Envelope.completedJob "j1" None];
               Layout.currentJobId := Some "j1"%string |}))
  = [Envelope.completedJob "j1" None].
Proof.
  destruct (unknown_id_is_ignored "nope"
              {| Layout.jobs := [Envelope.completedJob "j1" None];
                 Layout.currentJobId := Some "j1"%string |}) as [_ [_ [H _]]].
  - cbn. intros [H|[]]. discriminate.
  - exact H.
Defined.

(** X14: after [replaceJobId] with a new id that is not in the list, the job
    found under the new id is the job found before under the old id, with
    only its id changed; nothing is found under the old id any more; and
    the current job follows the renaming. *)
Theorem lookup_after_replace (oldId newId : string) (st : Layout.LayoutState) :
  ~ In newId (map id (Layout.jobs st)) ->
  oldId <> newId ->
  let st' := Layout.replaceJobId oldId newId st in
  findJob (Layout.jobs st') (Some newId)
  = option_map (fun job => withId job newId) (findJob (Layout.jobs st) (Some oldId))
  /\ findJob (Layout.jobs st') (Some oldId) = None
  /\ (Layout.currentJobId st = Some oldId -> Layout.currentJobId st' = Some newId)
  /\ (Layout.currentJobId st <> Some oldId ->
      Layout.currentJobId st' = Layout.currentJobId st).
Proof.
  intros Hnew Hne st'. subst st'. cbn [Layout.replaceJobId Layout.jobs Layout.currentJobId].
  split; [|split; [|split]].
  - induction (Layout.jobs st) as [|j jobs IH]; [reflexivity|].
    unfold replaceJobId in *. cbn [map]. rewrite !findJob_cons.
    destruct (String.eqb_spec (id j) oldId) as [Eo|Ho].
    + cbn [withId id]. rewrite String.eqb_refl. reflexivity.
    + destruct (String.eqb_spec (id j) newId) as [En|_].
      * exfalso. apply Hnew. left. exact En.
      * apply IH. intros H. apply Hnew. right. exact H.
  - apply findJob_None_iff. unfold replaceJobId. rewrite map_map.
    intros Hin. apply in_map_iff in Hin as [j [E _]].
    destruct (String.eqb_spec (id j) oldId) as [Eo|Ho]; cbn in E; congruence.
  - intros ->. cbn. rewrite String.eqb_refl. reflexivity.
  - intros Hc. unfold Layout.isCurrent. destruct (Layout.currentJobId st) as [c|]; [|reflexivity].
    destruct (String.eqb_spec c oldId) as [->|]; [congruence | reflexivity].
Qed.

Lemma lookup_after_replace_witness :
  findJob
    (Layout.jobs (Layout.replaceJobId "job-1" "K"
                    {| Layout.jobs := [Envelope.completedJob "job-1" None];
                       Layout.currentJobId := Some "job-1"%string |}))
    (Some "K"%string)
  = Some (Envelope.completedJob "K" None).
Proof.
  destruct (lookup_after_replace "job-1" "K"
              {| Layout.jobs := [Envelope.completedJob "job-1" None];
                 Layout.currentJobId := Some "job-1"%string |}) as [H _].
  - cbn. intros [H|[]]. discriminate.
  - discriminate.
  - exact H.
Defined.

(** X15: after [removeJob] no job has the removed id; the jobs with another
    id keep their order and are found as before; the stored files are deleted
    exactly when the job was in the list with a storage key; and the current
    job is reset exactly when it was the removed one. *)
Theorem remove_job_effects (i : string) (st : Layout.LayoutState) :
  let st' := fst (Layout.removeJob i st) in
  findJob (Layout.jobs st') (Some i) = None
  /\ (forall k, k <> i -> findJob (Layout.jobs st') (Some k) = findJob (Layout.jobs st) (Some k))
  /\ (forall job key,
        findJob (Layout.jobs st) (Some i) = Some job -> s3Key job = Some key ->
        key <> EmptyString ->
        snd (Layout.removeJob i st) = [Layout.DeleteS3Files key (id job)])
  /\ (findJob (Layout.jobs st) (Some i) = None -> snd (Layout.removeJob i st) = [])
  /\ (forall job,
        findJob (Layout.jobs st) (Some i) = Some job ->
        s3Key job = None \/ s3Key job = Some EmptyString ->
        snd (Layout.removeJob i st) = [])
  /\ (Layout.currentJobId st = Some i -> Layout.currentJobId st' = None)
  /\ (Layout.currentJobId st <> Some i -> Layout.currentJobId st' = Layout.currentJobId st).
Proof.
  cbn zeta. unfold Layout.removeJob. cbn [fst snd Layout.jobs Layout.currentJobId].
  split; [|split; [|split; [|split; [|split; [|split]]]]].
  - apply findJob_None_iff. intros Hin. apply in_map_iff in Hin as [j [E Hj]].
    apply List.filter_In in Hj as [_ Hj]. rewrite E, String.eqb_refl in Hj. discriminate.
  - intros k Hk. induction (Layout.jobs st) as [|j jobs IH]; [reflexivity|].
    cbn [List.filter]. rewrite findJob_cons.
    destruct (String.eqb_spec (id j) i) as [Ei|Hi]; cbn [negb].
    + destruct (String.eqb_spec (id j) k); [congruence | exact IH].
    + rewrite findJob_cons. destruct (String.eqb (id j) k); [reflexivity | exact IH].
  - intros job key Hfind Hkey Hne. rewrite Hfind, Hkey. cbn.
    destruct (String.eqb_spec key EmptyString); [contradiction | reflexivity].
  - intros Hfind. rewrite Hfind. reflexivity.
  - intros job Hfind [Hkey|Hkey]; rewrite Hfind, Hkey; reflexivity.
  - intros ->. cbn. rewrite String.eqb_refl. reflexivity.
  - intros Hc. unfold Layout.isCurrent. destruct (Layout.currentJobId st) as [c|]; [|reflexivity].
    destruct (String.eqb_spec c i) as [->|]; [congruence | reflexivity].
Qed.

(** X16: a job whose stored image was found missing can no longer be
    opened from the sidebar: once [updateJob] has set [imageAvailable] to
    false, the job is not accessible and the click on it leaves the current
    job as it is; the same holds for a job without a storage key. *)
Theorem unavailable_job_not_selectable (i : string) (st : Layout.LayoutState) (job : OcrJob) :
  findJob (Layout.jobs st) (Some i) = Some job ->
  let st' := Layout.updateJob i (Lifecycle.imageAvailableUpdates false) st in
  (exists job',
     findJob (Layout.jobs st') (Some i) = Some job'
     /\ Layout.isAccessible job' = false
     /\ Layout.selectJob job' st' = st')
  /\ (s3Key job = None -> Layout.selectJob job st = st).
Proof.
  intros Hfind. cbn zeta. split.
  - exists (applyUpdates job (Lifecycle.imageAvailableUpdates false)).
    assert (Hacc : Layout.isAccessible
                     (applyUpdates job (Lifecycle.imageAvailableUpdates false)) = false).
    { unfold Layout.isAccessible. cbn. apply andb_false_r. }
    split; [|split; [exact Hacc|]].
    + unfold Layout.updateJob. cbn [Layout.jobs].
      rewrite findJob_updateJob, String.eqb_refl, Hfind. reflexivity.
    + unfold Layout.selectJob. rewrite Hacc. reflexivity.
  - intros Hkey. unfold Layout.selectJob, Layout.isAccessible. rewrite Hkey. reflexivity.
Qed.

Lemma unavailable_job_not_selectable_witness :
  exists job',
    findJob (JobList.updateJob "j1" (Lifecycle.imageAvailableUpdates false)
               [Envelope.completedJob "j1" None]) (Some "j1"%string) = Some job'
    /\ Layout.isAccessible job' = false.
Proof.
  destruct (unavailable_job_not_selectable "j1"
              {| Layout.jobs := [Envelope.completedJob "j1" None];
                 Layout.currentJobId := None |}
              (Envelope.completedJob "j1" None) eq_refl) as [[job' [H1 [H2 _]]] _].
  exists job'. split; [exact H1 | exact H2].
Defined.

End JobListProps.

(** ** The job list under removal and edits *)

Module MaintenanceProps.
Import Types JobList.

Lemma filter_ids_NoDup (f : OcrJob -> bool) (jobs : list OcrJob) :
  List.NoDup (map id jobs) -> List.NoDup (map id (List.filter f jobs)).
Proof.
  induction jobs as [|j jobs IH]; cbn [map List.filter]; intros H; [constructor|].
  inversion H as [|x l Hnotin Hnd]; subst.
  destruct (f j); [|apply IH, Hnd].
  cbn [map]. constructor; [|apply IH, Hnd].
  intros Hin. apply Hnotin. apply in_map_iff in Hin as [j' [E Hj']].
  apply List.filter_In in Hj' as [Hj' _]. apply in_map_iff. exists j'. tauto.
Qed.

(** X17: removing a job, and updates that carry neither a status nor a
    result (the edited Markdown or HTML, the storage key, the image flag),
    keep the list well formed: ids stay distinct and a job that is not
    completed still has no result. *)
Theorem removal_and_edits_keep_invariant (i : string) (u : JobUpdates)
  (st : Layout.LayoutState) :
  List.NoDup (map id (Layout.jobs st)) ->
  (forall j, In j (Layout.jobs st) -> status j <> completed -> result j = None) ->
  (let jobs' := Layout.jobs (fst (Layout.removeJob i st)) in
   List.NoDup (map id jobs')
   /\ forall j, In j jobs' -> status j <> completed -> result j = None)
  /\ (u_status u = None -> u_result u = None ->
      let jobs' := Layout.jobs (Layout.updateJob i u st) in
      List.NoDup (map id jobs')
      /\ forall j, In j jobs' -> status j <> completed -> result j = None).
Proof.
  intros Hnd Hres. split.
  - cbn zeta. unfold Layout.removeJob. cbn [fst Layout.jobs]. split.
    + apply filter_ids_NoDup, Hnd.
    + intros j Hin. apply List.filter_In in Hin as [Hin _]. apply Hres, Hin.
  - intros Hs Hr. cbn zeta. unfold Layout.updateJob. cbn [Layout.jobs]. split.
    + rewrite LifecycleProps.updateJob_map_id. exact Hnd.
    + intros j' Hin Hst.
      apply LifecycleProps.updateJob_In in Hin as [[Hin _]|[j [Hin [_ ->]]]];
        [apply Hres; assumption|].
      unfold applyUpdates in *. cbn [status result] in *.
      rewrite Hs in Hst. rewrite Hr. cbn [override] in *. apply Hres; assumption.
Qed.

Lemma removal_and_edits_keep_invariant_witness :
  List.NoDup
    (map id (Layout.jobs
               (fst (Layout.removeJob "j1"
                       {| Layout.jobs := [Envelope.completedJob "j1" None;
                                          Envelope.completedJob "j2" None];
                          Layout.currentJobId := Some "j1"%string |})))).
Proof.
  refine (proj1 (proj1 (removal_and_edits_keep_invariant "j1" noUpdates
           {| Layout.jobs := [Envelope.completedJob "j1" None;
                              Envelope.completedJob "j2" None];
              Layout.currentJobId := Some "j1"%string |} _ _))).
  - cbn. repeat constructor; cbn; intuition discriminate.
  - intros j [<-|[<-|[]]] H; reflexivity.
Defined.

End MaintenanceProps.

(** ** Submission and completion, end to end *)

Module SubmissionProps.
Import Types JobList Page.

Lemma replaceJobId_fresh (oldId newId : string) (jobs : list OcrJob) :
  ~ In oldId (map id jobs) -> replaceJobId oldId newId jobs = jobs.
Proof.
  intros Hnot. unfold replaceJobId. rewrite <- (map_id jobs) at 2.
  apply map_ext_in. intros j Hin.
  destruct (String.eqb_spec (id j) oldId) as [E|]; [|reflexivity].
  exfalso. apply Hnot. rewrite <- E. apply in_map, Hin.
Qed.

Lemma updateJob_fresh (i : string) (u : JobUpdates) (jobs : list OcrJob) :
  ~ In i (map id jobs) -> updateJob i u jobs = jobs.
Proof.
  intros Hnot. unfold updateJob. rewrite <- (map_id jobs) at 2.
  apply map_ext_in. intros j Hin.
  destruct (String.eqb_spec (id j) i) as [E|]; [|reflexivity].
  exfalso. apply Hnot. rewrite <- E. apply in_map, Hin.
Qed.

Lemma existsb_eqb_false (i : string) (l : list string) :
  ~ In i l -> existsb (String.eqb i) l = false.
Proof.
  intros H. destruct (existsb (String.eqb i) l) eqn:E; [|reflexivity].
  apply existsb_exists in E as [x [Hx Ex]]. apply String.eqb_eq in Ex. subst x. contradiction.
Qed.

(** X18: a submission that goes through (upload URL, upload and OCR request
    all succeed, with ids not yet in the list) puts the new job at the head
    of the list under the server's id, in processing, with the storage key
    and no result; it becomes the current and the processing job, its first
    status request is sent, and nothing else in the list changes. The list
    is the one the three list operations add, replace-id and set-key give. *)
Theorem submission_accepted (env : SubmitEnv) (s : PageState) (image : ImageData)
  (upload_url s3_key backendJobId : string) :
  imageData (files s) = Some image ->
  truthy_opt_string (apiUrl s) = true ->
  uploadResponse env = OkJson (upload_url, s3_key) ->
  s3UploadResponse env = OkJson tt ->
  ocrResponse env = OkJson backendJobId ->
  ~ In (localJobId (now env)) (map id (jobs s)) ->
  ~ In backendJobId (map id (jobs s)) ->
  backendJobId <> localJobId (now env) ->
  let s' := fst (handleSubmit env s) in
  jobs s'
  = Lifecycle.submittedJob backendJobId (img_filename image) (selectedModel s)
      (modelOptions s) (now env) s3_key :: jobs s
  /\ Lifecycle.runOps
       [Lifecycle.OpAdd (localJobId (now env)) (img_filename image) (selectedModel s)
          (modelOptions s) (now env) s3_key;
        Lifecycle.OpReplaceId (localJobId (now env)) backendJobId;
        Lifecycle.OpS3Key backendJobId s3_key] (jobs s) = Some (jobs s')
  /\ currentJobId s' = Some backendJobId
  /\ processingJobId s' = Some backendJobId
  /\ isProcessing s' = true
  /\ inflight s' = inflight s ++ [backendJobId]
  /\ snd (handleSubmit env s)
     = [PostUpload (img_filename image); PutObject upload_url; PostOcr s3_key;
        GetStatus backendJobId].
Proof.
  intros Himg Hapi Hup Hput Hocr Hlocal Hbackend Hdiff.
  set (localId := localJobId (now env)) in *.
  set (newJob := Lifecycle.submittedJob localId (img_filename image) (selectedModel s)
                   (modelOptions s) (now env) s3_key).
  assert (E : handleSubmit env s
              = (withBrowser
                   (withProcessing
                      (withJobs (withProcessing s true (processingJobId s) (Some (now env)))
                         (updateJob backendJobId (s3KeyUpdates s3_key)
                            (replaceJobId localId backendJobId (addJob newJob (jobs s))))
                         (if String.eqb localId localId then Some backendJobId
                          else Some localId))
                      true (Some backendJobId) (Some (now env)))
                   (pollTimeoutRef s) (timers s) (nextTimer s)
                   (inflight s ++ [backendJobId]),
                 [PostUpload (img_filename image); PutObject upload_url; PostOcr s3_key]
                 ++ [GetStatus backendJobId])).
  { unfold handleSubmit. rewrite Himg. cbn [apiUrl withProcessing withJobs].
    rewrite Hapi, Hup, Hput, Hocr. cbn [negb].
    unfold pollJobStatus_call. cbn [apiUrl withProcessing withJobs]. rewrite Hapi.
    reflexivity. }
  assert (Hjobs : updateJob backendJobId (s3KeyUpdates s3_key)
                    (replaceJobId localId backendJobId (addJob newJob (jobs s)))
                  = Lifecycle.submittedJob backendJobId (img_filename image)
                      (selectedModel s) (modelOptions s) (now env) s3_key :: jobs s).
  { unfold addJob, replaceJobId, updateJob, newJob. cbn [map Lifecycle.submittedJob id].
    rewrite String.eqb_refl. cbn [withId id]. rewrite String.eqb_refl.
    fold (replaceJobId localId backendJobId (jobs s)).
    rewrite (replaceJobId_fresh _ _ _ Hlocal).
    fold (updateJob backendJobId (s3KeyUpdates s3_key) (jobs s)).
    rewrite (updateJob_fresh _ _ _ Hbackend). reflexivity. }
  rewrite E, Hjobs, String.eqb_refl.
  cbn [fst snd jobs currentJobId processingJobId isProcessing inflight withBrowser
         withProcessing withJobs app].
  split; [reflexivity|]. split.
  { cbn [Lifecycle.runOps Lifecycle.opOk Lifecycle.applyOp].
    rewrite (existsb_eqb_false _ _ Hlocal). cbn [negb].
    assert (Hb2 : existsb (String.eqb backendJobId) (map id (addJob newJob (jobs s)))
                  = false).
    { unfold newJob. cbn [addJob map id Lifecycle.submittedJob existsb].
      rewrite (existsb_eqb_false _ _ Hbackend), orb_false_r.
      apply String.eqb_neq. exact Hdiff. }
    fold newJob. rewrite Hb2. cbn [negb]. rewrite Hjobs. reflexivity. }
  split; [reflexivity|]. split; [reflexivity|]. split; [reflexivity|].
  split; reflexivity.
Qed.

Lemma submission_accepted_witness :
  map id (jobs (fst (handleSubmit submitOk readyState))) = ["J"%string]
  /\ map status (jobs (fst (handleSubmit submitOk readyState))) = [processing]
  /\ inflight (fst (handleSubmit submitOk readyState)) = ["J"%string].
Proof.
  destruct (submission_accepted submitOk readyState
              {| base64 := "AAAA"; img_filename := "scan.png" |}
              "https://bucket.example/put" "uploads/scan.png" "J"
              eq_refl eq_refl eq_refl eq_refl eq_refl)
    as [Hj [_ [_ [_ [_ [Hi _]]]]]].
  - intros [].
  - intros [].
  - vm_compute. discriminate.
  - rewrite Hj, Hi. split; [|split]; reflexivity.
Defined.

(** X19: when the OCR request itself fails (rejected, or answered with an
    error status) after a successful upload, the job has been added and is
    marked failed under its client-made id: it is at the head of the list,
    failed and without result, it is the current job, no status request is
    sent, and the page stops processing. *)
Theorem ocr_request_failure_marks_job_failed (env : SubmitEnv) (s : PageState)
  (image : ImageData) (upload_url s3_key : string) :
  imageData (files s) = Some image ->
  truthy_opt_string (apiUrl s) = true ->
  uploadResponse env = OkJson (upload_url, s3_key) ->
  s3UploadResponse env = OkJson tt ->
  ocrResponse env = Rejected \/ ocrResponse env = NotOk ->
  ~ In (localJobId (now env)) (map id (jobs s)) ->
  let s' := fst (handleSubmit env s) in
  jobs s'
  = applyUpdates
      (Lifecycle.submittedJob (localJobId (now env)) (img_filename image) (selectedModel s)
         (modelOptions s) (now env) s3_key) failedUpdates :: jobs s
  /\ (exists job, nth_error (jobs s') 0 = Some job /\ status job = failed
                  /\ result job = None /\ id job = localJobId (now env))
  /\ currentJobId s' = Some (localJobId (now env))
  /\ isProcessing s' = false
  /\ inflight s' = inflight s /\ timers s' = timers s
  /\ snd (handleSubmit env s)
     = [PostUpload (img_filename image); PutObject upload_url; PostOcr s3_key;
        Alert "Failed to submit OCR request. Please try again."].
Proof.
  intros Himg Hapi Hup Hput Hocr Hlocal.
  set (localId := localJobId (now env)) in *.
  set (newJob := Lifecycle.submittedJob localId (img_filename image) (selectedModel s)
                   (modelOptions s) (now env) s3_key).
  assert (E : handleSubmit env s
              = submitFailed localId
                  (withJobs (withProcessing s true (processingJobId s) (Some (now env)))
                     (addJob newJob (jobs s)) (Some localId))
                  [PostUpload (img_filename image); PutObject upload_url; PostOcr s3_key]).
  { unfold handleSubmit. rewrite Himg. cbn [apiUrl withProcessing withJobs].
    rewrite Hapi, Hup, Hput. cbn [negb]. destruct Hocr as [-> | ->]; reflexivity. }
  rewrite E. unfold submitFailed.
  cbn [fst snd jobs currentJobId isProcessing inflight timers withProcessing withJobs app].
  assert (Hjobs : updateJob localId failedUpdates (addJob newJob (jobs s))
                  = applyUpdates newJob failedUpdates :: jobs s).
  { unfold addJob, updateJob. cbn [map]. unfold newJob at 1.
    cbn [Lifecycle.submittedJob id]. rewrite String.eqb_refl.
    fold (updateJob localId failedUpdates (jobs s)).
    rewrite (updateJob_fresh _ _ _ Hlocal). reflexivity. }
  rewrite Hjobs. split; [reflexivity|]. split.
  { eexists. split; [reflexivity|]. cbn. auto. }
  split; [reflexivity|]. split; [reflexivity|]. split; [reflexivity|].
  split; reflexivity.
Qed.

Lemma ocr_request_failure_marks_job_failed_witness :
  map status (jobs (fst (handleSubmit submitRejectedByApi readyState))) = [failed]
  /\ inflight (fst (handleSubmit submitRejectedByApi readyState)) = [].
Proof.
  destruct (ocr_request_failure_marks_job_failed submitRejectedByApi readyState
              {| base64 := "AAAA"; img_filename := "scan.png" |}
              "https://bucket.example/put" "uploads/scan.png"
              eq_refl eq_refl eq_refl eq_refl (or_intror eq_refl))
    as [Hj [_ [_ [_ [Hi _]]]]].
  - intros [].
  - rewrite Hj, Hi. split; reflexivity.
Defined.

End SubmissionProps.

(** ** Completion and unmounting *)

Module CompletionProps.
Import Types JobList Page.
Local Open Scope nat_scope.

(** X20: a poll answered with "completed" and a result attaches exactly that
    result to the polled job, with the elapsed time, and touches no other
    job; the page shows the result step and stops processing; and when the
    polled job is the current one, the page result is read from that result
    for every page number. *)
Theorem completed_poll_attaches_result (jobId : string) (data : StatusData) (now : Z)
  (s : PageState) (job : OcrJob) (r : OcrResult) :
  findJob (jobs s) (Some jobId) = Some job ->
  data_status data = reported_completed ->
  data_result data = Some r ->
  let s' := fst (pollJobStatus_resume jobId (OkJson data) now s) in
  findJob (jobs s') (Some jobId)
  = Some (applyUpdates job (completedUpdates (Some r) (elapsed (jobStartTimeRef s) now)))
  /\ (forall k, k <> jobId -> findJob (jobs s') (Some k) = findJob (jobs s) (Some k))
  /\ step (files s') = step_result
  /\ isProcessing s' = false /\ processingJobId s' = None
  /\ (currentJobId s = Some jobId ->
      forall page,
        Envelope.getResultData (jobs s') (currentJobId s') (processingJobId s') page
        = Envelope.resultDataOf r page).
Proof.
  intros Hfind Hst Hres s'.
  assert (Hjobs : jobs s' = updateJob jobId
                              (completedUpdates (Some r) (elapsed (jobStartTimeRef s) now))
                              (jobs s)).
  { subst s'. unfold pollJobStatus_resume. rewrite Hst, Hres. reflexivity. }
  assert (Hcur : currentJobId s' = currentJobId s).
  { subst s'. unfold pollJobStatus_resume. rewrite Hst. reflexivity. }
  assert (Hfound : findJob (jobs s') (Some jobId)
                   = Some (applyUpdates job (completedUpdates (Some r)
                                               (elapsed (jobStartTimeRef s) now)))).
  { rewrite Hjobs, JobListProps.findJob_updateJob, String.eqb_refl, Hfind. reflexivity. }
  split; [exact Hfound|]. split.
  { intros k Hk. rewrite Hjobs, JobListProps.findJob_updateJob.
    destruct (String.eqb_spec k jobId); [contradiction | reflexivity]. }
  split; [subst s'; unfold pollJobStatus_resume; rewrite Hst; reflexivity|].
  split; [subst s'; unfold pollJobStatus_resume; rewrite Hst; reflexivity|].
  split; [subst s'; unfold pollJobStatus_resume; rewrite Hst; reflexivity|].
  intros Hc page. unfold Envelope.getResultData, Envelope.resolveJob.
  rewrite Hcur, Hc, Hfound. reflexivity.
Qed.

Lemma completed_poll_attaches_result_witness :
  Envelope.getResultData
    (jobs (fst (pollJobStatus_resume "J" (OkJson reportsCompleted) 1500 pollingJ)))
    (Some "J"%string) None 1 = None
  /\ option_map processingTimeMs
       (findJob (jobs (fst (pollJobStatus_resume "J" (OkJson reportsCompleted) 1500 pollingJ)))
          (Some "J"%string)) = Some (Some 500%Z).
Proof.
  destruct (findJob (jobs pollingJ) (Some "J"%string)) as [job|] eqn:Hjob;
    [|vm_compute in Hjob; discriminate].
  destruct (completed_poll_attaches_result "J" reportsCompleted 1500 pollingJ job
              {| res := None; results := Some [] |} Hjob eq_refl eq_refl)
    as [Hf [_ [_ [_ [_ Hg]]]]].
  split.
  - specialize (Hg eq_refl 1%Z). cbn [processingJobId] in Hg.
    replace (currentJobId (fst (pollJobStatus_resume "J" (OkJson reportsCompleted) 1500 pollingJ)))
      with (Some "J"%string) in Hg by (vm_compute; reflexivity).
    replace (processingJobId (fst (pollJobStatus_resume "J" (OkJson reportsCompleted) 1500 pollingJ)))
      with (@None string) in Hg by (vm_compute; reflexivity).
    rewrite Hg. reflexivity.
  - rewrite Hf. vm_compute. reflexivity.
Defined.

(** X21: a poll answered with "failed" marks the polled job failed and
    changes nothing else of it: its result stays what it was (none, for a job
    that was processing); no other job is touched; the page stops processing,
    stays on its step, alerts the user with the server's error or the default
    text, and schedules nothing. *)
Theorem failed_poll_marks_job_failed (jobId : string) (data : StatusData) (now : Z)
  (s : PageState) (job : OcrJob) :
  findJob (jobs s) (Some jobId) = Some job ->
  data_status data = reported_failed ->
  let s' := fst (pollJobStatus_resume jobId (OkJson data) now s) in
  (exists job',
     findJob (jobs s') (Some jobId) = Some job'
     /\ status job' = failed /\ result job' = result job
     /\ processingTimeMs job' = processingTimeMs job /\ s3Key job' = s3Key job)
  /\ (forall k, k <> jobId -> findJob (jobs s') (Some k) = findJob (jobs s) (Some k))
  /\ isProcessing s' = false /\ processingJobId s' = None
  /\ files s' = files s /\ currentJobId s' = currentJobId s
  /\ timers s' = timers s
  /\ snd (pollJobStatus_resume jobId (OkJson data) now s)
     = [Alert (match data_error data with
               | Some e => if String.eqb e EmptyString then "Processing failed"%string else e
               | None => "Processing failed"%string
               end)].
Proof.
  intros Hfind Hst s'.
  assert (Hjobs : jobs s' = updateJob jobId failedUpdates (jobs s)).
  { subst s'. unfold pollJobStatus_resume. rewrite Hst. reflexivity. }
  split.
  { exists (applyUpdates job failedUpdates).
    rewrite Hjobs, JobListProps.findJob_updateJob, String.eqb_refl, Hfind.
    repeat split. }
  split.
  { intros k Hk. rewrite Hjobs, JobListProps.findJob_updateJob.
    destruct (String.eqb_spec k jobId); [contradiction | reflexivity]. }
  subst s'. unfold pollJobStatus_resume. rewrite Hst. cbn. repeat split.
Qed.

Lemma failed_poll_marks_job_failed_witness :
  option_map status
    (findJob
       (jobs (fst (pollJobStatus_resume "J"
                     (OkJson {| data_status := reported_failed; data_result := None;
                                data_error := Some "out of memory"%string |})
                     1500 pollingJ)))
       (Some "J"%string)) = Some failed.
Proof.
  destruct (findJob (jobs pollingJ) (Some "J"%string)) as [job|] eqn:Hjob;
    [|vm_compute in Hjob; discriminate].
  destruct (failed_poll_marks_job_failed "J"
              {| data_status := reported_failed; data_result := None;
                 data_error := Some "out of memory"%string |}
              1500 pollingJ job Hjob eq_refl) as [[job' [Hf [Hs _]]] _].
  rewrite Hf. cbn [option_map]. rewrite Hs. reflexivity.
Defined.

(** The pending timer is the one [pollTimeoutRef] holds. *)
Definition TimerRefInv (s : PageState) : Prop :=
  PollingProps.PageInv s
  /\ nextTimer s <> 0
  /\ forall t, In t (timers s) -> pollTimeoutRef s = Some (timer_id t) /\ timer_id t <> 0.

Lemma handleSubmit_timer_ref (env : SubmitEnv) (s : PageState) :
  nextTimer (fst (handleSubmit env s)) = nextTimer s
  /\ pollTimeoutRef (fst (handleSubmit env s)) = pollTimeoutRef s.
Proof.
  unfold handleSubmit, submitFailed, pollJobStatus_call.
  destruct (imageData (files s)) as [image|]; [|cbn; auto].
  cbn [apiUrl withProcessing withJobs].
  destruct (truthy_opt_string (apiUrl s)) eqn:Hapi; cbn [negb]; [|cbn; auto].
  destruct (uploadResponse env) as [| |[upload_url s3_key]]; [cbn; auto | cbn; auto |].
  destruct (s3UploadResponse env); [cbn; auto | cbn; auto |].
  destruct (ocrResponse env) as [| |j]; cbn; auto.
Qed.

Lemma fire_TimerRefInv (e : Event) (s s' : PageState) (effects : list Effect) :
  TimerRefInv s -> fire e s = Some (s', effects) -> TimerRefInv s'.
Proof.
  intros [Hinv [Hnext Href]] Hfire.
  split; [eapply PollingProps.fire_PageInv; eauto|].
  destruct Hinv as [Hone Hidle].
  destruct e as [file content|env|jobId response now|tid|resp|]; cbn [fire] in Hfire.
  - destruct (mounted s && negb (isProcessing s)); [|discriminate].
    apply PollingProps.some_pair in Hfire as [-> _].
    unfold handleFileSelect. PollingProps.break_match; cbn; auto.
  - destruct (mounted s && negb (isProcessing s)) eqn:G; [|discriminate].
    apply andb_true_iff in G as [_ G]. apply negb_true_iff in G.
    destruct (Hidle G) as [T0 _].
    apply PollingProps.some_pair in Hfire as [-> _].
    destruct (PollingProps.handleSubmit_browser env s) as [Ht _]. cbn zeta in Ht.
    destruct (handleSubmit_timer_ref env s) as [Hn _].
    split; [rewrite Hn; exact Hnext|].
    rewrite Ht, T0. intros t [].
  - destruct (existsb (String.eqb jobId) (inflight s)) eqn:G; [|discriminate].
    destruct (inflight s) as [|r rest] eqn:Hin; [discriminate|].
    destruct (timers s) as [|t ts] eqn:Hts; [|cbn in Hone; lia].
    apply PollingProps.some_pair in Hfire as [-> _]. unfold pollJobStatus_resume.
    rewrite Hts.
    destruct response as [| |data]; [| |destruct (data_status data)]; cbn;
      (split; [first [exact Hnext | discriminate]|]);
      intros x Hx; first [destruct Hx as [<-|[]]; cbn; auto | destruct Hx].
  - destruct (findTimer tid (timers s)) as [t|] eqn:Hfind; [|discriminate].
    apply PollingProps.some_pair in Hfire as [-> _].
    unfold pollJobStatus_call. cbn [apiUrl withBrowser].
    destruct (truthy_opt_string (apiUrl s)); cbn; (split; [exact Hnext|]);
      intros t' Hin; apply List.filter_In in Hin as [Hin _]; apply Href, Hin.
  - destruct (mounted s); [|discriminate].
    apply PollingProps.some_pair in Hfire as [-> _].
    unfold jobsFetched. destruct resp; cbn; auto.
  - destruct (mounted s); [|discriminate].
    apply PollingProps.some_pair in Hfire as [-> _].
    unfold unmount. cbn [pollTimeoutRef withMounted].
    destruct (pollTimeoutRef s) as [tid|] eqn:Hp; [destruct (Nat.eqb tid 0) eqn:E0|]; cbn;
      (split; [exact Hnext|]).
    + intros t Hin. destruct (Href t Hin) as [H1 H2]. injection H1 as ->.
      apply Nat.eqb_eq in E0. contradiction.
    + intros t Hin. apply List.filter_In in Hin as [Hin Hne].
      destruct (Href t Hin) as [H1 _]. injection H1 as ->.
      rewrite Nat.eqb_refl in Hne. discriminate.
    + intros t Hin. destruct (Href t Hin) as [H1 _]. discriminate.
Qed.

Lemma reachable_TimerRefInv (s : PageState) : reachable s -> TimerRefInv s.
Proof.
  intros [api [events Hrun]].
  assert (H : forall s0, TimerRefInv s0 -> run events s0 = Some s -> TimerRefInv s).
  { clear Hrun. induction events as [|e events IH]; intros s0 Hinv Hrun; cbn in Hrun.
    - injection Hrun as <-. exact Hinv.
    - destruct (fire e s0) as [[s1 effects]|] eqn:Hfire; [|discriminate].
      apply (IH s1); [eapply fire_TimerRefInv; eauto | exact Hrun]. }
  apply (H (initialState api)); [|exact Hrun].
  split; [apply PollingProps.PageInv_initial|]. split; [discriminate | intros t []].
Qed.

(** X22: unmounting clears the pending poll timer and nothing else: in
    every reachable state no timer is left afterwards, while the requests in
    flight and the jobs stay as they are. A status request in flight is not
    cancelled: its answer is still handled and, when it says "still
    processing", schedules a new timer; the cleanup has run by then and
    cannot run again, so that the poll loop outlives the component. *)
Theorem unmount_clears_timer_not_request (s : PageState) :
  reachable s -> mounted s = true ->
  let s' := fst (unmount s) in
  timers s' = []
  /\ inflight s' = inflight s
  /\ jobs s' = jobs s
  /\ (forall jobId data now,
        inflight s = [jobId] -> data_status data = reported_other ->
        exists s'',
          fire (PollResponse jobId (OkJson data) now) s' = Some (s'', [SetTimeout jobId 3000])
          /\ length (timersFor jobId s'') = 1
          /\ fire Unmount s'' = None).
Proof.
  intros Hr Hm s'. destruct (reachable_TimerRefInv s Hr) as [[Hone _] [_ Href]].
  assert (Hin : inflight s' = inflight s).
  { subst s'. unfold unmount. cbn [pollTimeoutRef withMounted].
    destruct (pollTimeoutRef s) as [tid|]; [destruct (Nat.eqb tid 0)|]; reflexivity. }
  assert (Hjobs : jobs s' = jobs s).
  { subst s'. unfold unmount. cbn [pollTimeoutRef withMounted].
    destruct (pollTimeoutRef s) as [tid|]; [destruct (Nat.eqb tid 0)|]; reflexivity. }
  assert (Hmt : mounted s' = false).
  { subst s'. unfold unmount. cbn [pollTimeoutRef withMounted].
    destruct (pollTimeoutRef s) as [tid|]; [destruct (Nat.eqb tid 0)|]; reflexivity. }
  assert (Ht : timers s' = []).
  { subst s'. unfold unmount. cbn [pollTimeoutRef withMounted].
    destruct (timers s) as [|t [|t' ts]] eqn:Hts; [| |cbn in Hone; lia].
    - destruct (pollTimeoutRef s) as [tid|]; [destruct (Nat.eqb tid 0)|]; cbn;
        rewrite ?Hts; reflexivity.
    - destruct (Href t (or_introl eq_refl)) as [H1 H2]. rewrite H1.
      apply Nat.eqb_neq in H2. rewrite H2. cbn. rewrite Hts. cbn.
      rewrite Nat.eqb_refl. reflexivity. }
  split; [exact Ht|]. split; [exact Hin|]. split; [exact Hjobs|].
  intros jobId data now Hi Hd. cbn [fire]. rewrite Hin, Hi. cbn [existsb].
  rewrite String.eqb_refl. cbn [orb].
  unfold pollJobStatus_resume. rewrite Hd, Hin, Hi. cbn [removeFirst].
  rewrite String.eqb_refl. unfold scheduleTimer.
  cbn [timers nextTimer inflight withBrowser]. rewrite Ht.
  eexists. split; [reflexivity|]. split.
  - unfold timersFor. cbn. rewrite String.eqb_refl. reflexivity.
  - cbn. rewrite Hmt. reflexivity.
Qed.

Lemma unmount_clears_timer_not_request_witness :
  length (timers waitingForJ) = 1
  /\ timers (fst (unmount waitingForJ)) = [].
Proof.
  destruct (unmount_clears_timer_not_request waitingForJ
              SchedulingProps.waitingForJ_reachable eq_refl) as [H1 _].
  split; [vm_compute; reflexivity | exact H1].
Defined.

End CompletionProps.

(** ** PDF files: selection and page navigation *)

Module PdfPageProps.
Import Types JobList Page.

Lemma render_first_page (pdf : Pdf.PdfDocument) (n : Z) :
  (1 <= n <= Pdf.numPages pdf)%Z ->
  Pdf.getPageOk pdf n = true -> Pdf.contextAvailable pdf = true ->
  Pdf.renderOk pdf n = true ->
  fst (Pdf.renderPdfToImage (Some pdf) n)
  = {| Pdf.dataUrl := Some (Pdf.pageDataUrl pdf n); Pdf.totalPages := Pdf.numPages pdf |}.
Proof.
  intros Hn Hg Hc Hr. unfold Pdf.renderPdfToImage.
  replace (Pdf.validPageNum n (Pdf.numPages pdf)) with n
    by (unfold Pdf.validPageNum; lia).
  rewrite Hg, Hc, Hr. reflexivity.
Qed.

(** X23: selecting a PDF whose first page renders shows that page as the
    preview, at page 1 of the document's page count, and keeps the whole
    file for the upload; when the document cannot be loaded or its first
    page cannot be rendered, the selection is refused: the file to upload,
    the preview, the step and the page counters stay as they were. *)
Theorem pdf_selection (file : File) (content : FileContent) (s : PageState) (b64 : string) :
  (size file <= MAX_FILE_SIZE)%Z ->
  type file = "application/pdf"%string ->
  fileBase64 content = Some b64 ->
  let s' := fst (handleFileSelect file content s) in
  (forall pdf,
     filePdf content = Some pdf -> (1 <= Pdf.numPages pdf)%Z ->
     Pdf.getPageOk pdf 1 = true -> Pdf.contextAvailable pdf = true ->
     Pdf.renderOk pdf 1 = true -> Pdf.pageDataUrl pdf 1 <> EmptyString ->
     files s'
     = {| step := step_options;
          imageData := Some {| base64 := b64; img_filename := name file |};
          previewUrl := Some (Pdf.pageDataUrl pdf 1);
          currentPdfPage := 1;
          totalPdfPages := Pdf.numPages pdf;
          pdfArrayBufferRef := true |})
  /\
  (filePdf content = None
   \/ (exists pdf, filePdf content = Some pdf
                   /\ Pdf.getPageOk pdf (Pdf.validPageNum 1 (Pdf.numPages pdf)) = true
                   /\ Pdf.contextAvailable pdf = true
                   /\ Pdf.renderOk pdf (Pdf.validPageNum 1 (Pdf.numPages pdf)) = false) ->
   imageData (files s') = imageData (files s)
   /\ previewUrl (files s') = previewUrl (files s)
   /\ step (files s') = step (files s)
   /\ currentPdfPage (files s') = currentPdfPage (files s)
   /\ totalPdfPages (files s') = totalPdfPages (files s)
   /\ snd (handleFileSelect file content s)
      = [ReadArrayBuffer; RenderPdfPage 1; Alert "Failed to render PDF preview"]).
Proof.
  intros Hsize Htype Hb64 s'. subst s'. unfold handleFileSelect.
  replace (size file >? MAX_FILE_SIZE)%Z with false
    by (symmetry; rewrite Z.gtb_ltb; apply Z.ltb_ge; lia).
  rewrite Htype, Hb64. cbn [String.eqb Ascii.eqb Bool.eqb andb].
  split.
  - intros pdf Hpdf Hn Hg Hc Hr Hurl. rewrite Hpdf.
    rewrite (render_first_page pdf 1) by (try lia; assumption).
    cbn [Pdf.dataUrl Pdf.totalPages truthy_opt_string].
    apply String.eqb_neq in Hurl. rewrite Hurl. reflexivity.
  - intros [Hnone|[pdf [Hpdf [Hg [Hc Hr]]]]].
    + rewrite Hnone. cbn. repeat split.
    + rewrite Hpdf. unfold Pdf.renderPdfToImage. rewrite Hg, Hc, Hr. cbn. repeat split.
Qed.

Lemma pdf_selection_witness :
  files (fst (handleFileSelect pdfFile (pdfContent (Some Pdf.goodPdf)) (initialState None)))
  = {| step := step_options;
       imageData := Some {| base64 := "JVBERi0="; img_filename := "report.pdf" |};
       previewUrl := Some "data:page1"%string;
       currentPdfPage := 1; totalPdfPages := 3; pdfArrayBufferRef := true |}
  /\ imageData
       (files (fst (handleFileSelect pdfFile (pdfContent (Some Pdf.brokenPdf))
                      (initialState None)))) = None.
Proof.
  destruct (pdf_selection pdfFile (pdfContent (Some Pdf.goodPdf)) (initialState None)
              "JVBERi0=") as [Hok _];
    [unfold MAX_FILE_SIZE; cbn; lia | reflexivity | reflexivity |].
  destruct (pdf_selection pdfFile (pdfContent (Some Pdf.brokenPdf)) (initialState None)
              "JVBERi0=") as [_ Hbad];
    [unfold MAX_FILE_SIZE; cbn; lia | reflexivity | reflexivity |].
  split.
  - apply (Hok Pdf.goodPdf); try reflexivity; [cbn; lia | discriminate].
  - destruct Hbad as [H _]; [|rewrite H; reflexivity].
    right. exists Pdf.brokenPdf. repeat split.
Defined.



End PdfPageProps.

(** ** The polling hook: how it ends *)

Module HookEndProps.
Import Types PollHook.
Local Open Scope nat_scope.

Section WithOptions.
Variable pollingInterval : Z.
Variable maxRetries : nat.

(** X25: whatever state the hook has reached, the answer "completed" to a
    pending request records the response, sets the status completed and
    clears the interval, and "failed" records the error (the server's, or
    the default text) with the status failed; afterwards no interval fires.
    The hook does not look at which job the answered request was sent for. *)
Theorem terminal_response_stops_hook (api : option string) (events : list HookEvent)
  (h : HookState) (data : OcrStatusResponse) :
  hookRun pollingInterval maxRetries events (initialHook api) = Some h ->
  let h' := pollStatus_resume maxRetries (PollData data) h in
  (resp_status data = reported_completed ->
   status h' = hook_completed /\ result h' = Some data)
  /\ (resp_status data = reported_failed ->
      status h' = hook_failed
      /\ error h' = Some (match resp_error data with
                          | Some e => if String.eqb e EmptyString
                                      then "OCR processing failed"%string else e
                          | None => "OCR processing failed"%string
                          end))
  /\ (resp_status data <> reported_other ->
      intervals h' = [] /\ intervalRef h' = None /\ jobIdRef h' = None
      /\ forall i, hookFire pollingInterval maxRetries (IntervalFires i) h' = None).
Proof.
  intros Hrun h'.
  assert (Hinv : HookProps.HookInv h).
  { eapply HookProps.hookRun_HookInv; [apply HookProps.HookInv_initial | exact Hrun]. }
  split; [|split].
  - intros Hd. subst h'. unfold pollStatus_resume. rewrite Hd.
    unfold stopPolling. cbn. auto.
  - intros Hd. subst h'. unfold pollStatus_resume. rewrite Hd.
    unfold stopPolling. cbn. auto.
  - intros Hd.
    assert (E : exists st r e,
               h' = stopPolling (setOutcome (setPending h (tl (pending h))) st r e)).
    { subst h'. unfold pollStatus_resume. destruct (resp_status data); [| |contradiction];
        do 3 eexists; reflexivity. }
    destruct E as [st [r [e E]]].
    assert (Hinv' : HookProps.HookInv (setOutcome (setPending h (tl (pending h))) st r e))
      by exact Hinv.
    destruct (HookProps.stopPolling_clears _ Hinv') as [H1 [H2 _]].
    rewrite E. split; [exact H1|]. split; [exact H2|]. split; [reflexivity|].
    intros i. cbn [hookFire]. rewrite H1. reflexivity.
Qed.

Lemma hookRun_app (ev1 ev2 : list HookEvent) (h : HookState) :
  hookRun pollingInterval maxRetries (ev1 ++ ev2) h
  = match hookRun pollingInterval maxRetries ev1 h with
    | Some h1 => hookRun pollingInterval maxRetries ev2 h1
    | None => None
    end.
Proof.
  revert h. induction ev1 as [|e ev1 IH]; intros h; cbn; [reflexivity|].
  destruct (hookFire pollingInterval maxRetries e h); [apply IH | reflexivity].
Qed.

Lemma startPolling_inRound (jobId : string) (h : HookState) :
  HookProps.HookInv h -> truthy_opt_string (apiUrl h) = true -> jobId <> EmptyString ->
  pending h = [] ->
  inRound pollingInterval jobId (nextInterval h) 0 (startPolling pollingInterval jobId h).
Proof.
  intros Hinv Hapi Hne Hp.
  destruct (HookProps.startPolling_intervals pollingInterval jobId h Hinv) as [H1 [H2 _]].
  unfold inRound. rewrite H1, H2.
  unfold startPolling, pollStatus_call.
  cbn [jobIdRef apiUrl stopPolling status retriesRef pending error truthy_opt_string].
  apply String.eqb_neq in Hne. rewrite Hne. cbn [negb andb]. rewrite Hapi.
  cbn. rewrite Hp. repeat split. exact Hapi.
Qed.

Lemma round_step (jobId : string) (i k : nat) (h : HookState) :
  jobId <> EmptyString -> S k < maxRetries -> inRound pollingInterval jobId i k h ->
  exists h',
    hookRun pollingInterval maxRetries [Response stillProcessing; IntervalFires i] h = Some h'
    /\ inRound pollingInterval jobId i (S k) h'.
Proof.
  intros Hne Hk [Hst [Hr [Hint [Href [Hjob [Hp [Herr Hapi]]]]]]].
  cbn [hookRun hookFire]. rewrite Hp.
  unfold pollStatus_resume, stillProcessing. cbn [resp_status].
  unfold countRetry. cbn [retriesRef setRetries setPending]. rewrite Hr.
  replace (maxRetries <=? S k) with false by (symmetry; apply Nat.leb_gt; lia).
  cbn [intervals setRetries setPending]. rewrite Hint. cbn [existsb interval_id].
  rewrite Nat.eqb_refl. cbn [orb].
  eexists. split; [reflexivity|].
  unfold inRound, pollStatus_call.
  cbn [jobIdRef apiUrl setRetries setPending]. rewrite Hjob.
  cbn [truthy_opt_string]. apply String.eqb_neq in Hne. rewrite Hne. cbn [negb andb].
  rewrite Hapi. cbn. rewrite Hp. cbn. repeat split; assumption.
Qed.

Lemma rounds_inRound (jobId : string) (i n k : nat) (h : HookState) :
  jobId <> EmptyString -> k + n < maxRetries -> inRound pollingInterval jobId i k h ->
  exists h',
    hookRun pollingInterval maxRetries (stillProcessingRounds i n) h = Some h'
    /\ inRound pollingInterval jobId i (k + n) h'.
Proof.
  intros Hne. revert k h. induction n as [|n IH]; intros k h Hk Hin.
  - exists h. rewrite Nat.add_0_r. split; [reflexivity | exact Hin].
  - destruct (round_step jobId i k h Hne) as [h1 [Hrun1 Hin1]]; [lia | exact Hin|].
    destruct (IH (S k) h1) as [h2 [Hrun2 Hin2]]; [lia | exact Hin1|].
    exists h2. split; [|replace (k + S n) with (S k + n) by lia; exact Hin2].
    change (stillProcessingRounds i (S n))
      with ([Response stillProcessing; IntervalFires i] ++ stillProcessingRounds i n).
    rewrite hookRun_app, Hrun1. exact Hrun2.
Qed.

(** X26: a job that never finishes: after [startPolling], while every
    request is answered "still processing" before the interval fires again,
    the hook keeps polling on its one interval and counts the answers; the
    answer number [maxRetries] ends it: the status is failed with the timeout
    message and the interval is cleared. *)
Theorem polling_times_out (api : option string) (events : list HookEvent) (h : HookState)
  (jobId : string) :
  hookRun pollingInterval maxRetries events (initialHook api) = Some h ->
  truthy_opt_string (apiUrl h) = true -> pending h = [] ->
  jobId <> EmptyString -> 1 <= maxRetries ->
  let h0 := startPolling pollingInterval jobId h in
  let i := nextInterval h in
  (forall n, n < maxRetries ->
     exists hn,
       hookRun pollingInterval maxRetries (stillProcessingRounds i n) h0 = Some hn
       /\ status hn = polling /\ retriesRef hn = n /\ length (intervals hn) = 1)
  /\ exists hend,
       hookRun pollingInterval maxRetries
         (stillProcessingRounds i (maxRetries - 1) ++ [Response stillProcessing]) h0
       = Some hend
       /\ status hend = hook_failed
       /\ error hend = Some "Polling timeout: OCR processing took too long"%string
       /\ intervals hend = [] /\ intervalRef hend = None.
Proof.
  intros Hrun Hapi Hp Hne Hmax h0 i.
  assert (Hinv : HookProps.HookInv h).
  { eapply HookProps.hookRun_HookInv; [apply HookProps.HookInv_initial | exact Hrun]. }
  pose proof (startPolling_inRound jobId h Hinv Hapi Hne Hp) as H0. fold h0 i in H0.
  assert (Hi : i <> 0) by (subst i; destruct Hinv as [_ [_ Hn]]; exact Hn).
  split.
  - intros n Hn. destruct (rounds_inRound jobId i n 0 h0 Hne) as [hn [Hr Hin]];
      [lia | exact H0|].
    exists hn. destruct Hin as [Hst [Hre [Hint _]]].
    split; [exact Hr|]. split; [exact Hst|]. split; [exact Hre|]. rewrite Hint. reflexivity.
  - destruct (rounds_inRound jobId i (maxRetries - 1) 0 h0 Hne) as [hn [Hr Hin]];
      [lia | exact H0|].
    destruct Hin as [Hst [Hre [Hint [Href [Hjob [Hpn [Herr Hapin]]]]]]].
    rewrite hookRun_app, Hr. cbn [hookRun hookFire]. rewrite Hpn.
    unfold pollStatus_resume, stillProcessing. cbn [resp_status].
    unfold countRetry. cbn [retriesRef setRetries setPending]. rewrite Hre.
    replace (maxRetries <=? S (0 + (maxRetries - 1))) with true
      by (symmetry; apply Nat.leb_le; lia).
    eexists. split; [reflexivity|].
    unfold stopPolling.
    cbn [status error intervals intervalRef setOutcome setRetries setPending].
    rewrite Href, Hint. apply Nat.eqb_neq in Hi. rewrite Hi. cbn.
    rewrite Nat.eqb_refl. repeat split.
Qed.

End WithOptions.

Lemma polling_times_out_witness :
  exists hend,
    hookRun 3000 2
      (stillProcessingRounds 1 1 ++ [Response stillProcessing])
      (startPolling 3000 "J" (initialHook (Some "https://api.example"%string)))
    = Some hend
    /\ status hend = hook_failed /\ intervals hend = [].
Proof.
  destruct (polling_times_out 3000 2 (Some "https://api.example"%string) []
              (initialHook (Some "https://api.example"%string)) "J"
              eq_refl eq_refl eq_refl) as [_ [hend [Hr [Hs [_ [Hi _]]]]]];
    [discriminate | lia |].
  exists hend. split; [exact Hr|]. split; [exact Hs | exact Hi].
Defined.

Lemma terminal_response_stops_hook_witness :
  status (pollStatus_resume 60
            (PollData {| resp_status := reported_completed; resp_error := None |})
            (startPolling 3000 "J" (initialHook (Some "https://api.example"%string))))
  = hook_completed.
Proof.
  destruct (terminal_response_stops_hook 3000 60 (Some "https://api.example"%string)
              [StartPolling "J"]
              (startPolling 3000 "J" (initialHook (Some "https://api.example"%string)))
              {| resp_status := reported_completed; resp_error := None |} eq_refl)
    as [H _].
  destruct (H eq_refl) as [Hs _]. exact Hs.
Defined.

End HookEndProps.
